(** * Stealth chat: reconciler, projector, idle/panic controller, ring notifier

    A shallow embedding of the synchronisation core of [src/App.tsx] and of
    the transcript projection of [src/components/Editor.tsx], with the
    properties of the specification proved (or refuted) on it.

    Conventions of the embedding:
    - JavaScript numbers that hold epoch milliseconds or counts are [Z];
      a [Date] is its [getTime()] value, so [Date | null] is [option Z].
    - JavaScript strings are [string]; only ASCII white space is known to
      [trim] and [parseInt].
    - React state and refs of the [App] component are the fields of the
      record [App]; [Date.now()], fresh uuids and the answers of the remote
      store are arguments of the functions that read them.
    - The realtime store is visible through the listeners it has registered
      ([listeners]) and the writes that were dispatched to it ([dispatched]);
      it calls no listener that was unsubscribed. *)

From stdpp Require Import base strings gmap list.
From Stdlib Require Import ZArith Ascii DecimalString DecimalN DecimalPos Sorted.

Local Open Scope Z_scope.

(** ** JavaScript helpers *)

Module Js.

(** White space recognised by [String.prototype.trim] and [parseInt],
    restricted to ASCII: TAB, LF, VT, FF, CR and SPACE. *)
Definition isWhiteSpace (c : Ascii.ascii) : bool :=
  let n := Ascii.N_of_ascii c in
  ((9 <=? n) && (n <=? 13) || (n =? 32))%N.

Definition isDigit (c : Ascii.ascii) : bool :=
  let n := Ascii.N_of_ascii c in
  ((48 <=? n) && (n <=? 57))%N.

Fixpoint trimStart (s : string) : string :=
  match s with
  | EmptyString => EmptyString
  | String c r => if isWhiteSpace c then trimStart r else s
  end.

Definition trimEnd (s : string) : string :=
  String.rev (trimStart (String.rev s)).

Definition trim (s : string) : string := trimEnd (trimStart s).

(** Truthiness of a [string] and of a [string | null | undefined]. *)
Definition truthy (s : string) : bool := negb (String.eqb s EmptyString).

Definition truthyOpt (o : option string) : bool :=
  match o with
  | Some s => truthy s
  | None => false
  end.

(** [String(n)] and the [${n}] of a template literal, for an integer. *)
Definition numToString (n : Z) : string :=
  if n <? 0
  then "-" +:+ NilEmpty.string_of_uint (N.to_uint (Z.to_N (- n)))
  else NilEmpty.string_of_uint (N.to_uint (Z.to_N n)).

Fixpoint takeDigits (s : string) : string :=
  match s with
  | EmptyString => EmptyString
  | String c r => if isDigit c then String c (takeDigits r) else EmptyString
  end.

(** The magnitude read by [parseInt]: the longest prefix of decimal digits;
    [None] is [NaN]. *)
Definition parseDigits (s : string) : option Z :=
  let ds := takeDigits s in
  if truthy ds
  then (fun d => Z.of_N (N.of_uint d)) <$> NilEmpty.uint_of_string ds
  else None.

(** [parseInt(s, 10)]: leading white space, an optional sign, then digits;
    whatever follows the digits is ignored. [None] is [NaN]. *)
Definition parseInt10 (s : string) : option Z :=
  match trimStart s with
  | EmptyString => None
  | String c r =>
      if Ascii.eqb c "-" then Z.opp <$> parseDigits r
      else if Ascii.eqb c "+" then parseDigits r
      else parseDigits (String c r)
  end.

(** The property names that every plain object inherits from
    [Object.prototype] in a browser. *)
Definition objectPrototypeNames : list string :=
  ["constructor"; "__defineGetter__"; "__defineSetter__"; "hasOwnProperty";
   "__lookupGetter__"; "__lookupSetter__"; "isPrototypeOf";
   "propertyIsEnumerable"; "toString"; "valueOf"; "__proto__";
   "toLocaleString"]%string.

(** What [o[k]] finds on a plain object whose prototype is
    [Object.prototype] and whose own entries are [o]: an own value; a member
    of the prototype (a function, or for [__proto__] the prototype itself:
    an assignment [o[k] = v] never makes [__proto__] an own key); or
    nothing, [undefined]. *)
Inductive Member (V : Type) :=
  | OwnValue (v : V)
  | InheritedMember
  | Undefined.

Arguments OwnValue {V} v.
Arguments InheritedMember {V}.
Arguments Undefined {V}.

Definition member {V : Type} (o : gmap string V) (k : string) : Member V :=
  if String.eqb k "__proto__" then InheritedMember
  else
    match o !! k with
    | Some v => OwnValue v
    | None =>
        if bool_decide (k ∈ objectPrototypeNames) then InheritedMember
        else Undefined
    end.

End Js.

(** The strings made of decimal digits only. *)
Inductive digitString : string -> Prop :=
  | digits_nil : digitString EmptyString
  | digits_cons c r :
      Js.isDigit c = true -> digitString r -> digitString (String c r).

(** ** Data model *)

(** A field of a store document that is read as a time: [null] or absent
    (also a server timestamp that is still pending), a [Date], a store
    [Timestamp] (it has [toDate]), or any other truthy value. *)
Inductive FieldValue :=
  | VNull
  | VDate (ms : Z)
  | VTimestamp (ms : Z)
  | VOther.

Definition toJsDate (value : FieldValue) : option Z :=
  match value with
  | VNull => None
  | VDate ms => Some ms
  | VTimestamp ms => Some ms
  | VOther => None
  end.

Record ChatMessage := mkChatMessage {
  msg_id : string;
  sender : string;
  content : string;
  createdAt : option Z;
  seenBy : list string;
  seenAt : gmap string (option Z)
}.

(** What [docSnap.id] and [docSnap.data()] give for a message document. The
    data is untyped in the source; [raw_seenBy] is [None] when the field is
    not an array and [raw_seenAt] is [None] when it is not an object. *)
Record MessageDoc := mkMessageDoc {
  doc_id : string;
  raw_sender : option string;
  raw_content : option string;
  raw_createdAt : FieldValue;
  raw_seenBy : option (list string);
  raw_seenAt : option (gmap string FieldValue)
}.

Record LoginState := mkLoginState {
  loggedIn : bool;
  roomId : option string;
  userName : option string
}.

Inductive Color := c_default | c_green | c_red.

(** A terminal line; its [id] is a random uuid that only keys the rendering. *)
Record TerminalLine := mkLine {
  text : string;
  color : Color
}.

#[global] Instance Color_eq_dec : EqDecision Color.
Proof. solve_decision. Defined.

#[global] Instance TerminalLine_eq_dec : EqDecision TerminalLine.
Proof. solve_decision. Defined.

(** ** Local storage *)

(** [window.localStorage]: its items, and whether its methods throw (storage
    disabled or full); every access in the source sits in a [try]. *)
Record Storage := mkStorage {
  items : gmap string string;
  throws : bool
}.

Inductive Outcome (A : Type) :=
  | Returned (a : A)
  | Thrown.
Arguments Returned {A} a.
Arguments Thrown {A}.

Definition getItem (st : Storage) (key : string) : Outcome (option string) :=
  if throws st then Thrown else Returned (items st !! key).

Definition setItem (st : Storage) (key value : string) : Outcome Storage :=
  if throws st then Thrown
  else Returned (mkStorage (<[key := value]> (items st)) (throws st)).

Definition removeItem (st : Storage) (key : string) : Outcome Storage :=
  if throws st then Thrown
  else Returned (mkStorage (delete key (items st)) (throws st)).

(** [try { st = op(st) } catch { /* ignore */ }]. *)
Definition orIgnore (st : Storage) (r : Outcome Storage) : Storage :=
  match r with
  | Returned st' => st'
  | Thrown => st
  end.

Definition IDENTITY_KEY : string := "stealth_identity".

Definition hideBeforeKey (roomId userName : string) : string :=
  "stealth_hideBefore_" +:+ roomId +:+ "_" +:+ userName.

(** ** MessageStream reconciler: the snapshot callback of [subscribeToMessages] *)

(** The watermark read at the head of every snapshot callback. *)
Definition readHideBefore (st : Storage) (roomId userName : string) : option Z :=
  match getItem st (hideBeforeKey roomId userName) with
  | Thrown => None
  | Returned None => None
  | Returned (Some hbRaw) =>
      if Js.truthy hbRaw then Js.parseInt10 hbRaw else None
  end.

(** [hideBeforeTime && createdAt && createdAt <= hideBeforeTime]: the
    document is skipped. *)
Definition hiddenByWatermark (hideBeforeTime createdAt : option Z) : bool :=
  match hideBeforeTime, createdAt with
  | Some hb, Some c => c <=? hb
  | _, _ => false
  end.

Definition convertDoc (d : MessageDoc) : ChatMessage :=
  {| msg_id := doc_id d;
     sender := default "unknown"%string (raw_sender d);
     content := default EmptyString (raw_content d);
     createdAt := toJsDate (raw_createdAt d);
     seenBy := default [] (raw_seenBy d);
     seenAt := match raw_seenAt d with
               | Some seenAtRaw => toJsDate <$> seenAtRaw
               | None => ∅
               end |}.

(** The loop over [snapshot.docs] that fills [docs]. *)
Fixpoint snapshotDocs (hideBeforeTime : option Z) (docs : list MessageDoc)
  : list ChatMessage :=
  match docs with
  | [] => []
  | d :: rest =>
      if hiddenByWatermark hideBeforeTime (toJsDate (raw_createdAt d))
      then snapshotDocs hideBeforeTime rest
      else convertDoc d :: snapshotDocs hideBeforeTime rest
  end.

(** [m.sender !== userName && !(m.seenBy || []).includes(userName)]. *)
Definition isUnread (userName : string) (m : ChatMessage) : bool :=
  negb (String.eqb (sender m) userName)
  && negb (bool_decide (userName ∈ seenBy m)).

Definition unreadCount (userName : string) (docs : list ChatMessage) : Z :=
  Z.of_nat (length (filter (fun m => isUnread userName m = true) docs)).

Definition summaryLine (n : Z) : TerminalLine :=
  mkLine ("ncp summary: new " +:+ Js.numToString n +:+ " message(s)") c_green.

(** One run of the callback, as a function of the closure variable
    [firstSnapshot]: the new value of the flag, the lines appended to the
    terminal, and the list handed to [setMessages]. *)
Definition onMessagesSnapshot (st : Storage) (roomId userName : string)
    (firstSnapshot : bool) (snapshot : list MessageDoc)
  : bool * list TerminalLine * list ChatMessage :=
  let docs := snapshotDocs (readHideBefore st roomId userName) snapshot in
  let lines :=
    if firstSnapshot
    then (if 0 <? unreadCount userName docs
          then [summaryLine (unreadCount userName docs)]
          else [])
    else [] in
  (false, lines, docs).

(** The local filter of the [clear_local] command:
    [prev.filter((m) => !m.createdAt || m.createdAt.getTime() >= nowMs)]. *)
Definition keptByClearLocal (nowMs : Z) (m : ChatMessage) : bool :=
  match createdAt m with
  | None => true
  | Some c => nowMs <=? c
  end.

Definition clearLocalFilter (nowMs : Z) (prev : list ChatMessage)
  : list ChatMessage :=
  filter (fun m => keptByClearLocal nowMs m = true) prev.

(** ** Sending *)

(** [serverTimestamp()]: a sentinel that the store replaces by its own time. *)
Inductive WriteTime := serverTimestamp.

(** The fields handed to [addDoc] by [sendMessage]. *)
Record MessageFields := mkMessageFields {
  f_sender : string;
  f_content : string;
  f_createdAt : WriteTime;
  f_seenBy : list string;
  f_seenAt : gmap string WriteTime
}.

(** How an awaited [addDoc] can be rejected: with a [FirebaseError] of some
    code, or with another error whose [String(err)] is given. *)
Inductive Rejection :=
  | FirebaseError (code : string)
  | OtherError (description : string).

(** What a call of [sendMessage] does: the lines it appends, the write it
    dispatches (room and fields), and the error it throws, if any. *)
Record SendResult := mkSendResult {
  send_lines : list TerminalLine;
  send_write : option (string * MessageFields);
  send_thrown : option Rejection
}.

Definition notLoggedIn : SendResult :=
  mkSendResult [mkLine "error: not logged in" c_red] None None.

(** [settled] is how the store answers the [addDoc], should one be
    dispatched: [None] when it resolves. *)
Definition sendMessage (lg : LoginState) (text : string)
    (settled : option Rejection) : SendResult :=
  match loggedIn lg, roomId lg, userName lg with
  | true, Some room, Some user =>
      if Js.truthy room && Js.truthy user then
        let trimmed := Js.trim text in
        if negb (Js.truthy trimmed) then mkSendResult [] None None
        else
          mkSendResult []
            (Some (room,
                   {| f_sender := user;
                      f_content := trimmed;
                      f_createdAt := serverTimestamp;
                      f_seenBy := [user];
                      f_seenAt := {[ user := serverTimestamp ]} |}))
            settled
      else notLoggedIn
  | _, _, _ => notLoggedIn
  end.

(** [handleSendChat]: the lines appended to the terminal, in order, and the
    write that was dispatched. *)
Definition handleSendChat (lg : LoginState) (text : string)
    (settled : option Rejection)
  : list TerminalLine * option (string * MessageFields) :=
  let r := sendMessage lg text settled in
  (send_lines r ++
     match send_thrown r with
     | None => [mkLine "message sent" c_green]
     | Some (FirebaseError code) => [mkLine ("firebase error: " +:+ code) c_red]
     | Some (OtherError description) => [mkLine ("error: " +:+ description) c_red]
     end,
   send_write r).

(** The document that the store holds once it has assigned its time to the
    sentinels of a message write (the store's contract, section 6 of the
    specification: server-assigned timestamps). *)
Definition storedMessage (docId : string) (serverTime : Z) (f : MessageFields)
  : MessageDoc :=
  {| doc_id := docId;
     raw_sender := Some (f_sender f);
     raw_content := Some (f_content f);
     raw_createdAt := VTimestamp serverTime;
     raw_seenBy := Some (f_seenBy f);
     raw_seenAt := Some ((fun _ => VTimestamp serverTime) <$> f_seenAt f) |}.

(** ** Transcript projector ([Editor.tsx]) *)

Definition dquote : string := String (Ascii.ascii_of_N 34) EmptyString.

(** [content.replace(/"/g, '\\"')]. *)
Fixpoint escapeQuotes (s : string) : string :=
  match s with
  | EmptyString => EmptyString
  | String c r =>
      if Ascii.eqb c (Ascii.ascii_of_N 34)
      then String (Ascii.ascii_of_N 92) (String c (escapeQuotes r))
      else String c (escapeQuotes r)
  end.

Definition isOwn (currentUser : option string) (m : ChatMessage) : bool :=
  bool_decide (Some (sender m) = currentUser).

Definition buildMarker (currentUser : option string) (m : ChatMessage) : string :=
  match currentUser with
  | None => "#"
  | Some cu =>
      if negb (Js.truthy cu) then "#"
      else if isOwn currentUser m then
        let seenByOthers := existsb (fun u => negb (String.eqb u cu)) (seenBy m) in
        if seenByOthers then "##" else "#"
      else
        let seenHere := bool_decide (cu ∈ seenBy m) in
        if seenHere then "##" else "#"
  end.

(** The marker computed by the chat-file effect of [App.tsx], where
    [currentUser] is [login.userName ?? ""]. *)
Definition chatFileMarker (userName : option string) (m : ChatMessage) : string :=
  let currentUser := default EmptyString userName in
  if Js.truthy currentUser then
    if String.eqb (sender m) currentUser then
      let seenByOthers :=
        existsb (fun u => negb (String.eqb u currentUser)) (seenBy m) in
      if seenByOthers then "##" else "#"
    else
      let seenHere := bool_decide (currentUser ∈ seenBy m) in
      if seenHere then "##" else "#"
  else "#".

Definition messageText (marker : string) (m : ChatMessage) : string :=
  "// " +:+ marker +:+ sender m +:+ " { " +:+ dquote +:+ escapeQuotes (content m)
    +:+ dquote +:+ " }".

Definition HOUR_MS : Z := 60 * 60 * 1000.

Definition months : list string :=
  ["Jan"; "Feb"; "Mar"; "Apr"; "May"; "Jun";
   "Jul"; "Aug"; "Sep"; "Oct"; "Nov"; "Dec"]%string.

(** An element of the display list built by the [Editor]: a time separator
    or the line of a message, each with its React key. *)
Inductive RenderedLine :=
  | TimestampLine (key : string) (lineText : string)
  | ChatLine (key : string) (lineText : string) (hover : string)
             (replyPreview : option string).

Section Projection.

(** The local-time fields of a [Date], as the host's [Date] methods give
    them, and the instant [new Date()] of the rendering. *)
Variables getFullYear getMonth getDate getHours getMinutes : Z -> Z.
Variable now : Z.

Definition formatTime (d : option Z) : option string :=
  match d with
  | None => None
  | Some d =>
      let isToday :=
        (getFullYear d =? getFullYear now)
        && (getMonth d =? getMonth now)
        && (getDate d =? getDate now) in
      let hours := getHours d in
      let minutes := getMinutes d in
      let ampm := if 12 <=? hours then "PM" else "AM" in
      let hour12 := if Z.rem hours 12 =? 0 then 12 else Z.rem hours 12 in
      let mm := if minutes <? 10
                then "0" +:+ Js.numToString minutes
                else Js.numToString minutes in
      let timePart := Js.numToString hour12 +:+ ":" +:+ mm +:+ " " +:+ ampm in
      if isToday then Some timePart
      else
        let month :=
          if (0 <=? getMonth d) && (getMonth d <? 12)
          then nth (Z.to_nat (getMonth d)) months "undefined"
          else "undefined" in
        let datePart := Js.numToString (getDate d) +:+ " " +:+ month in
        Some (datePart +:+ " â€¢ " +:+ timePart)
  end.

Definition formatTimeSeparator (d : Z) : string :=
  default EmptyString (formatTime (Some d)).

Variable currentUser : option string.

(** The latest of the non-null times of [entries]; [None] when there is
    none (the result of sorting ascending and popping). *)
Definition latestOf (entries : list (string * option Z)) : option Z :=
  foldr (fun e acc =>
           match e.2, acc with
           | Some t, Some best => Some (Z.max t best)
           | Some t, None => Some t
           | None, _ => acc
           end) None entries.

(** [buildHoverText]; [None] when it throws. For a message of another
    sender it reads [m.seenAt[currentUser]] on the plain object that the
    snapshot callback filled: when the user's name is that of a member of
    [Object.prototype] and no own entry hides it, the lookup yields a
    function (or the prototype), which is truthy and goes to [formatTime],
    whose [d.getFullYear()] then throws a [TypeError]. *)
Definition buildHoverText (m : ChatMessage) : option string :=
  let sent := formatTime (createdAt m) in
  read ←
    match currentUser with
    | None => Some None
    | Some cu =>
        if negb (Js.truthy cu) then Some None
        else if isOwn currentUser m then
          let others :=
            filter (fun e => e.1 ≠ cu) (map_to_list (seenAt m)) in
          match others with
          | [] => Some None
          | _ => Some (formatTime (latestOf others))
          end
        else
          match Js.member (seenAt m) cu with
          | Js.OwnValue t => Some (formatTime t)
          | Js.InheritedMember => None
          | Js.Undefined => Some (formatTime None)
          end
    end;
  Some
    match sent, read with
    | None, None => EmptyString
    | Some s, None => "message sent on " +:+ s
    | None, Some r => "message read on " +:+ r
    | Some s, Some r =>
        "message sent on " +:+ s +:+ String (Ascii.ascii_of_N 10) EmptyString
          +:+ "message read on " +:+ r
    end.

Variable replyTarget : option ChatMessage.

(** The chat line of one message; [None] when [buildHoverText] throws. *)
Definition chatLine (m : ChatMessage) : option RenderedLine :=
  hover ← buildHoverText m;
  Some
    (ChatLine (msg_id m)
       (messageText (buildMarker currentUser m) m)
       hover
       (match replyTarget with
        | Some target =>
            if String.eqb (msg_id target) (msg_id m)
            then Some "// replying to this message"%string
            else None
        | None => None
        end)).

(** [!lastTime || created.getTime() - lastTime.getTime() >= HOUR_MS]. *)
Definition separatorDue (lastTime : option Z) (created : Z) : bool :=
  match lastTime with
  | None => true
  | Some anchor => HOUR_MS <=? created - anchor
  end.

(** The [forEach] over [chatMessages] that fills [renderedLines];
    [lastTime] is the loop's mutable anchor. The result is [None] when the
    loop throws at some message: the editor then renders no transcript. *)
Fixpoint renderLinesFrom (lastTime : option Z) (chatMessages : list ChatMessage)
  : option (list RenderedLine) :=
  match chatMessages with
  | [] => Some []
  | m :: rest =>
      match createdAt m with
      | Some created =>
          if separatorDue lastTime created then
            let label := formatTimeSeparator created in
            line ← chatLine m;
            more ← renderLinesFrom (Some created) rest;
            Some
              ((if Js.truthy label
                then [TimestampLine ("ts-" +:+ msg_id m)
                        ("// --- " +:+ label +:+ " ---")]
                else [])
                 ++ line :: more)
          else
            line ← chatLine m;
            more ← renderLinesFrom lastTime rest;
            Some (line :: more)
      | None =>
          line ← chatLine m;
          more ← renderLinesFrom lastTime rest;
          Some (line :: more)
      end
  end.

Definition renderedLines (chatMessages : list ChatMessage)
  : option (list RenderedLine) :=
  renderLinesFrom None chatMessages.

End Projection.

(** The positions, counted in messages, of the chat lines that directly
    follow a time separator. *)
Fixpoint separatorIndicesFrom (i : nat) (lines : list RenderedLine) : list nat :=
  match lines with
  | [] => []
  | TimestampLine _ _ :: rest => i :: separatorIndicesFrom i rest
  | ChatLine _ _ _ _ :: rest => separatorIndicesFrom (S i) rest
  end.

Definition separatorIndices (lines : list RenderedLine) : list nat :=
  separatorIndicesFrom 0 lines.

(** ** Ring notifier: the callback of [subscribeToRings] *)

Record RingDoc := mkRingDoc {
  ring_id : string;
  ring_sender : option string;
  ring_createdAt : FieldValue
}.

Inductive ChangeType := added | modified | removed.

(** The host's notification facility at the moment a ring is handled:
    whether [Notification] is defined, whether permission is granted, and
    whether constructing a notification throws. *)
Record NotificationEnv := mkNotificationEnv {
  notificationDefined : bool;
  permissionGranted : bool;
  constructorThrows : bool
}.

(** What leaves the component: writes to the store, system notifications
    and permission prompts. *)
Inductive Effect :=
  | AddMessage (room : string) (fields : MessageFields)
  | AddRing (room sender : string)
  | DeleteRing (room docId : string)
  | SetPresence (room user status : string)
  | SetTyping (room user : string) (typing : bool)
  | SystemNotification (title : string)
  | RequestPermission.

Inductive RingAction :=
  | Dispatch (e : Effect)
  | Notice (line : TerminalLine).

Definition ringFallback (sender : string) : TerminalLine :=
  mkLine ("ring: " +:+ sender +:+ " triggered a notification") c_green.

Definition ringReceived (sender : string) : TerminalLine :=
  mkLine ("ring received from " +:+ sender) c_default.

Definition ringTitle : string :=
  "Check out this new version of visual studio code".

(** The body of the [forEach] over [snapshot.docChanges()], for one change
    observed at [Date.now() = now]. *)
Definition onRingChange (roomId currentUser : string) (env : NotificationEnv)
    (now : Z) (type : ChangeType) (d : RingDoc) : list RingAction :=
  match type with
  | added =>
      let createdAt := toJsDate (ring_createdAt d) in
      let cleanup := Dispatch (DeleteRing roomId (ring_id d)) in
      match ring_sender d with
      | None => [cleanup]
      | Some sender =>
          if negb (Js.truthy sender) || String.eqb sender currentUser
          then [cleanup]
          else
            let stale :=
              match createdAt with
              | Some c => 5000 <? now - c
              | None => false
              end in
            if stale then [cleanup]
            else
              (if notificationDefined env && permissionGranted env
               then (if constructorThrows env
                     then [Notice (ringFallback sender)]
                     else [Dispatch (SystemNotification ringTitle)])
               else [Notice (ringFallback sender)])
              ++ [Notice (ringReceived sender); cleanup]
      end
  | _ => []
  end.

(** ** The content hierarchy *)

Inductive NodeType := file | folder.

#[warnings="-register-all"]
Inductive FileNode := mkFileNode {
  node_id : string;
  name : string;
  node_type : NodeType;
  children : option (list FileNode);
  isChatFile : bool;
  node_content : option string
}.

#[global] Instance NodeType_eq_dec : EqDecision NodeType.
Proof. solve_decision. Defined.

(** The body of the [for] loop of [findFirstSafeFile] for one node: [Some id]
    when the loop returns [id] at this node, [None] when it moves on. An id
    found below the node is returned only when it is truthy. *)
Fixpoint findFirstSafeFileNode (node : FileNode) : option string :=
  if bool_decide (node_type node = file) && negb (isChatFile node)
  then Some (node_id node)
  else
    match children node with
    | Some cs =>
        let child :=
          (fix scan (nodes : list FileNode) : option string :=
             match nodes with
             | [] => None
             | n :: rest =>
                 match findFirstSafeFileNode n with
                 | Some found => Some found
                 | None => scan rest
                 end
             end) cs in
        if Js.truthyOpt child then child else None
    | None => None
    end.

Fixpoint findFirstSafeFile (nodes : list FileNode) : option string :=
  match nodes with
  | [] => None
  | n :: rest =>
      match findFirstSafeFileNode n with
      | Some found => Some found
      | None => findFirstSafeFile rest
      end
  end.

Definition CHAT_START : string := "// --- chat zone start ---".
Definition CHAT_END : string := "// --- chat zone end ---".

Definition chatFileInFolder (chatId : string) : FileNode :=
  mkFileNode chatId "secret_job.dart" file None true
    (Some ("class SecretJob {
  final int submissionId;
  final int? jobId; // job_id might be null initially

  SecretJob({required this.submissionId, this.jobId});

  factory SecretJob.fromJson(Map<String, dynamic> json) {
    return SecretJob(
      submissionId: json['subid'],
      jobId: json['job_id'], // Can be null
    );
  }
}

" +:+ CHAT_START +:+ "
// (type your hidden messages below between these markers)

" +:+ CHAT_END +:+ "

// end of file
")).

Definition chatFileStandalone (chatId : string) : FileNode :=
  mkFileNode chatId "secret_job.dart" file None true
    (Some ("class SecretJob {
  final int submissionId;
  final int? jobId;

  SecretJob({required this.submissionId, this.jobId});
}

" +:+ CHAT_START +:+ "
// (type your hidden messages below between these markers)

" +:+ CHAT_END +:+ "

// end of file
")).

(** [insertIntoTree] for one node; [inserted] is the flag shared by the whole
    traversal, threaded through it. *)
Fixpoint insertIntoNode (chatId : string) (node : FileNode) (inserted : bool)
  : FileNode * bool :=
  if bool_decide (node_type node = folder)
     && (String.eqb (name node) "src" || String.eqb (name node) "lib")
     && negb inserted
  then
    (mkFileNode (node_id node) (name node) (node_type node)
       (Some (default [] (children node) ++ [chatFileInFolder chatId]))
       (isChatFile node) (node_content node),
     true)
  else
    match children node with
    | Some cs =>
        let '(cs', inserted') :=
          (fix walk (nodes : list FileNode) (ins : bool)
             : list FileNode * bool :=
             match nodes with
             | [] => ([], ins)
             | n :: rest =>
                 let '(n', ins1) := insertIntoNode chatId n ins in
                 let '(rest', ins2) := walk rest ins1 in
                 (n' :: rest', ins2)
             end) cs inserted in
        (mkFileNode (node_id node) (name node) (node_type node) (Some cs')
           (isChatFile node) (node_content node),
         inserted')
    | None => (node, inserted)
    end.

Fixpoint insertIntoTree (chatId : string) (nodes : list FileNode) (inserted : bool)
  : list FileNode * bool :=
  match nodes with
  | [] => ([], inserted)
  | n :: rest =>
      let '(n', ins1) := insertIntoNode chatId n inserted in
      let '(rest', ins2) := insertIntoTree chatId rest ins1 in
      (n' :: rest', ins2)
  end.

(** ** The [App] component *)

Inductive StreamKind := messagesStream | presenceStream | ringsStream.

#[global] Instance StreamKind_eq_dec : EqDecision StreamKind.
Proof. solve_decision. Defined.

(** What the callback of a listener closes over besides the room and the
    user: [firstSnapshot] is the [let] of [subscribeToMessages]. *)
Inductive Closure :=
  | messagesClosure (firstSnapshot : bool)
  | presenceClosure
  | ringsClosure.

(** A listener registered in the store by [onSnapshot]. *)
Record Listener := mkListener {
  l_room : string;
  l_user : string;
  l_closure : Closure
}.

Definition l_kind (l : Listener) : StreamKind :=
  match l_closure l with
  | messagesClosure _ => messagesStream
  | presenceClosure => presenceStream
  | ringsClosure => ringsStream
  end.

(** The state ([useState]) and refs ([useRef]) of [App], followed by its
    surroundings: the browser's local storage, the listeners that the store
    holds (keyed by the handle that unsubscribes them), the next free handle,
    and the effects dispatched so far. Presence display state
    ([presenceMap], [isTypingLocal], [onlineLogRef]) and the terminal height
    are left out. *)
Record App := mkApp {
  files : list FileNode;
  activeFileId : option string;
  terminalLines : list TerminalLine;
  openTabs : list string;
  login : LoginState;
  panic : bool;
  chatFileId : option string;
  messages : list ChatMessage;
  unsubscribeMessages : option nat;
  unsubscribePresence : option nat;
  unsubscribeRings : option nat;
  tabVisible : bool;
  lastActivityRef : Z;
  lastHiddenRef : option Z;
  localStorage : Storage;
  listeners : gmap nat Listener;
  nextListener : nat;
  dispatched : list Effect
}.

Definition set_files (v : list FileNode) (a : App) : App :=
  mkApp v (activeFileId a) (terminalLines a) (openTabs a) (login a) (panic
    a) (chatFileId a) (messages a) (unsubscribeMessages a)
    (unsubscribePresence a) (unsubscribeRings a) (tabVisible a)
    (lastActivityRef a) (lastHiddenRef a) (localStorage a) (listeners a)
    (nextListener a) (dispatched a).

Definition set_activeFileId (v : option string) (a : App) : App :=
  mkApp (files a) v (terminalLines a) (openTabs a) (login a) (panic a)
    (chatFileId a) (messages a) (unsubscribeMessages a) (unsubscribePresence
    a) (unsubscribeRings a) (tabVisible a) (lastActivityRef a) (lastHiddenRef
    a) (localStorage a) (listeners a) (nextListener a) (dispatched a).

Definition set_terminalLines (v : list TerminalLine) (a : App) : App :=
  mkApp (files a) (activeFileId a) v (openTabs a) (login a) (panic a)
    (chatFileId a) (messages a) (unsubscribeMessages a) (unsubscribePresence
    a) (unsubscribeRings a) (tabVisible a) (lastActivityRef a) (lastHiddenRef
    a) (localStorage a) (listeners a) (nextListener a) (dispatched a).

Definition set_openTabs (v : list string) (a : App) : App :=
  mkApp (files a) (activeFileId a) (terminalLines a) v (login a) (panic a)
    (chatFileId a) (messages a) (unsubscribeMessages a) (unsubscribePresence
    a) (unsubscribeRings a) (tabVisible a) (lastActivityRef a) (lastHiddenRef
    a) (localStorage a) (listeners a) (nextListener a) (dispatched a).

Definition set_login (v : LoginState) (a : App) : App :=
  mkApp (files a) (activeFileId a) (terminalLines a) (openTabs a) v (panic
    a) (chatFileId a) (messages a) (unsubscribeMessages a)
    (unsubscribePresence a) (unsubscribeRings a) (tabVisible a)
    (lastActivityRef a) (lastHiddenRef a) (localStorage a) (listeners a)
    (nextListener a) (dispatched a).

Definition set_panic (v : bool) (a : App) : App :=
  mkApp (files a) (activeFileId a) (terminalLines a) (openTabs a) (login a)
    v (chatFileId a) (messages a) (unsubscribeMessages a) (unsubscribePresence
    a) (unsubscribeRings a) (tabVisible a) (lastActivityRef a) (lastHiddenRef
    a) (localStorage a) (listeners a) (nextListener a) (dispatched a).

Definition set_chatFileId (v : option string) (a : App) : App :=
  mkApp (files a) (activeFileId a) (terminalLines a) (openTabs a) (login a)
    (panic a) v (messages a) (unsubscribeMessages a) (unsubscribePresence a)
    (unsubscribeRings a) (tabVisible a) (lastActivityRef a) (lastHiddenRef a)
    (localStorage a) (listeners a) (nextListener a) (dispatched a).

Definition set_messages (v : list ChatMessage) (a : App) : App :=
  mkApp (files a) (activeFileId a) (terminalLines a) (openTabs a) (login a)
    (panic a) (chatFileId a) v (unsubscribeMessages a) (unsubscribePresence a)
    (unsubscribeRings a) (tabVisible a) (lastActivityRef a) (lastHiddenRef a)
    (localStorage a) (listeners a) (nextListener a) (dispatched a).

Definition set_unsubscribeMessages (v : option nat) (a : App) : App :=
  mkApp (files a) (activeFileId a) (terminalLines a) (openTabs a) (login a)
    (panic a) (chatFileId a) (messages a) v (unsubscribePresence a)
    (unsubscribeRings a) (tabVisible a) (lastActivityRef a) (lastHiddenRef a)
    (localStorage a) (listeners a) (nextListener a) (dispatched a).

Definition set_unsubscribePresence (v : option nat) (a : App) : App :=
  mkApp (files a) (activeFileId a) (terminalLines a) (openTabs a) (login a)
    (panic a) (chatFileId a) (messages a) (unsubscribeMessages a) v
    (unsubscribeRings a) (tabVisible a) (lastActivityRef a) (lastHiddenRef a)
    (localStorage a) (listeners a) (nextListener a) (dispatched a).

Definition set_unsubscribeRings (v : option nat) (a : App) : App :=
  mkApp (files a) (activeFileId a) (terminalLines a) (openTabs a) (login a)
    (panic a) (chatFileId a) (messages a) (unsubscribeMessages a)
    (unsubscribePresence a) v (tabVisible a) (lastActivityRef a)
    (lastHiddenRef a) (localStorage a) (listeners a) (nextListener a)
    (dispatched a).

Definition set_tabVisible (v : bool) (a : App) : App :=
  mkApp (files a) (activeFileId a) (terminalLines a) (openTabs a) (login a)
    (panic a) (chatFileId a) (messages a) (unsubscribeMessages a)
    (unsubscribePresence a) (unsubscribeRings a) v (lastActivityRef a)
    (lastHiddenRef a) (localStorage a) (listeners a) (nextListener a)
    (dispatched a).

Definition set_lastActivityRef (v : Z) (a : App) : App :=
  mkApp (files a) (activeFileId a) (terminalLines a) (openTabs a) (login a)
    (panic a) (chatFileId a) (messages a) (unsubscribeMessages a)
    (unsubscribePresence a) (unsubscribeRings a) (tabVisible a) v
    (lastHiddenRef a) (localStorage a) (listeners a) (nextListener a)
    (dispatched a).

Definition set_lastHiddenRef (v : option Z) (a : App) : App :=
  mkApp (files a) (activeFileId a) (terminalLines a) (openTabs a) (login a)
    (panic a) (chatFileId a) (messages a) (unsubscribeMessages a)
    (unsubscribePresence a) (unsubscribeRings a) (tabVisible a)
    (lastActivityRef a) v (localStorage a) (listeners a) (nextListener a)
    (dispatched a).

Definition set_localStorage (v : Storage) (a : App) : App :=
  mkApp (files a) (activeFileId a) (terminalLines a) (openTabs a) (login a)
    (panic a) (chatFileId a) (messages a) (unsubscribeMessages a)
    (unsubscribePresence a) (unsubscribeRings a) (tabVisible a)
    (lastActivityRef a) (lastHiddenRef a) v (listeners a) (nextListener a)
    (dispatched a).

Definition set_listeners (v : gmap nat Listener) (a : App) : App :=
  mkApp (files a) (activeFileId a) (terminalLines a) (openTabs a) (login a)
    (panic a) (chatFileId a) (messages a) (unsubscribeMessages a)
    (unsubscribePresence a) (unsubscribeRings a) (tabVisible a)
    (lastActivityRef a) (lastHiddenRef a) (localStorage a) v (nextListener a)
    (dispatched a).

Definition set_nextListener (v : nat) (a : App) : App :=
  mkApp (files a) (activeFileId a) (terminalLines a) (openTabs a) (login a)
    (panic a) (chatFileId a) (messages a) (unsubscribeMessages a)
    (unsubscribePresence a) (unsubscribeRings a) (tabVisible a)
    (lastActivityRef a) (lastHiddenRef a) (localStorage a) (listeners a) v
    (dispatched a).

Definition set_dispatched (v : list Effect) (a : App) : App :=
  mkApp (files a) (activeFileId a) (terminalLines a) (openTabs a) (login a)
    (panic a) (chatFileId a) (messages a) (unsubscribeMessages a)
    (unsubscribePresence a) (unsubscribeRings a) (tabVisible a)
    (lastActivityRef a) (lastHiddenRef a) (localStorage a) (listeners a)
    (nextListener a) v.


Definition appendTerminalLine (text : string) (color : Color) (a : App) : App :=
  set_terminalLines (terminalLines a ++ [mkLine text color]) a.

Definition dispatch (e : Effect) (a : App) : App :=
  set_dispatched (dispatched a ++ [e]) a.

(** Calling the function returned by [onSnapshot]: the store drops the
    listener; a second call changes nothing. *)
Definition unsubscribe (handle : nat) (a : App) : App :=
  set_listeners (delete handle (listeners a)) a.

(** [onSnapshot(q, callback)]: the store registers the listener under a
    fresh handle. *)
Definition onSnapshot (l : Listener) (a : App) : nat * App :=
  (nextListener a,
   set_nextListener (S (nextListener a))
     (set_listeners (<[nextListener a := l]> (listeners a)) a)).

Definition unsubscribeIfAny (handle : option nat) (a : App) : App :=
  match handle with
  | Some h => unsubscribe h a
  | None => a
  end.

Definition subscribeToMessages (roomId userName : string) (a : App) : App :=
  let a := unsubscribeIfAny (unsubscribeMessages a) a in
  let '(unsub, a) := onSnapshot (mkListener roomId userName (messagesClosure true)) a in
  set_unsubscribeMessages (Some unsub) a.

Definition subscribeToPresence (roomId currentUser : string) (a : App) : App :=
  let a := unsubscribeIfAny (unsubscribePresence a) a in
  let '(unsub, a) := onSnapshot (mkListener roomId currentUser presenceClosure) a in
  set_unsubscribePresence (Some unsub) a.

Definition subscribeToRings (roomId currentUser : string) (a : App) : App :=
  let a :=
    match unsubscribeRings a with
    | Some h => set_unsubscribeRings None (unsubscribe h a)
    | None => a
    end in
  let '(unsub, a) := onSnapshot (mkListener roomId currentUser ringsClosure) a in
  set_unsubscribeRings (Some unsub) a.

(** The store delivers a snapshot of the message feed to the listener
    [handle]; a listener that was unsubscribed receives nothing. *)
Definition messagesCallback (handle : nat) (snapshot : list MessageDoc) (a : App)
  : App :=
  match listeners a !! handle with
  | Some l =>
      match l_closure l with
      | messagesClosure firstSnapshot =>
          let '(firstSnapshot', lines, docs) :=
            onMessagesSnapshot (localStorage a) (l_room l) (l_user l)
              firstSnapshot snapshot in
          let a :=
            set_listeners
              (<[handle := mkListener (l_room l) (l_user l)
                             (messagesClosure firstSnapshot')]>
                 (listeners a)) a in
          let a := set_terminalLines (terminalLines a ++ lines) a in
          set_messages docs a
      | _ => a
      end
  | None => a
  end.

Definition applyRingAction (act : RingAction) (a : App) : App :=
  match act with
  | Dispatch e => dispatch e a
  | Notice line => set_terminalLines (terminalLines a ++ [line]) a
  end.

(** The store delivers document changes of the ring collection to the
    listener [handle]; each change comes with the [Date.now()] at which its
    turn of the loop runs. *)
Definition ringsCallback (handle : nat) (env : NotificationEnv)
    (changes : list (Z * ChangeType * RingDoc)) (a : App) : App :=
  match listeners a !! handle with
  | Some l =>
      match l_closure l with
      | ringsClosure =>
          foldl (fun a ch =>
                   let '(now, type, d) := ch in
                   foldl (fun a act => applyRingAction act a) a
                     (onRingChange (l_room l) (l_user l) env now type d))
                a changes
      | _ => a
      end
  | None => a
  end.

(** ** Idle/panic controller *)

Definition hideChatAndSwitch (a : App) : App :=
  let prev := activeFileId a in
  let next :=
    match chatFileId a with
    | None => prev
    | Some chatId =>
        if negb (Js.truthy chatId) then prev
        else if negb (bool_decide (prev = Some chatId)) then prev
        else findFirstSafeFile (files a)
    end in
  set_activeFileId next (set_panic true a).

(** The [visibilitychange] handlers: the one that keeps [tabVisible] and
    [lastHiddenRef], and the one that reports presence while logged in. *)
Definition visHandler (visible : bool) (now : Z) (a : App) : App :=
  let a := set_tabVisible visible a in
  let a := set_lastHiddenRef (if visible then None else Some now) a in
  match loggedIn (login a), roomId (login a), userName (login a) with
  | true, Some room, Some user =>
      if Js.truthy room && Js.truthy user
      then dispatch (SetPresence room user (if visible then "online" else "away")) a
      else a
  | _, _, _ => a
  end.

Definition markActivity (now : Z) (a : App) : App := set_lastActivityRef now a.

Definition IDLE_MS : Z := 5 * 60 * 1000.
Definition CHECK_MS : Z := 30 * 1000.

(** The callback of the [setInterval] of the idle effect, run at
    [Date.now() = now]. *)
Definition idlePoll (now : Z) (a : App) : App :=
  if negb (loggedIn (login a)) || negb (Js.truthyOpt (chatFileId a)) then a
  else
    let idleTooLong := IDLE_MS <=? now - lastActivityRef a in
    let hiddenTooLong :=
      match lastHiddenRef a with
      | Some hidden => IDLE_MS <=? now - hidden
      | None => false
      end in
    if (idleTooLong || hiddenTooLong) && negb (panic a)
    then hideChatAndSwitch a
    else a.

(** The effect that clears the focus when the chat file is focused during
    panic; it runs after every change of [panic], [activeFileId] or
    [chatFileId]. *)
Definition panicFocusEffect (a : App) : App :=
  if panic a && bool_decide (activeFileId a = chatFileId a)
  then set_activeFileId None a
  else a.

(** [ensureChatFile], with the uuid it would draw. *)
Definition ensureChatFile (uuid : string) (a : App) : App :=
  if Js.truthyOpt (chatFileId a) then a
  else
    let '(newFiles, inserted) := insertIntoTree uuid (files a) false in
    let newFiles :=
      if inserted then newFiles else newFiles ++ [chatFileStandalone uuid] in
    let a := set_files newFiles a in
    if Js.truthy uuid then set_chatFileId (Some uuid) a else a.

Definition handleSelectFile (id : option string) (a : App) : App :=
  let a := set_activeFileId id a in
  match id with
  | Some i =>
      if Js.truthy i
      then set_openTabs (if bool_decide (i ∈ openTabs a)
                         then openTabs a else openTabs a ++ [i]) a
      else a
  | None => a
  end.

(** [prev.indexOf(fileId)], [None] for -1. *)
Fixpoint indexOf (fileId : string) (l : list string) : option nat :=
  match l with
  | [] => None
  | x :: rest =>
      if String.eqb x fileId then Some O
      else S <$> indexOf fileId rest
  end.

Definition closeTab (fileId : string) (a : App) : App :=
  let prev := openTabs a in
  let idx := indexOf fileId prev in
  let next := filter (fun id => id ≠ fileId) prev in
  let a :=
    if bool_decide (activeFileId a = Some fileId) then
      match next, idx with
      | [], _ => set_activeFileId None a
      | _, Some (S i) => set_activeFileId (next !! i) a
      | _, _ => set_activeFileId (next !! O) a
      end
    else a in
  set_openTabs next a.

(** ** Commands of the terminal ([handleCommand]) *)

Definition hexDigit (n : N) : Ascii.ascii :=
  Ascii.ascii_of_N (if (n <? 10)%N then 48 + n else 87 + n)%N.

(** [JSON.stringify] of a string. *)
Fixpoint jsonEscape (s : string) : string :=
  match s with
  | EmptyString => EmptyString
  | String c r =>
      let n := Ascii.N_of_ascii c in
      let bs := Ascii.ascii_of_N 92 in
      (if (n =? 34)%N then String bs (String c EmptyString)
       else if (n =? 92)%N then String bs (String bs EmptyString)
       else if (n =? 8)%N then String bs "b"
       else if (n =? 9)%N then String bs "t"
       else if (n =? 10)%N then String bs "n"
       else if (n =? 12)%N then String bs "f"
       else if (n =? 13)%N then String bs "r"
       else if (n <? 32)%N
            then String bs ("u00" +:+ String (hexDigit (n / 16))
                                      (String (hexDigit (n mod 16)) EmptyString))
       else String c EmptyString) +:+ jsonEscape r
  end.

Definition jsonString (s : string) : string := dquote +:+ jsonEscape s +:+ dquote.

(** [JSON.stringify({ roomId, userName })]. *)
Definition identityJson (roomId userName : string) : string :=
  "{" +:+ dquote +:+ "roomId" +:+ dquote +:+ ":" +:+ jsonString roomId +:+ ","
      +:+ dquote +:+ "userName" +:+ dquote +:+ ":" +:+ jsonString userName +:+ "}".

Definition requestPermissionIfNeeded (env : NotificationEnv) (a : App) : App :=
  if notificationDefined env && negb (permissionGranted env)
  then dispatch RequestPermission a
  else a.

(** What [login] and the auto-login effect share once the identity is known. *)
Definition joinRoom (roomId userName uuid : string) (env : NotificationEnv)
    (a : App) : App :=
  let a := ensureChatFile uuid a in
  let a := subscribeToMessages roomId userName a in
  let a := subscribeToPresence roomId userName a in
  let a := subscribeToRings roomId userName a in
  let a := requestPermissionIfNeeded env a in
  dispatch (SetPresence roomId userName "online") a.

(** [login <room_id> [user_name]]; the arguments are [rest[0]] and
    [rest[1]]. *)
Definition cmd_login (rest0 rest1 : option string) (uuid : string)
    (env : NotificationEnv) (a : App) : App :=
  if loggedIn (login a)
  then appendTerminalLine "already logged in; use logout first" c_red a
  else
    let userName := default "dev"%string rest1 in
    match rest0 with
    | Some roomId =>
        if Js.truthy roomId then
          let a := set_login (mkLoginState true (Some roomId) (Some userName)) a in
          let a :=
            appendTerminalLine
              ("logged into room " +:+ roomId +:+ " as " +:+ userName) c_green a in
          let a :=
            set_localStorage
              (orIgnore (localStorage a)
                 (setItem (localStorage a) IDENTITY_KEY
                    (identityJson roomId userName))) a in
          joinRoom roomId userName uuid env a
        else appendTerminalLine "usage: login <room_id> [user_name]" c_red a
    | None => appendTerminalLine "usage: login <room_id> [user_name]" c_red a
    end.

(** The auto-login effect; [parsed] is what [JSON.parse] makes of the stored
    identity: [None] when it throws, else the two fields it finds. *)
Definition autoLogin (parsed : option (option string * option string))
    (uuid : string) (env : NotificationEnv) (a : App) : App :=
  if loggedIn (login a) then a
  else
    match getItem (localStorage a) IDENTITY_KEY with
    | Returned (Some raw) =>
        if Js.truthy raw then
          match parsed with
          | Some (Some roomId, Some userName) =>
              if Js.truthy roomId && Js.truthy userName then
                let a :=
                  set_login (mkLoginState true (Some roomId) (Some userName)) a in
                let a :=
                  appendTerminalLine
                    ("auto-login to room " +:+ roomId +:+ " as " +:+ userName)
                    c_green a in
                joinRoom roomId userName uuid env a
              else a
          | _ => a
          end
        else a
    | _ => a
    end.

Definition cmd_ncp_run (a : App) : App :=
  if negb (loggedIn (login a))
  then appendTerminalLine "error: not logged in" c_red a
  else
    match chatFileId a with
    | Some chat =>
        if Js.truthy chat then
          let a := set_panic false a in
          let a := set_activeFileId (Some chat) a in
          let a :=
            set_openTabs (if bool_decide (chat ∈ openTabs a)
                          then openTabs a else openTabs a ++ [chat]) a in
          appendTerminalLine "running ncp... opening job file" c_green a
        else appendTerminalLine "chat file not initialized" c_red a
    | None => appendTerminalLine "chat file not initialized" c_red a
    end.

Definition cmd_hide_chat (a : App) : App :=
  appendTerminalLine "chat file hidden" c_green (hideChatAndSwitch a).

Definition cmd_logout (a : App) : App :=
  let a :=
    match loggedIn (login a), roomId (login a), userName (login a) with
    | true, Some room, Some user =>
        if Js.truthy room && Js.truthy user
        then dispatch (SetPresence room user "offline")
               (dispatch (SetTyping room user false) a)
        else a
    | _, _, _ => a
    end in
  let a := set_login (mkLoginState false None None) a in
  let a := set_panic true a in
  let a := unsubscribeIfAny (unsubscribeMessages a) a in
  let a := unsubscribeIfAny (unsubscribePresence a) a in
  let a :=
    set_localStorage
      (orIgnore (localStorage a) (removeItem (localStorage a) IDENTITY_KEY)) a in
  appendTerminalLine "logged out. chat file hidden" c_green a.

(** [clear_local], run at [Date.now() = nowMs]. *)
Definition cmd_clear_local (nowMs : Z) (a : App) : App :=
  match loggedIn (login a), roomId (login a), userName (login a) with
  | true, Some room, Some user =>
      if Js.truthy room && Js.truthy user then
        let a :=
          set_localStorage
            (orIgnore (localStorage a)
               (setItem (localStorage a) (hideBeforeKey room user)
                  (Js.numToString nowMs))) a in
        let a := set_messages (clearLocalFilter nowMs (messages a)) a in
        appendTerminalLine
          "local chat history cleared (server copy still exists)" c_green a
      else appendTerminalLine "error: not logged in" c_red a
  | _, _, _ => appendTerminalLine "error: not logged in" c_red a
  end.

(** [send <message>]; [msgText] is [rest.join(" ")]. *)
Definition cmd_send (msgText : string) (settled : option Rejection) (a : App)
  : App :=
  if negb (Js.truthy msgText)
  then appendTerminalLine "usage: send <your message>" c_red a
  else
    let '(lines, write) := handleSendChat (login a) msgText settled in
    let a :=
      match write with
      | Some (room, fields) => dispatch (AddMessage room fields) a
      | None => a
      end in
    set_terminalLines (terminalLines a ++ lines) a.

(** [ring]; [accepted] tells whether the store takes the new document. *)
Definition cmd_ring (accepted : bool) (a : App) : App :=
  match loggedIn (login a), roomId (login a), userName (login a) with
  | true, Some room, Some user =>
      if Js.truthy room && Js.truthy user then
        let a := dispatch (AddRing room user) a in
        if accepted then appendTerminalLine "ring sent" c_green a
        else appendTerminalLine "failed to send ring" c_red a
      else appendTerminalLine "error: not logged in" c_red a
  | _, _, _ => appendTerminalLine "error: not logged in" c_red a
  end.

(** ** Events *)

(** Everything that can happen to a mounted [App]: a terminal command, a
    browser event, a tick of the idle interval, a delivery by the store, or
    an edit of the content hierarchy by the explorer or the editor. *)
Inductive Event :=
  | Login (rest0 rest1 : option string) (uuid : string) (env : NotificationEnv)
  | AutoLogin (parsed : option (option string * option string)) (uuid : string)
              (env : NotificationEnv)
  | Logout
  | NcpRun
  | HideChat
  | ClearLocal (nowMs : Z)
  | Send (msgText : string) (settled : option Rejection)
  | Ring (accepted : bool)
  | PanicChord
  | VisibilityChange (visible : bool) (now : Z)
  | Activity (now : Z)
  | IdleTick (now : Z)
  | MessagesDelivery (handle : nat) (snapshot : list MessageDoc)
  | RingsDelivery (handle : nat) (env : NotificationEnv)
                  (changes : list (Z * ChangeType * RingDoc))
  | SelectFile (id : option string)
  | CloseTab (fileId : string)
  | SetFiles (newFiles : list FileNode).

Definition handle (ev : Event) (a : App) : App :=
  match ev with
  | Login rest0 rest1 uuid env => cmd_login rest0 rest1 uuid env a
  | AutoLogin parsed uuid env => autoLogin parsed uuid env a
  | Logout => cmd_logout a
  | NcpRun => cmd_ncp_run a
  | HideChat => cmd_hide_chat a
  | ClearLocal nowMs => cmd_clear_local nowMs a
  | Send msgText settled => cmd_send msgText settled a
  | Ring accepted => cmd_ring accepted a
  | PanicChord => hideChatAndSwitch a
  | VisibilityChange visible now => visHandler visible now a
  | Activity now => markActivity now a
  | IdleTick now => idlePoll now a
  | MessagesDelivery h snapshot => messagesCallback h snapshot a
  | RingsDelivery h env changes => ringsCallback h env changes a
  | SelectFile id => handleSelectFile id a
  | CloseTab fileId => closeTab fileId a
  | SetFiles newFiles => set_files newFiles a
  end.

(** One event, followed by the effect that reacts to the new state. *)
Definition step (ev : Event) (a : App) : App := panicFocusEffect (handle ev a).

Definition run (evs : list Event) (a : App) : App :=
  foldl (fun a ev => step ev a) a evs.

(** The component as mounted at [Date.now() = now]. *)
Definition initialApp (initialFiles : list FileNode) (storage : Storage) (now : Z)
  : App :=
  {| files := initialFiles;
     activeFileId := None;
     terminalLines :=
       [ mkLine "➜  Local:   http://localhost:5173/" c_green;
         mkLine "➜  Network: use --host to expose" c_green;
         mkLine "➜  press h + enter to show help" c_green;
         mkLine "11:06:09 AM [vite] (client) page reload index.html" c_default;
         mkLine "11:06:09 AM [vite] (client) page reload index.html (x2)" c_default;
         mkLine "11:08:43 AM [vite] (client) hmr update /src/App.tsx" c_default;
         mkLine "11:08:46 AM [vite] (client) hmr update /src/App.tsx (x2)" c_default;
         mkLine ("11:14:53 AM [vite] Internal server error: Failed to resolve import "
                   +:+ dquote +:+ "./styles.css" +:+ dquote) c_red ];
     openTabs := [];
     login := mkLoginState false None None;
     panic := false;
     chatFileId := None;
     messages := [];
     unsubscribeMessages := None;
     unsubscribePresence := None;
     unsubscribeRings := None;
     tabVisible := true;
     lastActivityRef := now;
     lastHiddenRef := None;
     localStorage := storage;
     listeners := ∅;
     nextListener := O;
     dispatched := [] |}.

Inductive reachable : App -> Prop :=
  | reachable_initial initialFiles storage now :
      reachable (initialApp initialFiles storage now)
  | reachable_step ev a :
      reachable a -> reachable (step ev a).

(** The ticks of the idle interval: the [k]-th one after a first tick at
    [t0], and the component after the first [n] of them with nothing else
    happening in between. *)
Definition tickTime (t0 : Z) (k : nat) : Z := t0 + CHECK_MS * Z.of_nat k.

Fixpoint afterTicks (t0 : Z) (n : nat) (a : App) : App :=
  match n with
  | O => a
  | S n' => step (IdleTick (tickTime t0 n')) (afterTicks t0 n' a)
  end.

(** ** Sample data used by the examples below *)

Definition workingStorage : Storage := mkStorage ∅ false.

Definition grantedEnv : NotificationEnv := mkNotificationEnv true true false.

Definition deniedEnv : NotificationEnv := mkNotificationEnv true false false.

(** A stored message of [from], seen by its author only. *)
Definition docAt (id from : string) (created : FieldValue) : MessageDoc :=
  mkMessageDoc id (Some from) (Some "hi"%string) created (Some [from]) None.

Definition msgAt (id from : string) (created : option Z) (seen : list string)
  : ChatMessage :=
  mkChatMessage id from "hi" created seen ∅.

Definition aliceSession : LoginState :=
  mkLoginState true (Some "room"%string) (Some "alice"%string).

Definition noSession : LoginState := mkLoginState false None None.

(** Alice logged into [room] on a fresh component. *)
Definition aliceApp : App :=
  step (Login (Some "room"%string) (Some "alice"%string) "chat-1" grantedEnv)
    (initialApp [] workingStorage 0).

(** Alice with the tab hidden at 0 and the last activity at 20000; and
    Alice, last active at 0, with the tab hidden at 60000. *)
Definition hiddenThenActive : App :=
  step (Activity 20000) (step (VisibilityChange false 0) aliceApp).

Definition activeThenHidden : App :=
  step (VisibilityChange false 60000) aliceApp.

(** ** Vocabulary of the statements *)

(** An active session: the guard [login.loggedIn && login.roomId &&
    login.userName] holds, with these room and user. *)
Definition activeSession (lg : LoginState) (room user : string) : Prop :=
  loggedIn lg = true /\ roomId lg = Some room /\ userName lg = Some user
  /\ room <> EmptyString /\ user <> EmptyString.

(** The handle that [App] holds for a stream kind. *)
Definition handleOf (k : StreamKind) (a : App) : option nat :=
  match k with
  | messagesStream => unsubscribeMessages a
  | presenceStream => unsubscribePresence a
  | ringsStream => unsubscribeRings a
  end.

(** The most recent separator before message [i]: the last of the separator
    positions that lie below [i]. *)
Definition lastBelow (i : nat) (seps : list nat) : option nat :=
  last (filter (fun j => (j < i)%nat) seps).

(** What a fresh ring of another user produces: the system notification, or
    the fallback line when [Notification] is missing, not granted, or
    throws; then the received line; then the deletion. *)
Definition ringAnnounced (roomId : string) (env : NotificationEnv)
    (docId sender : string) : list RingAction :=
  [ if notificationDefined env && permissionGranted env
       && negb (constructorThrows env)
    then Dispatch (SystemNotification ringTitle)
    else Notice (ringFallback sender);
    Notice (ringReceived sender);
    Dispatch (DeleteRing roomId docId) ].

(** While the chat file exists and panic is off, somebody is logged in. *)
Definition sessionGuard (a : App) : Prop :=
  Js.truthyOpt (chatFileId a) = true -> panic a = false -> loggedIn (login a) = true.

(** Every listener that the store still holds is the one whose handle [App]
    keeps for its stream kind, and the handles that [App] keeps were issued
    before the next free one. *)
Definition handlesTracked (a : App) : Prop :=
  (forall h l, listeners a !! h = Some l -> handleOf (l_kind l) a = Some h)
  /\ (forall k h, handleOf k a = Some h -> (h < nextListener a)%nat).

(** [a'] is [a] after attaching the listener [l] of kind [k]: [l] is live
    under the fresh handle, it is the only live listener of its kind, and
    the listener that [App] held for that kind before is gone. *)
Definition supersedes (k : StreamKind) (l : Listener) (a a' : App) : Prop :=
  listeners a' !! nextListener a = Some l
  /\ (forall h l', listeners a' !! h = Some l' -> l_kind l' = k ->
                   h = nextListener a /\ l' = l)
  /\ (forall h0, handleOf k a = Some h0 -> listeners a' !! h0 = None).

(** ** Further operations of the terminal, the editor and the explorer *)

(** [a.split(" ")]: the pieces between single spaces; [cur] is the piece
    being read, reversed. *)
Fixpoint splitSpaceFrom (s : string) (cur : string) : list string :=
  match s with
  | EmptyString => [String.rev cur]
  | String c r =>
      if Ascii.eqb c " "
      then String.rev cur :: splitSpaceFrom r EmptyString
      else splitSpaceFrom r (String c cur)
  end.

Definition splitSpace (s : string) : list string := splitSpaceFrom s EmptyString.

(** [parts.join(" ")]. *)
Fixpoint joinSpace (parts : list string) : string :=
  match parts with
  | [] => EmptyString
  | [p] => p
  | p :: rest => p +:+ " " +:+ joinSpace rest
  end.

(** The strings of white space only, which are the strings that [trim]
    empties. *)
Fixpoint blank (s : string) : bool :=
  match s with
  | EmptyString => true
  | String c r => Js.isWhiteSpace c && blank r
  end.

(** What a command reads from its surroundings when it runs: [Date.now()],
    the uuid that [ensureChatFile] would draw, the notification facility,
    how the store settles an [addDoc] of a message, and whether it accepts
    a ring. *)
Record CommandEnv := mkCommandEnv {
  env_now : Z;
  env_uuid : string;
  env_notification : NotificationEnv;
  env_settled : option Rejection;
  env_ringAccepted : bool
}.

Definition helpLines : list TerminalLine :=
  [ mkLine "available commands:" c_default;
    mkLine "  login <room_id> [user_name]" c_default;
    mkLine "  ncp run" c_default;
    mkLine "  hide_chat" c_default;
    mkLine "  clear_local" c_default;
    mkLine "  logout" c_default;
    mkLine "  send <message>" c_default;
    mkLine "  git status" c_default;
    mkLine "  npm run dev" c_default;
    mkLine "  flutter run" c_default;
    mkLine "  ring (notify other users)" c_default ].

Definition gitStatusLines : list TerminalLine :=
  [ mkLine "On branch main" c_default;
    mkLine "Your branch is up to date with 'origin/main'." c_default;
    mkLine EmptyString c_default;
    mkLine "nothing to commit, working tree clean" c_default ].

Definition npmRunDevLines : list TerminalLine :=
  [ mkLine "> stealth-vscode-chat@0.0.1 dev" c_default;
    mkLine "> vite" c_default;
    mkLine EmptyString c_default;
    mkLine "VITE v5.0.0  ready in 450 ms" c_green;
    mkLine "➜  Local:   http://localhost:5173/" c_green;
    mkLine "➜  Network: use --host to expose" c_green;
    mkLine "➜  press h + enter to show help" c_green ].

Definition flutterRunLines : list TerminalLine :=
  [ mkLine "Launching lib/main.dart on Chrome in debug mode..." c_default;
    mkLine "Waiting for connection from debug service on Chrome..." c_default;
    mkLine "Debug service listening on ws://127.0.0.1:12345/abcd=" c_default;
    mkLine "Running with sound null safety" c_green ].

Definition appendLines (lines : list TerminalLine) (a : App) : App :=
  set_terminalLines (terminalLines a ++ lines) a.

(** [handleCommand]: the input is trimmed, echoed, split at spaces and
    dispatched on its first word, in the order of the source. *)
Definition handleCommand (raw : string) (env : CommandEnv) (a : App) : App :=
  let input := Js.trim raw in
  if negb (Js.truthy input) then a
  else
    let a := appendTerminalLine ("> " +:+ input) c_default a in
    match splitSpace input with
    | [] => appendTerminalLine "unknown command: undefined" c_red a
    | cmd :: rest =>
        if String.eqb cmd "help"
           || (String.eqb cmd "h" && bool_decide (rest = []))
        then appendLines helpLines a
        else if String.eqb cmd "git" && bool_decide (rest !! O = Some "status"%string)
        then appendLines gitStatusLines a
        else if String.eqb cmd "npm" && bool_decide (rest !! O = Some "run"%string)
                && bool_decide (rest !! 1%nat = Some "dev"%string)
        then appendLines npmRunDevLines a
        else if String.eqb cmd "flutter" && bool_decide (rest !! O = Some "run"%string)
        then appendLines flutterRunLines a
        else if String.eqb cmd "login"
        then cmd_login (rest !! O) (rest !! 1%nat) (env_uuid env)
               (env_notification env) a
        else if String.eqb cmd "ncp" && bool_decide (rest !! O = Some "run"%string)
        then cmd_ncp_run a
        else if String.eqb cmd "hide_chat" then cmd_hide_chat a
        else if String.eqb cmd "logout" then cmd_logout a
        else if String.eqb cmd "clear_local" then cmd_clear_local (env_now env) a
        else if String.eqb cmd "send"
        then cmd_send (joinSpace rest) (env_settled env) a
        else if String.eqb cmd "ring" then cmd_ring (env_ringAccepted env) a
        else appendTerminalLine ("unknown command: " +:+ cmd) c_red a
    end.

(** The first words that [handleCommand] knows. *)
Definition knownCommands : list string :=
  ["help"; "h"; "git"; "npm"; "flutter"; "login"; "ncp"; "hide_chat"; "logout";
   "clear_local"; "send"; "ring"]%string.

(** *** The chat input of the editor *)

(** The excerpt of the reply target: its first 24 characters and an
    ellipsis when it is longer. *)
Definition replySnippet (target : ChatMessage) : string :=
  if (24 <? String.length (content target))%nat
  then String.substring 0 24 (content target) +:+ "..."
  else content target.

(** [handleChatKeyDown] on Enter: the text handed to [onSendChat], or
    [None] when the handler returns before sending. *)
Definition composeChat (chatInput : string) (replyTarget : option ChatMessage)
  : option string :=
  let baseText := Js.trim chatInput in
  if negb (Js.truthy baseText) then None
  else
    Some (match replyTarget with
          | Some target =>
              "replied to { " +:+ dquote +:+ replySnippet target +:+ dquote
                +:+ " } " +:+ baseText
          | None => baseText
          end).

(** *** Presence *)

(** What [docSnap.id] and [docSnap.data()] give for a presence document;
    [pres_online] and [pres_typing] are the truthiness of the fields. *)
Record PresenceDoc := mkPresenceDoc {
  pres_id : string;
  pres_userName : option string;
  pres_status : option string;
  pres_online : bool;
  pres_typing : bool
}.

Record PresenceInfo := mkPresenceInfo {
  status : string;
  typing : bool
}.

(** [PresenceMap], a plain object: [pm_own] holds its own entries;
    [pm_proto] is [None] while its prototype is [Object.prototype], and
    [Some info] once the assignment [next["__proto__"] = info] of the
    presence callback has made the object [info] its prototype (that
    assignment sets the prototype and adds no own entry). *)
Record PresenceMap := mkPresenceMap {
  pm_own : gmap string PresenceInfo;
  pm_proto : option PresenceInfo
}.

(** [{ ...prev }]: a fresh plain object with the own entries of [prev]. *)
Definition pmSpread (prev : PresenceMap) : PresenceMap :=
  mkPresenceMap (pm_own prev) None.

(** [next[name] = info]. *)
Definition pmSet (name : string) (info : PresenceInfo) (next : PresenceMap)
  : PresenceMap :=
  if String.eqb name "__proto__"
  then mkPresenceMap (pm_own next) (Some info)
  else mkPresenceMap (<[name := info]> (pm_own next)) (pm_proto next).

(** [(prev[name] ?? { status: "offline", typing: false }).status], with
    [None] for [undefined]. An own entry gives its status and a name that
    is found nowhere gives ["offline"]. A name found on the prototype chain
    gives a value that is not nullish and has no [status]: a function of
    [Object.prototype], or the string or boolean held by [status] or
    [typing] of a prototype set by [pmSet]. [__proto__] gives the prototype
    itself: the object set by [pmSet], with its status, or
    [Object.prototype]. *)
Definition prevStatusOf (prev : PresenceMap) (name : string) : option string :=
  if String.eqb name "__proto__" then status <$> pm_proto prev
  else
    match pm_own prev !! name with
    | Some info => Some (status info)
    | None =>
        if bool_decide (name ∈ Js.objectPrototypeNames) then None
        else
          match pm_proto prev with
          | Some _ =>
              if String.eqb name "status" || String.eqb name "typing"
              then None
              else Some "offline"%string
          | None => Some "offline"%string
          end
    end.

(** [now - (onlineLogRef.current[name] ?? 0) > 2000]; the log is a plain
    object that holds numbers, and for a name found on [Object.prototype]
    the difference is [NaN], which is not greater than 2000. *)
Definition onlineNoticeDue (now : Z) (log : gmap string Z) (name : string) : bool :=
  match Js.member log name with
  | Js.OwnValue lastLog => 2000 <? now - lastLog
  | Js.InheritedMember => false
  | Js.Undefined => 2000 <? now - 0
  end.

(** The state that the presence callback works on: [presenceMap], the
    [onlineLogRef] of the last online notice per user, and the lines it
    appends. *)
Record PresenceState := mkPresenceState {
  presenceMap : PresenceMap;
  onlineLog : gmap string Z;
  presenceLines : list TerminalLine
}.

Definition docName (d : PresenceDoc) : string :=
  default (pres_id d) (pres_userName d).

Definition docStatus (d : PresenceDoc) : string :=
  default (if pres_online d then "online" else "offline")%string (pres_status d).

(** One turn of the [forEach] of the presence callback: [prev] is the map
    before the snapshot, [st] holds [next], the log and the lines so far. *)
Definition presenceTurn (currentUser : string) (now : Z)
    (prev : PresenceMap) (st : PresenceState) (d : PresenceDoc)
  : PresenceState :=
  let name := docName d in
  let newStatus := docStatus d in
  let prevStatus := prevStatusOf prev name in
  let '(log, lines) :=
    if negb (String.eqb name currentUser)
       && negb (bool_decide (Some newStatus = prevStatus))
    then
      if String.eqb newStatus "online" then
        if onlineNoticeDue now (onlineLog st) name
        then (<[name := now]> (onlineLog st),
              [mkLine ("user " +:+ name +:+ " online") c_green])
        else (onlineLog st, [])
      else if String.eqb newStatus "away"
      then (onlineLog st, [mkLine ("user " +:+ name +:+ " away") c_default])
      else if String.eqb newStatus "offline"
      then (onlineLog st, [mkLine ("user " +:+ name +:+ " offline") c_default])
      else (onlineLog st, [])
    else (onlineLog st, []) in
  mkPresenceState
    (pmSet name (mkPresenceInfo newStatus (pres_typing d)) (presenceMap st))
    log
    (presenceLines st ++ lines).

(** The snapshot callback of [subscribeToPresence], run at
    [Date.now() = now]; the lines of the result are the ones it appended. *)
Definition onPresenceSnapshot (currentUser : string) (now : Z)
    (prev : PresenceMap) (log : gmap string Z)
    (docs : list PresenceDoc) : PresenceState :=
  foldl (presenceTurn currentUser now prev)
    (mkPresenceState (pmSpread prev) log []) docs.

(** [typingUsers]: the other users that are typing, in the order in which
    the map lists its entries; [pmap] holds the own entries of
    [presenceMap], which are what [Object.keys] and [Object.entries] list. *)
Definition typingUsers (userName : option string)
    (pmap : gmap string PresenceInfo) : list string :=
  if Js.truthyOpt userName && negb (bool_decide (map_to_list pmap = []))
  then
    (filter (fun e => Some e.1 <> userName /\ typing e.2 = true)
       (map_to_list pmap)).*1
  else [].

(** *** Seen receipts and the window title *)

(** [updateDoc(ref, { seenBy: arrayUnion(user), seenAt.user: serverTimestamp() })]. *)
Record SeenWrite := mkSeenWrite {
  sw_room : string;
  sw_message : string;
  sw_user : string
}.

(** The seen-receipt effect: the writes it dispatches for the state [a]. *)
Definition markSeenEffect (a : App) : list SeenWrite :=
  match loggedIn (login a), roomId (login a), userName (login a), chatFileId a with
  | true, Some room, Some user, Some chat =>
      if Js.truthy room && Js.truthy user && Js.truthy chat
         && negb (panic a) && tabVisible a
         && bool_decide (activeFileId a = chatFileId a)
      then (fun m => mkSeenWrite room (msg_id m) user)
             <$> filter (fun m => isUnread user m = true) (messages a)
      else []
  | _, _, _, _ => []
  end.

Definition baseTitle : string := "Visual Studio Code".

(** The title effect: [document.title] for the state [a]. *)
Definition documentTitle (a : App) : string :=
  match loggedIn (login a), userName (login a) with
  | true, Some currentUser =>
      if Js.truthy currentUser then
        let unseenCount := unreadCount currentUser (messages a) in
        let shouldBadge :=
          (0 <? unseenCount)
          && (negb (tabVisible a) || panic a
              || negb (bool_decide (activeFileId a = chatFileId a))) in
        if shouldBadge
        then "(" +:+ Js.numToString unseenCount +:+ ") " +:+ baseTitle
        else baseTitle
      else baseTitle
  | _, _ => baseTitle
  end.

(** *** The explorer *)

(** All the nodes of the hierarchy, parents before children. *)
Fixpoint nodesOf (node : FileNode) : list FileNode :=
  node :: match children node with
          | Some cs => flat_map nodesOf cs
          | None => []
          end.

Definition allNodes (nodes : list FileNode) : list FileNode :=
  flat_map nodesOf nodes.

Definition withName (newName : string) (node : FileNode) : FileNode :=
  mkFileNode (node_id node) newName (node_type node) (children node)
    (isChatFile node) (node_content node).

Definition withChildren (cs : list FileNode) (node : FileNode) : FileNode :=
  mkFileNode (node_id node) (name node) (node_type node) (Some cs)
    (isChatFile node) (node_content node).

(** [renameNode], for one node of the [map]. *)
Fixpoint renameInNode (id newName : string) (node : FileNode) : FileNode :=
  if String.eqb (node_id node) id then withName newName node
  else
    match children node with
    | Some cs => withChildren (List.map (renameInNode id newName) cs) node
    | None => node
    end.

Definition renameNode (nodes : list FileNode) (id newName : string)
  : list FileNode :=
  List.map (renameInNode id newName) nodes.

(** [deleteNode], for one node that passed the [filter]; the [filter] and
    the [map] over the children run as one loop. *)
Fixpoint deleteInNode (id : string) (node : FileNode) : FileNode :=
  match children node with
  | Some cs =>
      withChildren
        ((fix keep (nodes : list FileNode) : list FileNode :=
            match nodes with
            | [] => []
            | n :: rest =>
                if negb (String.eqb (node_id n) id)
                then deleteInNode id n :: keep rest
                else keep rest
            end) cs)
        node
  | None => node
  end.

Fixpoint deleteNode (nodes : list FileNode) (id : string) : list FileNode :=
  match nodes with
  | [] => []
  | n :: rest =>
      if negb (String.eqb (node_id n) id)
      then deleteInNode id n :: deleteNode rest id
      else deleteNode rest id
  end.

(** [handleDelete] of the explorer, on the state of [App]. *)
Definition handleDelete (id : string) (a : App) : App :=
  let a' := set_files (deleteNode (files a) id) a in
  if bool_decide (Some id = activeFileId a) then handleSelectFile None a' else a'.

(** *** Vocabulary of the further statements *)

(** The string holds no underscore. *)
Fixpoint noUnderscore (s : string) : bool :=
  match s with
  | EmptyString => true
  | String c r => negb (Ascii.eqb c "_") && noUnderscore r
  end.

(** A node without what is below it. *)
Definition nodeLabel (n : FileNode)
  : string * string * NodeType * bool * option string :=
  (node_id n, name n, node_type n, isChatFile n, node_content n).

(** The hierarchy as the explorer lists it: every node with its depth,
    parents before children. *)
Fixpoint outlineOf (depth : nat) (node : FileNode)
  : list (nat * (string * string * NodeType * bool * option string)) :=
  (depth, nodeLabel node)
    :: match children node with
       | Some cs => flat_map (outlineOf (S depth)) cs
       | None => []
       end.

Definition outline (depth : nat) (nodes : list FileNode)
  : list (nat * (string * string * NodeType * bool * option string)) :=
  flat_map (outlineOf depth) nodes.

(** The nodes that [ensureChatFile] puts the chat file into: the folders
    named [src] or [lib]. *)
Definition hostLabel (l : string * string * NodeType * bool * option string)
  : bool :=
  let '(_, nm, ty, _, _) := l in
  bool_decide (ty = folder) && (String.eqb nm "src" || String.eqb nm "lib").

(** What [findFirstSafeFile] looks for: a file that is not the chat file. *)
Definition safeFile (n : FileNode) : Prop :=
  node_type n = file /\ isChatFile n = false.

#[global] Instance safeFile_dec n : Decision (safeFile n).
Proof. unfold safeFile. apply _. Defined.

(** *** Sample hierarchy *)

Definition sampleTree : list FileNode :=
  [ mkFileNode "1" "app" folder
      (Some [ mkFileNode "2" "main.ts" file None false (Some "x"%string);
              mkFileNode "3" "util" folder
                (Some [mkFileNode "4" "b.ts" file None false (Some "y"%string)])
                false None ])
      false None;
    mkFileNode "5" "README.md" file None false (Some "z"%string) ].

(** A hierarchy in which the first node named [src] is a file; the first
    folder named [src] or [lib] is the second root. *)
Definition sampleSources : list FileNode :=
  [ mkFileNode "1" "docs" folder
      (Some [mkFileNode "2" "src" file None false (Some "a"%string)])
      false None;
    mkFileNode "3" "src" folder
      (Some [mkFileNode "4" "main.ts" file None false (Some "b"%string)])
      false None;
    mkFileNode "5" "lib" folder (Some []) false None ].

(** * Properties *)

(** ** Numbers and strings *)

Lemma isDigit_not_space c : Js.isDigit c = true -> Js.isWhiteSpace c = false.
Proof.
  unfold Js.isDigit, Js.isWhiteSpace. intros H.
  apply andb_true_iff in H as [H1 H2].
  apply N.leb_le in H1. apply N.leb_le in H2.
  apply orb_false_iff. split.
  - apply andb_false_iff. right. apply N.leb_gt. lia.
  - apply N.eqb_neq. lia.
Qed.

(** The decimal digits of a number are digits. *)
Lemma string_of_uint_digits d : digitString (NilEmpty.string_of_uint d).
Proof. induction d; simpl; constructor; auto. Qed.

Lemma takeDigits_digits s : digitString s -> Js.takeDigits s = s.
Proof. induction 1 as [|c r Hc _ IH]; simpl; [done|]. by rewrite Hc, IH. Qed.

Lemma N_to_uint_nonnil n : N.to_uint n <> Decimal.Nil.
Proof. destruct n; simpl; [discriminate | apply Unsigned.to_uint_nonnil]. Qed.

Lemma string_of_uint_truthy n :
  Js.truthy (NilEmpty.string_of_uint (N.to_uint n)) = true.
Proof.
  pose proof (N_to_uint_nonnil n) as H.
  destruct (N.to_uint n); [done | reflexivity ..].
Qed.

Lemma parseDigits_string_of_uint n :
  Js.parseDigits (NilEmpty.string_of_uint (N.to_uint n)) = Some (Z.of_N n).
Proof.
  unfold Js.parseDigits.
  rewrite takeDigits_digits by apply string_of_uint_digits.
  rewrite string_of_uint_truthy, NilEmpty.usu. simpl.
  by rewrite DecimalN.Unsigned.of_to.
Qed.

Lemma digits_head s :
  digitString s ->
  match s with
  | EmptyString => True
  | String c _ => Js.isDigit c = true
  end.
Proof. by destruct 1. Qed.

Lemma trimStart_digits s : digitString s -> Js.trimStart s = s.
Proof.
  destruct 1 as [|c r Hc _]; simpl; [done|].
  by rewrite (isDigit_not_space c Hc).
Qed.

(** [parseInt(String(n), 10)] is [n], which is how the watermark written by
    [clear_local] is read back by the snapshot callback. *)
Lemma parseInt10_numToString n : Js.parseInt10 (Js.numToString n) = Some n.
Proof.
  unfold Js.parseInt10, Js.numToString.
  destruct (Z.ltb_spec n 0) as [Hneg|Hpos].
  - simpl. match goal with |- context [EmptyString +:+ ?x] => change (EmptyString +:+ x) with x end.
    rewrite parseDigits_string_of_uint. simpl. f_equal. lia.
  - pose proof (string_of_uint_digits (N.to_uint (Z.to_N n))) as Hd.
    rewrite trimStart_digits by done.
    pose proof (digits_head _ Hd) as Hh.
    pose proof (parseDigits_string_of_uint (Z.to_N n)) as Hp.
    rewrite Z2N.id in Hp by lia.
    destruct (NilEmpty.string_of_uint (N.to_uint (Z.to_N n))) as [|c r] eqn:E.
    + discriminate Hp.
    + destruct (Ascii.eqb_spec c "-") as [->|_]; [discriminate Hh|].
      destruct (Ascii.eqb_spec c "+") as [->|_]; [discriminate Hh|].
      exact Hp.
Qed.

(** ** Reconciler: watermark *)

Lemma snapshotDocs_app hb xs ys :
  snapshotDocs hb (xs ++ ys) = snapshotDocs hb xs ++ snapshotDocs hb ys.
Proof.
  induction xs as [|d xs IH]; simpl; [done|].
  destruct (hiddenByWatermark hb _); simpl; by rewrite IH.
Qed.

Lemma hiddenByWatermark_pending hb : hiddenByWatermark hb None = false.
Proof. by destruct hb. Qed.

(** A document of the snapshot is shown exactly when its time is pending or
    strictly after the watermark. *)
Lemma snapshotDocs_shows hb snapshot d :
  d ∈ snapshot ->
  hiddenByWatermark hb (toJsDate (raw_createdAt d)) = false ->
  convertDoc d ∈ snapshotDocs hb snapshot.
Proof.
  induction snapshot as [|x xs IH]; intros Hin Hvis; [by apply elem_of_nil in Hin|].
  apply elem_of_cons in Hin as [->|Hin]; simpl.
  - rewrite Hvis. by left.
  - destruct (hiddenByWatermark hb (toJsDate (raw_createdAt x))); [|right]; auto.
Qed.

Lemma snapshotDocs_hides hb snapshot m :
  m ∈ snapshotDocs hb snapshot ->
  exists d, d ∈ snapshot /\ m = convertDoc d
            /\ hiddenByWatermark hb (toJsDate (raw_createdAt d)) = false.
Proof.
  induction snapshot as [|x xs IH]; simpl; intros Hin; [by apply elem_of_nil in Hin|].
  destruct (hiddenByWatermark hb (toJsDate (raw_createdAt x))) eqn:E.
  - destruct (IH Hin) as (d & ? & ? & ?). exists d. split; [by right|done].
  - apply elem_of_cons in Hin as [->|Hin].
    + exists x. split; [by left|done].
    + destruct (IH Hin) as (d & ? & ? & ?). exists d. split; [by right|done].
Qed.

Lemma hiddenByWatermark_spec now t :
  hiddenByWatermark (Some now) (Some t) = false <-> now < t.
Proof. simpl. rewrite Z.leb_gt. lia. Qed.

Lemma keptByClearLocal_spec now m t :
  createdAt m = Some t -> keptByClearLocal now m = true <-> now <= t.
Proof. unfold keptByClearLocal. intros ->. apply Z.leb_le. Qed.

Lemma clearLocalFilter_app now xs ys :
  clearLocalFilter now (xs ++ ys) = clearLocalFilter now xs ++ clearLocalFilter now ys.
Proof. apply filter_app. Qed.

(** The watermark written by [clear_local] is the one that later snapshot
    callbacks of the same room and user read, as long as the storage works. *)
Lemma readHideBefore_after_setItem st room user now :
  throws st = false ->
  readHideBefore
    (orIgnore st (setItem st (hideBeforeKey room user) (Js.numToString now)))
    room user = Some now.
Proof.
  intros Hst. unfold readHideBefore, setItem, getItem. rewrite Hst. cbn.
  rewrite lookup_insert_eq.
  assert (Js.truthy (Js.numToString now) = true) as ->.
  { unfold Js.numToString. destruct (now <? 0); [done|apply string_of_uint_truthy]. }
  apply parseInt10_numToString.
Qed.

(** What a snapshot callback shows once [clear_local] has stored the
    watermark [now]: the documents whose time is pending or strictly after
    [now]. *)
Lemma watermark_snapshot_view st room user now first snapshot m :
  throws st = false ->
  m ∈ (onMessagesSnapshot
         (orIgnore st (setItem st (hideBeforeKey room user) (Js.numToString now)))
         room user first snapshot).2
  <-> exists d, d ∈ snapshot /\ m = convertDoc d
                /\ forall t, createdAt m = Some t -> now < t.
Proof.
  intros Hst. unfold onMessagesSnapshot. cbn [snd].
  rewrite readHideBefore_after_setItem by done. split.
  - intros Hin. apply snapshotDocs_hides in Hin as (d & Hd & -> & Hvis).
    exists d. split; [done|]. split; [done|]. intros t Ht.
    cbn [convertDoc createdAt] in Ht. rewrite Ht in Hvis.
    by apply hiddenByWatermark_spec.
  - intros (d & Hd & -> & Hafter). apply snapshotDocs_shows; [done|].
    cbn [convertDoc createdAt] in Hafter.
    destruct (toJsDate (raw_createdAt d)) as [t|]; [|done].
    apply hiddenByWatermark_spec. by apply Hafter.
Qed.

(** What the local filter of [clear_local] keeps of the cached view: the
    messages whose time is pending or at or after [now]. *)
Lemma watermark_cached_view now prev m :
  m ∈ clearLocalFilter now prev
  <-> m ∈ prev /\ forall t, createdAt m = Some t -> now <= t.
Proof.
  unfold clearLocalFilter. rewrite list_elem_of_filter.
  unfold keptByClearLocal. split.
  - intros [Hk Hin]. split; [done|]. intros t Ht. rewrite Ht in Hk.
    by apply Z.leb_le.
  - intros [Hin Hall]. split; [|done].
    destruct (createdAt m) as [t|]; [|done]. apply Z.leb_le. by apply Hall.
Qed.

(** C9. A message whose [createdAt] is still null is removed neither by the
    hide-before filter of the snapshot callback, whatever the storage holds,
    nor by the local filter of [clear_local], whatever the time: it stays in
    its place in the list. *)
Theorem pending_createdAt_survives_watermark
    (st : Storage) (room user : string) (first : bool)
    (pre post : list MessageDoc) (d : MessageDoc)
    (nowMs : Z) (before after : list ChatMessage) (m : ChatMessage) :
  toJsDate (raw_createdAt d) = None ->
  createdAt m = None ->
  (onMessagesSnapshot st room user first (pre ++ d :: post)).2
    = (onMessagesSnapshot st room user first pre).2
        ++ convertDoc d :: (onMessagesSnapshot st room user first post).2
  /\ clearLocalFilter nowMs (before ++ m :: after)
     = clearLocalFilter nowMs before ++ m :: clearLocalFilter nowMs after.
Proof.
  intros Hd Hm. split.
  - unfold onMessagesSnapshot. cbn [snd]. rewrite snapshotDocs_app. f_equal.
    cbn [snapshotDocs]. by rewrite Hd, hiddenByWatermark_pending.
  - rewrite clearLocalFilter_app. f_equal. unfold clearLocalFilter.
    rewrite filter_cons_True; [done|]. unfold keptByClearLocal. by rewrite Hm.
Qed.

Lemma pending_createdAt_survives_watermark_witness :
  (onMessagesSnapshot workingStorage "room" "alice" true
     ([docAt "a" "bob" (VTimestamp 5)] ++ docAt "b" "bob" VNull :: [])).2
    = (onMessagesSnapshot workingStorage "room" "alice" true
         [docAt "a" "bob" (VTimestamp 5)]).2
        ++ convertDoc (docAt "b" "bob" VNull)
        :: (onMessagesSnapshot workingStorage "room" "alice" true []).2
  /\ clearLocalFilter 10 ([] ++ msgAt "b" "bob" None [] :: [])
     = clearLocalFilter 10 [] ++ msgAt "b" "bob" None [] :: clearLocalFilter 10 [].
Proof.
  apply (pending_createdAt_survives_watermark workingStorage "room" "alice" true
           [docAt "a" "bob" (VTimestamp 5)] [] (docAt "b" "bob" VNull)
           10 [] [] (msgAt "b" "bob" None [])); reflexivity.
Defined.

(** ** Reconciler: re-subscription after [clear_local] *)

(** C1. After [clear_local] at time 1000, the cached message created at
    exactly 1000 stays in the local view (the local filter keeps
    [createdAt >= now]), but once Alice has logged out and in again the
    snapshot callback of the new subscription drops that same message: it
    hides [createdAt <= watermark]. Messages created at 999 and 1001 are
    hidden and shown on both paths. *)
Theorem watermark_boundary_after_resubscribe :
  let feed := [docAt "m0" "bob" (VTimestamp 999);
               docAt "m1" "bob" (VTimestamp 1000);
               docAt "m2" "bob" (VTimestamp 1001)] in
  let cleared := run [MessagesDelivery 0 feed; ClearLocal 1000] aliceApp in
  let resubscribed :=
    run [Logout;
         Login (Some "room"%string) (Some "alice"%string) "chat-2" grantedEnv;
         MessagesDelivery 3 feed] cleared in
  msg_id <$> messages cleared = ["m1"; "m2"]%string
  /\ readHideBefore (localStorage cleared) "room" "alice" = Some 1000
  /\ unsubscribeMessages resubscribed = Some 3%nat
  /\ msg_id <$> messages resubscribed = ["m2"]%string.
Proof. vm_compute. repeat split; reflexivity. Qed.

(** ** Reconciler: the one-shot unread summary *)

Lemma isUnread_spec user m :
  isUnread user m = true <-> sender m <> user /\ user ∉ seenBy m.
Proof.
  unfold isUnread. rewrite andb_true_iff, !negb_true_iff.
  rewrite bool_decide_eq_false, String.eqb_neq. done.
Qed.

Lemma unreadCount_spec user docs :
  unreadCount user docs
  = Z.of_nat (length (filter (fun m => sender m <> user /\ user ∉ seenBy m) docs)).
Proof.
  unfold unreadCount. f_equal. f_equal.
  apply list_filter_iff. intros m. apply isUnread_spec.
Qed.

(** The focus effect touches [activeFileId] only. *)
Lemma panicFocusEffect_frame a :
  let a' := panicFocusEffect a in
  terminalLines a' = terminalLines a /\ listeners a' = listeners a
  /\ localStorage a' = localStorage a /\ messages a' = messages a
  /\ panic a' = panic a /\ login a' = login a /\ chatFileId a' = chatFileId a
  /\ lastActivityRef a' = lastActivityRef a /\ lastHiddenRef a' = lastHiddenRef a
  /\ nextListener a' = nextListener a
  /\ unsubscribeMessages a' = unsubscribeMessages a
  /\ unsubscribePresence a' = unsubscribePresence a
  /\ unsubscribeRings a' = unsubscribeRings a.
Proof. unfold panicFocusEffect. by destruct (_ && _). Qed.

Lemma subscribeToMessages_listener room user a :
  listeners (subscribeToMessages room user a) !! nextListener a
  = Some (mkListener room user (messagesClosure true)).
Proof.
  unfold subscribeToMessages, unsubscribeIfAny.
  destruct (unsubscribeMessages a); cbn; apply lookup_insert_eq.
Qed.

Lemma subscribeToMessages_frame room user a :
  let a' := subscribeToMessages room user a in
  terminalLines a' = terminalLines a /\ localStorage a' = localStorage a
  /\ unsubscribeMessages a' = Some (nextListener a).
Proof.
  unfold subscribeToMessages, unsubscribeIfAny.
  by destruct (unsubscribeMessages a).
Qed.

(** One delivery to a live message listener. *)
Lemma messages_delivery h room user first snapshot a :
  listeners a !! h = Some (mkListener room user (messagesClosure first)) ->
  let a' := step (MessagesDelivery h snapshot) a in
  let docs := snapshotDocs (readHideBefore (localStorage a) room user) snapshot in
  listeners a' !! h = Some (mkListener room user (messagesClosure false))
  /\ localStorage a' = localStorage a
  /\ messages a' = docs
  /\ terminalLines a'
     = terminalLines a ++
         (if first
          then (if 0 <? unreadCount user docs
                then [summaryLine (unreadCount user docs)] else [])
          else []).
Proof.
  intros Hl. unfold step. cbn [handle].
  destruct (panicFocusEffect_frame (messagesCallback h snapshot a))
    as (-> & -> & -> & -> & _).
  unfold messagesCallback. rewrite Hl. cbn.
  by rewrite lookup_insert_eq.
Qed.

(** Deliveries after the first add no line. *)
Lemma later_deliveries_silent h room user rest : forall a,
  listeners a !! h = Some (mkListener room user (messagesClosure false)) ->
  terminalLines (run (MessagesDelivery h <$> rest) a) = terminalLines a.
Proof.
  induction rest as [|s rest IH]; intros a Hl; [done|].
  cbn [fmap list_fmap run foldl].
  destruct (messages_delivery h room user false s a Hl) as (Hl' & _ & _ & Hlines).
  fold (run (MessagesDelivery h <$> rest) (step (MessagesDelivery h s) a)).
  rewrite IH by done. rewrite Hlines. apply app_nil_r.
Qed.

(** C2, as the code has it. For every subscription created by
    [subscribeToMessages], the first snapshot delivered to it counts the
    messages it shows whose sender is not the user and whose [seenBy] lacks
    the user, and appends one summary line when that count is positive and
    none when it is zero; the snapshots delivered to it afterwards append
    nothing, whatever they hold. *)
Theorem first_snapshot_summary_once
    (a : App) (room user : string)
    (s0 : list MessageDoc) (rest : list (list MessageDoc)) :
  let h := nextListener a in
  let a1 := subscribeToMessages room user a in
  let docs := snapshotDocs (readHideBefore (localStorage a) room user) s0 in
  let n := Z.of_nat (length (filter (fun m => sender m <> user /\ user ∉ seenBy m)
                               docs)) in
  unsubscribeMessages a1 = Some h
  /\ terminalLines (step (MessagesDelivery h s0) a1)
     = terminalLines a ++ (if 0 <? n then [summaryLine n] else [])
  /\ terminalLines (run (MessagesDelivery h <$> (s0 :: rest)) a1)
     = terminalLines (step (MessagesDelivery h s0) a1).
Proof.
  intros h a1 docs n.
  destruct (subscribeToMessages_frame room user a) as (Hlines & Hst & Hh).
  pose proof (subscribeToMessages_listener room user a) as Hl.
  destruct (messages_delivery h room user true s0 a1 Hl) as (Hl' & _ & _ & Hfirst).
  split; [exact Hh|]. split.
  - rewrite Hfirst. fold a1 in Hlines, Hst. rewrite Hlines, Hst.
    by rewrite unreadCount_spec.
  - cbn [fmap list_fmap run foldl].
    fold (run (MessagesDelivery h <$> rest) (step (MessagesDelivery h s0) a1)).
    by apply (later_deliveries_silent h room user).
Qed.

(** C2, as stated, fails: the first snapshot of Alice's subscription holds
    one message, her own, so the unread count is zero, and no summary line
    is appended. *)
Lemma first_snapshot_zero_unread_no_summary :
  let a' := step (MessagesDelivery 0 [docAt "m0" "alice" (VTimestamp 5)]) aliceApp in
  unsubscribeMessages aliceApp = Some 0%nat
  /\ msg_id <$> messages a' = ["m0"]%string
  /\ unreadCount "alice" (messages a') = 0
  /\ terminalLines a' = terminalLines aliceApp.
Proof. vm_compute. repeat split; reflexivity. Qed.

(** ** Sending *)

Lemma truthy_true s : Js.truthy s = true <-> s <> EmptyString.
Proof. unfold Js.truthy. rewrite negb_true_iff. apply String.eqb_neq. Qed.

Lemma truthy_false s : Js.truthy s = false <-> s = EmptyString.
Proof. unfold Js.truthy. rewrite negb_false_iff. apply String.eqb_eq. Qed.

Lemma sendMessage_session lg room user text settled :
  activeSession lg room user ->
  sendMessage lg text settled
  = if negb (Js.truthy (Js.trim text)) then mkSendResult [] None None
    else mkSendResult []
           (Some (room,
                  {| f_sender := user;
                     f_content := Js.trim text;
                     f_createdAt := serverTimestamp;
                     f_seenBy := [user];
                     f_seenAt := {[ user := serverTimestamp ]} |}))
           settled.
Proof.
  intros (Hl & Hr & Hu & Hr' & Hu'). unfold sendMessage.
  rewrite Hl, Hr, Hu.
  apply truthy_true in Hr', Hu'. by rewrite Hr', Hu'.
Qed.

Lemma sendMessage_no_session lg text settled :
  (forall room user, ~ activeSession lg room user) ->
  sendMessage lg text settled = notLoggedIn.
Proof.
  intros Hno. unfold sendMessage.
  destruct (loggedIn lg) eqn:Hl; [|done].
  destruct (roomId lg) as [room|] eqn:Hr; [|done].
  destruct (userName lg) as [user|] eqn:Hu; [|done].
  destruct (Js.truthy room) eqn:Hr'; [|done].
  destruct (Js.truthy user) eqn:Hu'; [|done].
  exfalso. apply (Hno room user).
  apply truthy_true in Hr', Hu'. by repeat split.
Qed.

(** C3, as the code has it. [sendMessage] raises no error of its own. With
    no active session it appends the line "error: not logged in" and writes
    nothing, whatever the content. With a session and a content that is
    empty once trimmed it does nothing at all. Otherwise it dispatches
    exactly one write: the trimmed content, sender = self, seenBy = [self],
    seenAt = {self: server time}, and the store's answer is all it can
    throw. The three results differ from one another. *)
Theorem sendMessage_outcomes
    (lg : LoginState) (text : string) (settled : option Rejection) :
  ((forall room user, ~ activeSession lg room user) ->
   sendMessage lg text settled
   = mkSendResult [mkLine "error: not logged in" c_red] None None)
  /\ (forall room user,
        activeSession lg room user ->
        (Js.trim text = EmptyString ->
         sendMessage lg text settled = mkSendResult [] None None)
        /\ (Js.trim text <> EmptyString ->
            let fields :=
              {| f_sender := user;
                 f_content := Js.trim text;
                 f_createdAt := serverTimestamp;
                 f_seenBy := [user];
                 f_seenAt := {[ user := serverTimestamp ]} |} in
            sendMessage lg text settled
            = mkSendResult [] (Some (room, fields)) settled
            /\ forall docId serverTime,
                convertDoc (storedMessage docId serverTime fields)
                = mkChatMessage docId user (Js.trim text) (Some serverTime)
                    [user] {[ user := Some serverTime ]}))
  /\ (forall room fields,
        mkSendResult [mkLine "error: not logged in" c_red] None None
        <> mkSendResult [] None None
        /\ mkSendResult [] (Some (room, fields)) settled
           <> mkSendResult [] None None
        /\ mkSendResult [] (Some (room, fields)) settled
           <> mkSendResult [mkLine "error: not logged in" c_red] None None).
Proof.
  split; [apply sendMessage_no_session|]. split.
  - intros room user Hs. rewrite (sendMessage_session lg room user) by done.
    split.
    + intros ->. reflexivity.
    + intros Hne. apply truthy_true in Hne. rewrite Hne. cbn [negb].
      split; [reflexivity|]. intros docId serverTime.
      unfold convertDoc, storedMessage. cbn.
      by rewrite !map_fmap_singleton.
  - intros room fields. repeat split; discriminate.
Qed.

Lemma sendMessage_outcomes_witness :
  sendMessage noSession "hello" None
  = mkSendResult [mkLine "error: not logged in" c_red] None None
  /\ sendMessage aliceSession "  " None = mkSendResult [] None None
  /\ sendMessage aliceSession " hello " None
     = mkSendResult []
         (Some ("room"%string,
                {| f_sender := "alice";
                   f_content := Js.trim " hello ";
                   f_createdAt := serverTimestamp;
                   f_seenBy := ["alice"%string];
                   f_seenAt := {[ "alice"%string := serverTimestamp ]} |}))
         None.
Proof.
  assert (activeSession aliceSession "room" "alice") as Hs.
  { unfold activeSession, aliceSession. cbn. repeat split; discriminate. }
  split; [|split].
  - apply (proj1 (sendMessage_outcomes noSession "hello" None)).
    intros room user (Hl & _). discriminate Hl.
  - apply (proj1 (proj1 (proj2 (sendMessage_outcomes aliceSession "  " None))
                    "room"%string "alice"%string Hs)).
    reflexivity.
  - apply (proj2 (proj1 (proj2 (sendMessage_outcomes aliceSession " hello " None))
                    "room"%string "alice"%string Hs)).
    vm_compute. discriminate.
Defined.

(** C3, as stated, fails. With a session, a content of blanks makes
    [sendMessage] return without an error, a line or a write, and
    [handleSendChat] then reports "message sent" exactly as it does for a
    message that was really sent; with no session and an empty content the
    only report is "error: not logged in", followed by "message sent". *)
Lemma blank_send_reports_success :
  sendMessage aliceSession "   " None = mkSendResult [] None None
  /\ handleSendChat aliceSession "   " None = ([mkLine "message sent" c_green], None)
  /\ (handleSendChat aliceSession "hello" None).1 = [mkLine "message sent" c_green]
  /\ handleSendChat noSession "   " None
     = ([mkLine "error: not logged in" c_red; mkLine "message sent" c_green], None).
Proof. vm_compute. repeat split; reflexivity. Qed.

(** ** Read markers *)

Lemma existsb_other cu l :
  existsb (fun u => negb (String.eqb u cu)) l = true
  <-> exists u, u ∈ l /\ u <> cu.
Proof.
  rewrite existsb_exists. split; intros (u & Hin & Hne); exists u.
  - apply list_elem_of_In in Hin. apply negb_true_iff, String.eqb_neq in Hne. done.
  - apply list_elem_of_In in Hin. split; [done|].
    by apply negb_true_iff, String.eqb_neq.
Qed.

(** Without a viewer ([currentUser] null or empty) every marker is "#". *)
Lemma buildMarker_no_viewer m :
  buildMarker None m = "#"%string /\ buildMarker (Some EmptyString) m = "#"%string.
Proof. done. Qed.

(** C4. For a viewer (a user name, hence not empty) and any message: when
    the viewer is the author the marker is "##" exactly when [seenBy] holds
    a user other than the author; when the viewer is not the author it is
    "##" exactly when the viewer is in [seenBy]; it is "#" in every other
    case, and the projection into the chat file computes the same marker. *)
Theorem marker_correct (viewer : string) (m : ChatMessage) :
  viewer <> EmptyString ->
  (sender m = viewer ->
   (buildMarker (Some viewer) m = "##"%string
    <-> exists u, u ∈ seenBy m /\ u <> sender m))
  /\ (sender m <> viewer ->
      (buildMarker (Some viewer) m = "##"%string <-> viewer ∈ seenBy m))
  /\ (buildMarker (Some viewer) m <> "##"%string ->
      buildMarker (Some viewer) m = "#"%string)
  /\ chatFileMarker (Some viewer) m = buildMarker (Some viewer) m.
Proof.
  intros Hv. apply truthy_true in Hv.
  unfold buildMarker, chatFileMarker, isOwn. cbv [default from_option id]. cbv zeta.
  rewrite Hv. cbn [negb].
  destruct (decide (sender m = viewer)) as [Heq|Hne].
  - rewrite bool_decide_eq_true_2 by congruence.
    rewrite (proj2 (String.eqb_eq _ _) Heq).
    pose proof (existsb_other viewer (seenBy m)) as Hex.
    destruct (existsb _ (seenBy m)).
    + repeat split; try done.
      intros _. rewrite Heq. by apply Hex.
    + repeat split; try done.
      intros (u & Hu & Hne). rewrite Heq in Hne.
      assert (false = true) by (apply Hex; eauto). done.
  - rewrite bool_decide_eq_false_2 by congruence.
    rewrite (proj2 (String.eqb_neq _ _) Hne).
    destruct (decide (viewer ∈ seenBy m)) as [Hin|Hout].
    + rewrite bool_decide_eq_true_2 by done. repeat split; done.
    + rewrite bool_decide_eq_false_2 by done. repeat split; done.
Qed.

Lemma marker_correct_witness :
  buildMarker (Some "alice"%string) (msgAt "m" "alice" (Some 5) ["alice"%string])
  = "#"%string
  /\ buildMarker (Some "alice"%string)
       (msgAt "m" "alice" (Some 5) ["alice"; "bob"]%string) = "##"%string
  /\ buildMarker (Some "bob"%string)
       (msgAt "m" "alice" (Some 5) ["alice"; "bob"]%string) = "##"%string
  /\ buildMarker (Some "bob"%string) (msgAt "m" "alice" (Some 5) ["alice"%string])
     = "#"%string.
Proof.
  assert ("alice"%string <> EmptyString /\ "bob"%string <> EmptyString)
    as [Ha Hb] by (split; discriminate).
  split; [|split; [|split]].
  - apply (proj1 (proj2 (proj2
             (marker_correct "alice" (msgAt "m" "alice" (Some 5) ["alice"%string]) Ha)))).
    vm_compute. discriminate.
  - apply (proj1 (marker_correct "alice"
                    (msgAt "m" "alice" (Some 5) ["alice"; "bob"]%string) Ha));
      [reflexivity|].
    exists "bob"%string. split; [|discriminate].
    apply list_elem_of_In. cbn. auto.
  - apply (proj1 (proj2 (marker_correct "bob"
                    (msgAt "m" "alice" (Some 5) ["alice"; "bob"]%string) Hb)));
      [discriminate|].
    apply list_elem_of_In. cbn. auto.
  - apply (proj1 (proj2 (proj2
             (marker_correct "bob" (msgAt "m" "alice" (Some 5) ["alice"%string]) Hb)))).
    vm_compute. discriminate.
Defined.

(** ** Ring notifier *)

Lemma ring_fresh_other room currentUser env now d sender :
  ring_sender d = Some sender ->
  sender <> EmptyString -> sender <> currentUser ->
  (forall c, toJsDate (ring_createdAt d) = Some c -> now - c <= 5000) ->
  onRingChange room currentUser env now added d
  = ringAnnounced room env (ring_id d) sender.
Proof.
  intros Hs Hne Hother Hage. unfold onRingChange, ringAnnounced. rewrite Hs.
  apply truthy_true in Hne. rewrite Hne.
  rewrite (proj2 (String.eqb_neq _ _) Hother). cbn [negb orb].
  assert (match toJsDate (ring_createdAt d) with
          | Some c => 5000 <? now - c
          | None => false
          end = false) as ->.
  { destruct (toJsDate (ring_createdAt d)) as [c|]; [|done].
    apply Z.ltb_ge. by apply Hage. }
  by destruct (notificationDefined env), (permissionGranted env),
       (constructorThrows env).
Qed.

(** C7, as the code has it. A newly added ring is deleted with no alert and
    no notice when its sender is missing or empty, or is the observing user,
    or when its age at observation exceeds 5000 ms. Every other newly added
    ring produces, in this order, one system notification (or the fallback
    line when notifications are unavailable, not granted or fail), the
    received line, and its deletion. *)
Theorem ring_event_handling
    (room currentUser : string) (env : NotificationEnv) (now : Z) (d : RingDoc) :
  let quiet :=
    ring_sender d = None \/ ring_sender d = Some EmptyString
    \/ ring_sender d = Some currentUser
    \/ exists c, toJsDate (ring_createdAt d) = Some c /\ 5000 < now - c in
  (quiet ->
   onRingChange room currentUser env now added d
   = [Dispatch (DeleteRing room (ring_id d))])
  /\ (~ quiet ->
      exists sender,
        ring_sender d = Some sender
        /\ onRingChange room currentUser env now added d
           = ringAnnounced room env (ring_id d) sender).
Proof.
  cbn zeta. split.
  - intros [Hs|[Hs|[Hs|(c & Hc & Hage)]]]; unfold onRingChange.
    + by rewrite Hs.
    + by rewrite Hs.
    + rewrite Hs, String.eqb_refl. by rewrite orb_true_r.
    + destruct (ring_sender d) as [s|]; [|done].
      destruct (negb (Js.truthy s) || String.eqb s currentUser); [done|].
      rewrite Hc. by rewrite (proj2 (Z.ltb_lt _ _) Hage).
  - intros Hq. destruct (ring_sender d) as [s|] eqn:Hs; [|tauto].
    exists s. split; [done|].
    apply ring_fresh_other; [done| | |].
    + intros ->. tauto.
    + intros ->. tauto.
    + intros c Hc. destruct (Z.le_gt_cases (now - c) 5000); [done|].
      exfalso. apply Hq. right. right. right. exists c. split; [done|lia].
Qed.

Lemma ring_event_handling_witness :
  onRingChange "room" "alice" grantedEnv 7000 added
    (mkRingDoc "r1" (Some "bob"%string) (VTimestamp 1000))
  = [Dispatch (DeleteRing "room" "r1")]
  /\ exists sender,
       Some "bob"%string = Some sender
       /\ onRingChange "room" "alice" deniedEnv 2000 added
            (mkRingDoc "r2" (Some "bob"%string) (VTimestamp 1000))
          = ringAnnounced "room" deniedEnv "r2" sender.
Proof.
  split.
  - apply (proj1 (ring_event_handling "room" "alice" grantedEnv 7000
                    (mkRingDoc "r1" (Some "bob"%string) (VTimestamp 1000)))).
    right. right. right. exists 1000. split; [reflexivity|reflexivity].
  - apply (proj2 (ring_event_handling "room" "alice" deniedEnv 2000
                    (mkRingDoc "r2" (Some "bob"%string) (VTimestamp 1000)))).
    intros [H|[H|[H|(c & Hc & Hage)]]]; try discriminate H.
    cbn in Hc. injection Hc as <-. vm_compute in Hage. discriminate Hage.
Defined.

(** C7, as stated, fails: a fresh ring (age 0) that carries no sender is not
    from the observing user, yet it is deleted with no alert and no notice. *)
Lemma senderless_ring_deleted_silently :
  onRingChange "room" "alice" grantedEnv 1000 added
    (mkRingDoc "r1" None (VTimestamp 1000))
  = [Dispatch (DeleteRing "room" "r1")].
Proof. reflexivity. Qed.

(** C10. A newly added ring of another user whose [createdAt] is still null
    is never taken for stale: at whatever time it is observed it produces
    the notification (or the fallback line), the received line, and its
    deletion. *)
Theorem pending_ring_always_announced
    (room currentUser : string) (env : NotificationEnv) (now : Z) (d : RingDoc)
    (sender : string) :
  ring_sender d = Some sender ->
  sender <> EmptyString ->
  sender <> currentUser ->
  toJsDate (ring_createdAt d) = None ->
  onRingChange room currentUser env now added d
  = ringAnnounced room env (ring_id d) sender.
Proof.
  intros Hs Hne Hother Hnull. apply ring_fresh_other; try done.
  intros c Hc. congruence.
Qed.

Lemma pending_ring_always_announced_witness :
  onRingChange "room" "alice" grantedEnv 999999999 added
    (mkRingDoc "r1" (Some "bob"%string) VNull)
  = ringAnnounced "room" grantedEnv "r1" "bob".
Proof.
  apply (pending_ring_always_announced "room" "alice" grantedEnv 999999999
           (mkRingDoc "r1" (Some "bob"%string) VNull) "bob");
    [reflexivity | discriminate | discriminate | reflexivity].
Defined.

(** ** Time separators *)

Lemma truthy_app_r s1 s2 : Js.truthy s2 = true -> Js.truthy (s1 +:+ s2) = true.
Proof. by destruct s1. Qed.

Lemma lastBelow_cons_lt i j l :
  (j < i)%nat ->
  lastBelow i (j :: l) = Some (default j (lastBelow i l)).
Proof.
  intros Hlt. unfold lastBelow. rewrite filter_cons_True by done.
  destruct (filter _ l) as [|x xs] eqn:E; [done|].
  rewrite last_cons. by destruct (last (x :: xs)).
Qed.

Lemma lastBelow_cons_ge i j l :
  (i <= j)%nat -> lastBelow i (j :: l) = lastBelow i l.
Proof. intros Hge. unfold lastBelow. rewrite filter_cons_False by lia. done. Qed.

Lemma lastBelow_elem i l j : lastBelow i l = Some j -> j ∈ l /\ (j < i)%nat.
Proof.
  unfold lastBelow. intros H.
  assert (j ∈ filter (fun j => (j < i)%nat) l) as Hin.
  { apply last_Some in H as (l' & ->). apply elem_of_app. right. by left. }
  by apply list_elem_of_filter in Hin as [? ?].
Qed.

Lemma lastBelow_none i l : (forall j, j ∈ l -> (i <= j)%nat) -> lastBelow i l = None.
Proof.
  intros Hall. destruct (lastBelow i l) as [j|] eqn:E; [|done].
  apply lastBelow_elem in E as [Hin Hlt]. apply Hall in Hin. lia.
Qed.

Lemma member_plain {V : Type} (o : gmap string V) (k : string) :
  k ∉ Js.objectPrototypeNames ->
  Js.member o k = match o !! k with
                  | Some v => Js.OwnValue v
                  | None => Js.Undefined
                  end.
Proof.
  intros Hk. unfold Js.member.
  assert (String.eqb k "__proto__" = false) as ->.
  { apply String.eqb_neq. intros ->. apply Hk.
    apply (bool_decide_unpack _). vm_compute. exact I. }
  destruct (o !! k); [done|]. by rewrite bool_decide_eq_false_2.
Qed.

Section ProjectionFacts.

Variables getFullYear getMonth getDate getHours getMinutes : Z -> Z.
Variable now : Z.
Variable currentUser : option string.
Variable replyTarget : option ChatMessage.

(** The viewer's name is not that of a member of [Object.prototype]. *)
Hypothesis viewer_plain :
  forall cu, currentUser = Some cu -> cu ∉ Js.objectPrototypeNames.

Local Abbreviation label :=
  (formatTimeSeparator getFullYear getMonth getDate getHours getMinutes now).
Local Abbreviation hoverText :=
  (buildHoverText getFullYear getMonth getDate getHours getMinutes now
     currentUser).
Local Abbreviation line m :=
  (ChatLine (msg_id m)
     (messageText (buildMarker currentUser m) m)
     (default EmptyString (hoverText m))
     (match replyTarget with
      | Some target =>
          if String.eqb (msg_id target) (msg_id m)
          then Some "// replying to this message"%string
          else None
      | None => None
      end)).
Local Abbreviation renderOpt :=
  (renderLinesFrom getFullYear getMonth getDate getHours getMinutes now
     currentUser replyTarget).
Local Abbreviation render lastTime msgs := (default [] (renderOpt lastTime msgs)).

(** The label of a separator is never empty, so the [if (label)] of the
    loop always pushes the separator. *)
Lemma formatTimeSeparator_truthy d : Js.truthy (label d) = true.
Proof.
  unfold label, formatTimeSeparator, formatTime.
  destruct (_ && _); cbn [default from_option id].
  - by apply truthy_app_r.
  - apply truthy_app_r. apply truthy_app_r. by apply truthy_app_r.
Qed.

(** For such a viewer the hover text of every message is built, so the
    loop throws at no message. *)
Lemma hover_defined m : is_Some (hoverText m).
Proof.
  unfold buildHoverText. destruct currentUser as [cu|] eqn:Hcu; [|by eexists].
  destruct (negb (Js.truthy cu)); [by eexists|].
  destruct (isOwn (Some cu) m).
  - destruct (filter _ _); by eexists.
  - rewrite (member_plain _ _ (viewer_plain cu eq_refl)).
    destruct (seenAt m !! cu); by eexists.
Qed.

Lemma chatLine_defined m :
  chatLine getFullYear getMonth getDate getHours getMinutes now
    currentUser replyTarget m
  = Some (line m).
Proof.
  unfold chatLine. by destruct (hover_defined m) as [h ->].
Qed.

Lemma render_defined msgs : forall lastTime,
  renderOpt lastTime msgs = Some (render lastTime msgs).
Proof.
  induction msgs as [|m rest IH]; intros lastTime; [done|].
  cbn [renderLinesFrom]. rewrite chatLine_defined.
  destruct (createdAt m) as [created|];
    [destruct (separatorDue lastTime created)|];
    cbn [mbind option_bind]; rewrite IH; done.
Qed.

Lemma render_cons lastTime m rest :
  render lastTime (m :: rest)
  = match createdAt m with
    | Some created =>
        if separatorDue lastTime created
        then TimestampLine ("ts-" +:+ msg_id m) ("// --- " +:+ label created +:+ " ---")
               :: line m :: render (Some created) rest
        else line m :: render lastTime rest
    | None => line m :: render lastTime rest
    end.
Proof.
  cbn [renderLinesFrom]. rewrite chatLine_defined.
  destruct (createdAt m) as [created|].
  - fold (label created). rewrite formatTimeSeparator_truthy.
    destruct (separatorDue lastTime created);
      cbn [mbind option_bind]; by rewrite render_defined.
  - cbn [mbind option_bind]. by rewrite render_defined.
Qed.

Lemma seps_cons i0 lastTime m rest :
  separatorIndicesFrom i0 (render lastTime (m :: rest))
  = match createdAt m with
    | Some created =>
        if separatorDue lastTime created
        then i0 :: separatorIndicesFrom (S i0) (render (Some created) rest)
        else separatorIndicesFrom (S i0) (render lastTime rest)
    | None => separatorIndicesFrom (S i0) (render lastTime rest)
    end.
Proof.
  rewrite render_cons. destruct (createdAt m) as [created|]; [|done].
  by destruct (separatorDue lastTime created).
Qed.

Lemma seps_bounds msgs : forall i0 lastTime j,
  j ∈ separatorIndicesFrom i0 (render lastTime msgs) ->
  (i0 <= j < i0 + length msgs)%nat.
Proof.
  induction msgs as [|m rest IH]; intros i0 lastTime j Hin.
  - by apply elem_of_nil in Hin.
  - rewrite seps_cons in Hin. cbn [length].
    destruct (createdAt m) as [created|];
      [destruct (separatorDue lastTime created)|].
    + apply elem_of_cons in Hin as [->|Hin]; [lia|]. apply IH in Hin. lia.
    + apply IH in Hin. lia.
    + apply IH in Hin. lia.
Qed.

(** The separators come in increasing order of position. *)
Lemma seps_increasing msgs : forall i0 lastTime,
  StronglySorted lt (separatorIndicesFrom i0 (render lastTime msgs)).
Proof.
  induction msgs as [|m rest IH]; intros i0 lastTime; [constructor|].
  rewrite seps_cons.
  destruct (createdAt m) as [created|];
    [destruct (separatorDue lastTime created)|]; try apply IH.
  constructor; [apply IH|].
  apply Forall_forall. intros j Hj. apply seps_bounds in Hj. lia.
Qed.

(** The separators of the loop started with anchor [lastTime] at position
    [i0]: message [i] gets one exactly when it has a time that lies an
    hour or more past that of the most recent separator before it, or past
    [lastTime] when there is none. *)
Lemma seps_characterised msgs : forall i0 lastTime i,
  i ∈ separatorIndicesFrom i0 (render lastTime msgs)
  <-> exists m t,
        (i0 <= i)%nat /\ msgs !! (i - i0)%nat = Some m /\ createdAt m = Some t
        /\ match lastBelow i (separatorIndicesFrom i0 (render lastTime msgs)) with
           | Some j =>
               exists mj tj, msgs !! (j - i0)%nat = Some mj
                             /\ createdAt mj = Some tj /\ HOUR_MS <= t - tj
           | None => separatorDue lastTime t = true
           end.
Proof.
  induction msgs as [|m rest IH]; intros i0 lastTime i.
  - split; [intros H; by apply elem_of_nil in H|].
    intros (m & t & _ & H & _). by rewrite lookup_nil in H.
  - rewrite seps_cons.
    assert (forall lt', lastBelow i0 (separatorIndicesFrom (S i0) (render lt' rest))
                        = None) as Hnone0.
    { intros lt'. apply lastBelow_none. intros j Hj. apply seps_bounds in Hj. lia. }
    destruct (decide (i = i0)) as [->|Hne].
    + (* the head message *)
      rewrite Nat.sub_diag. cbn [lookup list_lookup].
      destruct (createdAt m) as [created|] eqn:Hc;
        [destruct (separatorDue lastTime created) eqn:Hdue|].
      * split; [|intros _; by left]. intros _. exists m, created.
        rewrite lastBelow_cons_ge, Hnone0 by lia. done.
      * rewrite Hnone0. split.
        -- intros Hin. apply seps_bounds in Hin. lia.
        -- intros (m' & t & _ & [= <-] & Ht & Hd). congruence.
      * split.
        -- intros Hin. apply seps_bounds in Hin. lia.
        -- intros (m' & t & _ & [= <-] & Ht & _). congruence.
    + destruct (decide (i < i0)%nat) as [Hlt|Hge].
      { split.
        - intros Hin.
          assert (i0 <= i)%nat; [|lia].
          destruct (createdAt m) as [created|];
            [destruct (separatorDue lastTime created)|];
            [apply elem_of_cons in Hin as [->|Hin]; [lia|]|..];
            apply seps_bounds in Hin; lia.
        - intros (? & ? & ? & _). lia. }
      assert (i - i0 = S (i - S i0))%nat as Hidx by lia.
      rewrite Hidx. cbn [lookup list_lookup].
      assert (forall lt' j, lastBelow i (separatorIndicesFrom (S i0) (render lt' rest))
                            = Some j ->
                            (m :: rest) !! (j - i0)%nat = rest !! (j - S i0)%nat)
        as Hshift.
      { intros lt' j Hj. apply lastBelow_elem in Hj as [Hj _].
        apply seps_bounds in Hj.
        replace (j - i0)%nat with (S (j - S i0)) by lia. done. }
      destruct (createdAt m) as [created|] eqn:Hc;
        [destruct (separatorDue lastTime created) eqn:Hdue|].
      * (* a separator at the head: it is the anchor of what follows *)
        rewrite lastBelow_cons_lt by lia.
        rewrite elem_of_cons, (IH (S i0) (Some created) i).
        specialize (Hshift (Some created)).
        destruct (lastBelow i _) as [j|] eqn:Hj; cbn [default from_option id].
        -- rewrite (Hshift j eq_refl). split.
           ++ intros [->|(m' & t & ? & ? & ? & ?)]; [lia|].
              exists m', t. repeat split; try done. lia.
           ++ intros (m' & t & ? & ? & ? & ?). right.
              exists m', t. repeat split; try done. lia.
        -- rewrite Nat.sub_diag. cbn [lookup list_lookup]. split.
           ++ intros [->|(m' & t & ? & ? & ? & Hd)]; [lia|].
              exists m', t. repeat split; try done; [lia|].
              exists m, created. repeat split; try done.
              by apply Z.leb_le.
           ++ intros (m' & t & ? & ? & ? & mj & tj & [= <-] & Htj & Hh). right.
              exists m', t. repeat split; try done; [lia|].
              cbn. apply Z.leb_le. congruence.
      * rewrite (IH (S i0) lastTime i). specialize (Hshift lastTime).
        destruct (lastBelow i _) as [j|] eqn:Hj.
        -- rewrite (Hshift j eq_refl). split;
             intros (m' & t & ? & ? & ? & ?); exists m', t;
             repeat split; try done; lia.
        -- split; intros (m' & t & ? & ? & ? & ?); exists m', t;
             repeat split; try done; lia.
      * rewrite (IH (S i0) lastTime i). specialize (Hshift lastTime).
        destruct (lastBelow i _) as [j|] eqn:Hj.
        -- rewrite (Hshift j eq_refl). split;
             intros (m' & t & ? & ? & ? & ?); exists m', t;
             repeat split; try done; lia.
        -- split; intros (m' & t & ? & ? & ? & ?); exists m', t;
             repeat split; try done; lia.
Qed.

End ProjectionFacts.

(** C5. In the transcript built by the editor, whatever the host's clock and
    calendar, for a viewer whose name is not that of a member of
    [Object.prototype] (for such a name the editor can throw while it builds
    a hover text, and then shows no transcript): the transcript is built,
    and its separators come in increasing order of position; message [i]
    gets a separator exactly when it has a [createdAt] that lies one hour or
    more past the [createdAt] of the message of the most recent separator
    before it, or when it has a [createdAt] and no separator precedes it; so
    the first message with a [createdAt] always gets one; and messages at 0,
    30, 61 and 62 minutes from any origin get separators before positions 0
    and 2 only. *)
Theorem separator_placement
    (getFullYear getMonth getDate getHours getMinutes : Z -> Z) (now : Z)
    (currentUser : option string) (replyTarget : option ChatMessage)
    (msgs : list ChatMessage) :
  (forall cu, currentUser = Some cu -> cu ∉ Js.objectPrototypeNames) ->
  let transcript :=
    renderedLines getFullYear getMonth getDate getHours getMinutes now
      currentUser replyTarget in
  (exists lines,
     transcript msgs = Some lines
     /\ let seps := separatorIndices lines in
        StronglySorted lt seps
        /\ (forall i,
              i ∈ seps
              <-> exists m t,
                    msgs !! i = Some m /\ createdAt m = Some t
                    /\ match lastBelow i seps with
                       | Some j =>
                           exists mj tj,
                             msgs !! j = Some mj /\ createdAt mj = Some tj
                             /\ HOUR_MS <= t - tj
                       | None => True
                       end)
        /\ (forall i m t,
              msgs !! i = Some m -> createdAt m = Some t ->
              (forall j mj, (j < i)%nat -> msgs !! j = Some mj ->
                            createdAt mj = None) ->
              i ∈ seps))
  /\ (forall origin,
        separatorIndices
          <$> transcript [msgAt "a" "alice" (Some origin) [];
                          msgAt "b" "bob" (Some (origin + 30 * 60 * 1000)) [];
                          msgAt "c" "alice" (Some (origin + 61 * 60 * 1000)) [];
                          msgAt "d" "bob" (Some (origin + 62 * 60 * 1000)) []]
        = Some [0; 2]%nat).
Proof.
  intros Hviewer transcript.
  pose proof (render_defined getFullYear getMonth getDate getHours getMinutes now
                currentUser replyTarget Hviewer) as Hdef.
  split.
  - eexists. split; [apply Hdef|]. intros seps.
    assert (forall i,
              i ∈ seps
              <-> exists m t,
                    msgs !! i = Some m /\ createdAt m = Some t
                    /\ match lastBelow i seps with
                       | Some j =>
                           exists mj tj,
                             msgs !! j = Some mj /\ createdAt mj = Some tj
                             /\ HOUR_MS <= t - tj
                       | None => True
                       end) as Hchar.
    { intros i. unfold seps, separatorIndices.
      rewrite seps_characterised by done. rewrite Nat.sub_0_r.
      destruct (lastBelow i _) as [j|].
      - rewrite Nat.sub_0_r. split; intros (m & t & H); exists m, t; intuition lia.
      - split; intros (m & t & H); exists m, t; intuition (try done; lia). }
    split; [by apply seps_increasing|]. split; [exact Hchar|].
    intros i m t Hm Ht Hnone. apply Hchar. exists m, t.
    split; [done|]. split; [done|].
    destruct (lastBelow i seps) as [j|] eqn:Hj; [|done].
    apply lastBelow_elem in Hj as [Hin Hlt].
    apply Hchar in Hin as (mj & tj & Hmj & Htj & _).
    rewrite (Hnone j mj Hlt Hmj) in Htj. discriminate.
  - intros origin. unfold transcript, renderedLines. rewrite Hdef.
    cbn [fmap option_fmap option_map]. f_equal. unfold separatorIndices.
    repeat (rewrite seps_cons by done; cbn [createdAt msgAt separatorDue]).
    replace (origin + 30 * 60 * 1000 - origin) with (30 * 60 * 1000) by lia.
    replace (origin + 61 * 60 * 1000 - origin) with (61 * 60 * 1000) by lia.
    replace (origin + 62 * 60 * 1000 - (origin + 61 * 60 * 1000))
      with (60 * 1000) by lia.
    reflexivity.
Qed.

Lemma separator_placement_witness :
  (exists lines,
     renderedLines (fun _ => 2026) (fun _ => 0) (fun _ => 1) (fun _ => 9)
       (fun _ => 5) 0 (Some "alice"%string) None
       [msgAt "a" "bob" (Some 1000) []; msgAt "b" "bob" (Some 2000) []]
     = Some lines
     /\ 0%nat ∈ separatorIndices lines)
  /\ separatorIndices
       <$> renderedLines (fun _ => 2026) (fun _ => 0) (fun _ => 1) (fun _ => 9)
             (fun _ => 5) 0 (Some "alice"%string) None
             [msgAt "a" "alice" (Some 7) [];
              msgAt "b" "bob" (Some (7 + 30 * 60 * 1000)) [];
              msgAt "c" "alice" (Some (7 + 61 * 60 * 1000)) [];
              msgAt "d" "bob" (Some (7 + 62 * 60 * 1000)) []]
     = Some [0; 2]%nat.
Proof.
  assert (forall cu, Some "alice"%string = Some cu -> cu ∉ Js.objectPrototypeNames)
    as Hviewer.
  { intros cu [= <-]. apply (bool_decide_unpack _). vm_compute. exact I. }
  destruct (separator_placement (fun _ => 2026) (fun _ => 0) (fun _ => 1)
              (fun _ => 9) (fun _ => 5) 0 (Some "alice"%string) None
              [msgAt "a" "bob" (Some 1000) []; msgAt "b" "bob" (Some 2000) []]
              Hviewer)
    as [(lines & Hlines & _ & _ & Hfirst) Horigin].
  split; [|exact (Horigin 7)].
  exists lines. split; [exact Hlines|].
  apply (Hfirst 0%nat (msgAt "a" "bob" (Some 1000) []) 1000).
  - reflexivity.
  - reflexivity.
  - intros j mj Hlt. lia.
Defined.

(** What the restriction on the viewer leaves out: for a viewer named like
    a member of [Object.prototype], one message of another sender whose
    [seenAt] has no entry of that name makes the loop throw, and no
    transcript is rendered. *)
Lemma prototype_named_viewer_no_transcript
    (getFullYear getMonth getDate getHours getMinutes : Z -> Z) (now : Z)
    (cu : string) (replyTarget : option ChatMessage)
    (msgs : list ChatMessage) (m : ChatMessage) :
  cu ∈ Js.objectPrototypeNames ->
  m ∈ msgs -> sender m <> cu -> seenAt m !! cu = None ->
  renderedLines getFullYear getMonth getDate getHours getMinutes now
    (Some cu) replyTarget msgs
  = None.
Proof.
  intros Hcu Hin Hsender Hseen. unfold renderedLines.
  assert (chatLine getFullYear getMonth getDate getHours getMinutes now
            (Some cu) replyTarget m = None) as Hline.
  { unfold chatLine, buildHoverText.
    assert (Js.truthy cu = true) as ->.
    { apply truthy_true. intros ->. revert Hcu.
      apply (bool_decide_unpack _). vm_compute. exact I. }
    unfold isOwn. rewrite bool_decide_eq_false_2 by congruence.
    unfold Js.member. rewrite Hseen, bool_decide_eq_true_2 by done.
    by destruct (String.eqb cu "__proto__"). }
  generalize (@None Z). induction Hin as [m rest|m m' rest Hin IH]; intros lastTime.
  - cbn [renderLinesFrom]. rewrite Hline. by repeat case_match.
  - cbn [renderLinesFrom]. repeat case_match; try done;
      destruct (chatLine _ _ _ _ _ _ _ _ m'); try done;
      cbn [mbind option_bind]; by rewrite IH.
Qed.

(** ** Idle/panic controller *)

Local Abbreviation sessionView a := (loggedIn (login a), panic a, chatFileId a).

Local Ltac break_match :=
  match goal with
  | |- context [match ?x with _ => _ end] => destruct x eqn:?
  end.

Lemma applyRingActions_session acts : forall a,
  sessionView (foldl (fun a act => applyRingAction act a) a acts) = sessionView a.
Proof.
  induction acts as [|act acts IH]; intros a; [done|].
  cbn [foldl]. rewrite IH. by destruct act.
Qed.

Lemma ringsCallback_session h env changes a :
  sessionView (ringsCallback h env changes a) = sessionView a.
Proof.
  unfold ringsCallback. destruct (listeners a !! h) as [l|]; [|done].
  destruct (l_closure l); try done.
  revert a. induction changes as [|[[now type] d] changes IH]; intros a; [done|].
  cbn [foldl]. rewrite IH. apply applyRingActions_session.
Qed.

Lemma messagesCallback_session h snapshot a :
  sessionView (messagesCallback h snapshot a) = sessionView a.
Proof.
  unfold messagesCallback. destruct (listeners a !! h) as [l|]; [|done].
  by destruct (l_closure l).
Qed.

Lemma subscribe_session room user a :
  sessionView (subscribeToMessages room user a) = sessionView a
  /\ sessionView (subscribeToPresence room user a) = sessionView a
  /\ sessionView (subscribeToRings room user a) = sessionView a.
Proof.
  unfold subscribeToMessages, subscribeToPresence, subscribeToRings, unsubscribeIfAny.
  by destruct (unsubscribeMessages a), (unsubscribePresence a), (unsubscribeRings a).
Qed.

Lemma ensureChatFile_session uuid a :
  loggedIn (login (ensureChatFile uuid a)) = loggedIn (login a)
  /\ panic (ensureChatFile uuid a) = panic a.
Proof.
  unfold ensureChatFile. destruct (Js.truthyOpt (chatFileId a)); [done|].
  destruct (insertIntoTree uuid (files a) false) as [newFiles inserted].
  by destruct (Js.truthy uuid).
Qed.

Lemma joinRoom_session room user uuid env a :
  loggedIn (login (joinRoom room user uuid env a)) = loggedIn (login a)
  /\ panic (joinRoom room user uuid env a) = panic a.
Proof.
  unfold joinRoom, requestPermissionIfNeeded.
  destruct (ensureChatFile_session uuid a) as [Hl Hp].
  set (a1 := ensureChatFile uuid a) in *.
  destruct (subscribe_session room user a1) as (H1 & _ & _).
  set (a2 := subscribeToMessages room user a1) in *.
  destruct (subscribe_session room user a2) as (_ & H2 & _).
  set (a3 := subscribeToPresence room user a2) in *.
  destruct (subscribe_session room user a3) as (_ & _ & H3).
  set (a4 := subscribeToRings room user a3) in *.
  assert (loggedIn (login a4) = loggedIn (login a) /\ panic a4 = panic a) as [<- <-].
  { split; congruence. }
  by destruct (_ && _).
Qed.

(** While the chat file exists and panic is off, somebody is logged in:
    panic is switched off by [ncp run] only, which needs a login, and
    [logout] switches it on. *)
Local Ltac guard_done Hinv :=
  cbn;
  first [ exact Hinv
        | done
        | let H1 := fresh in let H2 := fresh in
          intros H1 H2; specialize (Hinv H1 H2); congruence ].

Lemma sessionGuard_step ev a : sessionGuard a -> sessionGuard (step ev a).
Proof.
  unfold sessionGuard, step. intros Hinv.
  destruct (panicFocusEffect_frame (handle ev a))
    as (_ & _ & _ & _ & -> & -> & -> & _).
  destruct ev; cbn [handle].
  - (* login *)
    unfold cmd_login. destruct (loggedIn (login a)) eqn:Hl; [by cbn|].
    destruct rest0 as [room|]; [|cbn; by rewrite Hl].
    destruct (Js.truthy room); [|cbn; by rewrite Hl].
    intros _ _. by rewrite (proj1 (joinRoom_session _ _ _ _ _)).
  - (* auto-login *)
    unfold autoLogin. destruct (loggedIn (login a)) eqn:Hl; [done|].
    repeat break_match;
      try (intros H1 H2; specialize (Hinv H1 H2); congruence).
    intros _ _. by rewrite (proj1 (joinRoom_session _ _ _ _ _)).
  - (* logout *)
    unfold cmd_logout, unsubscribeIfAny. intros _.
    repeat (break_match; try done).
  - (* ncp run *)
    unfold cmd_ncp_run.
    destruct (loggedIn (login a)) eqn:Hl; cbn [negb]; [|cbn; by rewrite Hl].
    repeat (break_match; cbn; try done).
  - by cbn.
  - unfold cmd_clear_local. repeat break_match; guard_done Hinv.
  - unfold cmd_send. repeat break_match; guard_done Hinv.
  - unfold cmd_ring. repeat break_match; guard_done Hinv.
  - by cbn.
  - unfold visHandler. repeat break_match; guard_done Hinv.
  - by cbn.
  - unfold idlePoll. repeat break_match; guard_done Hinv.
  - pose proof (messagesCallback_session handle0 snapshot a) as [= -> -> ->]. done.
  - pose proof (ringsCallback_session handle0 env changes a) as [= -> -> ->]. done.
  - unfold handleSelectFile. repeat break_match; guard_done Hinv.
  - unfold closeTab. repeat break_match; guard_done Hinv.
  - by cbn.
Qed.

Lemma reachable_sessionGuard a : reachable a -> sessionGuard a.
Proof.
  induction 1 as [initialFiles storage now|ev a _ IH].
  - intros H. discriminate H.
  - by apply sessionGuard_step.
Qed.

(** One tick of the idle interval changes nothing but [panic] (and the
    focus), and sets [panic] exactly when somebody is logged in, the chat
    file exists, and the idle or the hidden time has reached five minutes. *)
Lemma idle_tick_effect t a :
  let a' := step (IdleTick t) a in
  login a' = login a /\ chatFileId a' = chatFileId a
  /\ lastActivityRef a' = lastActivityRef a /\ lastHiddenRef a' = lastHiddenRef a
  /\ panic a'
     = panic a
       || (loggedIn (login a) && Js.truthyOpt (chatFileId a)
           && ((IDLE_MS <=? t - lastActivityRef a)
               || match lastHiddenRef a with
                  | Some hidden => IDLE_MS <=? t - hidden
                  | None => false
                  end)).
Proof.
  unfold step. cbn [handle].
  destruct (panicFocusEffect_frame (idlePoll t a))
    as (_ & _ & _ & _ & -> & -> & -> & -> & -> & _).
  unfold idlePoll.
  destruct (loggedIn (login a)), (Js.truthyOpt (chatFileId a)); cbn [negb orb andb];
    try by rewrite orb_false_r.
  destruct (_ || _); cbn [andb]; [|by rewrite orb_false_r].
  destruct (panic a) eqn:Hp; cbn; by rewrite ?Hp.
Qed.

Lemma afterTicks_frame t0 n a :
  login (afterTicks t0 n a) = login a
  /\ chatFileId (afterTicks t0 n a) = chatFileId a
  /\ lastActivityRef (afterTicks t0 n a) = lastActivityRef a
  /\ lastHiddenRef (afterTicks t0 n a) = lastHiddenRef a.
Proof.
  induction n as [|n (IH1 & IH2 & IH3 & IH4)]; [done|]. cbn [afterTicks].
  destruct (idle_tick_effect (tickTime t0 n) (afterTicks t0 n a))
    as (-> & -> & -> & -> & _).
  done.
Qed.

Lemma afterTicks_panic t0 n a :
  loggedIn (login a) = true -> Js.truthyOpt (chatFileId a) = true ->
  panic a = false ->
  panic (afterTicks t0 n a) = true
  <-> exists k, (k < n)%nat
                /\ (lastActivityRef a + IDLE_MS <= tickTime t0 k
                    \/ exists hidden, lastHiddenRef a = Some hidden
                                      /\ hidden + IDLE_MS <= tickTime t0 k).
Proof.
  intros Hl Hc Hp. induction n as [|n IH].
  - cbn. rewrite Hp. split; [done|]. intros (k & Hk & _). lia.
  - cbn [afterTicks].
    destruct (idle_tick_effect (tickTime t0 n) (afterTicks t0 n a))
      as (_ & _ & _ & _ & ->).
    destruct (afterTicks_frame t0 n a) as (-> & -> & -> & ->).
    rewrite Hl, Hc. cbn [andb].
    rewrite orb_true_iff, IH, orb_true_iff, Z.leb_le. split.
    + intros [(k & Hk & Ht)|[Ht|Ht]].
      * exists k. split; [lia|done].
      * exists n. split; [lia|]. left. lia.
      * exists n. split; [lia|]. right.
        destruct (lastHiddenRef a) as [hidden|]; [|done].
        exists hidden. split; [done|]. apply Z.leb_le in Ht. lia.
    + intros (k & Hk & Ht).
      destruct (decide (k = n)) as [->|Hne].
      * right. destruct Ht as [Ht|(hidden & -> & Ht)]; [left; lia|right].
        apply Z.leb_le. lia.
      * left. exists k. split; [lia|done].
Qed.

(** C6. In a state the component can reach, with the chat file present and
    panic off, let the idle interval tick every 30 seconds from [t0] on with
    nothing else happening. After [n] ticks panic is on exactly when one of
    them came five minutes or more after the last activity [T], or five
    minutes or more after the time [H] at which the tab was hidden:
    whichever of the two clocks is older decides. So, unless the tab was
    hidden before the last activity, panic comes with the first tick at or
    after [T + 5 min] and with no earlier one, also when the tab was hidden
    in between; and hidden time alone brings panic, with the first tick at
    or after [H + 5 min] and with no earlier one, only when the tab was
    hidden not after the last activity. *)
Theorem idle_panic_timing (a : App) (t0 : Z) (n : nat) :
  reachable a ->
  panic a = false ->
  Js.truthyOpt (chatFileId a) = true ->
  let T := lastActivityRef a in
  IDLE_MS = 300000 /\ (forall k, tickTime t0 (S k) = tickTime t0 k + 30000)
  /\ (panic (afterTicks t0 n a) = true
      <-> exists k, (k < n)%nat
                    /\ (T + IDLE_MS <= tickTime t0 k
                        \/ exists H, lastHiddenRef a = Some H
                                     /\ H + IDLE_MS <= tickTime t0 k))
  /\ ((forall H, lastHiddenRef a = Some H -> T <= H) ->
      (panic (afterTicks t0 n a) = true
       <-> exists k, (k < n)%nat /\ T + IDLE_MS <= tickTime t0 k))
  /\ (forall H, lastHiddenRef a = Some H -> H <= T ->
      (panic (afterTicks t0 n a) = true
       <-> exists k, (k < n)%nat /\ H + IDLE_MS <= tickTime t0 k)).
Proof.
  intros Hreach Hp Hc T.
  pose proof (reachable_sessionGuard a Hreach Hc Hp) as Hl.
  pose proof (afterTicks_panic t0 n a Hl Hc Hp) as Hmain. fold T in Hmain.
  split; [reflexivity|]. split.
  { intros k. unfold tickTime, CHECK_MS. lia. }
  split; [exact Hmain|]. split.
  - intros Hafter. rewrite Hmain. split.
    + intros (k & Hk & [Ht|(H & HH & Ht)]); exists k; (split; [done|]); [done|].
      specialize (Hafter H HH). lia.
    + intros (k & Hk & Ht). exists k. split; [done|by left].
  - intros H HH Hbefore. rewrite Hmain. split.
    + intros (k & Hk & [Ht|(H' & HH' & Ht)]); exists k; (split; [done|]).
      * lia.
      * congruence.
    + intros (k & Hk & Ht). exists k. split; [done|]. right. by exists H.
Qed.

Lemma idle_panic_timing_witness :
  panic (afterTicks 15000 10 hiddenThenActive) = false
  /\ panic (afterTicks 15000 11 hiddenThenActive) = true.
Proof.
  assert (reachable hiddenThenActive) as Hr
    by (do 3 apply reachable_step; apply reachable_initial).
  assert (lastHiddenRef hiddenThenActive = Some 0) as Hhidden by reflexivity.
  assert (0 <= lastActivityRef hiddenThenActive) as Hbefore by (vm_compute; discriminate).
  split.
  - apply not_true_is_false. intros Hpanic.
    apply (proj2 (proj2 (proj2 (proj2
             (idle_panic_timing hiddenThenActive 15000 10 Hr eq_refl eq_refl))))
             0 Hhidden Hbefore)
      in Hpanic as (k & Hk & Ht).
    unfold tickTime, IDLE_MS, CHECK_MS in Ht. lia.
  - apply (proj2 (proj2 (proj2 (proj2
             (idle_panic_timing hiddenThenActive 15000 11 Hr eq_refl eq_refl))))
             0 Hhidden Hbefore).
    exists 10%nat. split; [lia|]. vm_compute. discriminate.
Defined.

(** With the tab hidden after the last activity, panic does not wait for
    five minutes of hidden time: with the last activity at 0 and the tab
    hidden at 60000, the tick at 300000 sets panic, 60 seconds before
    [H + 5 min]. *)
Lemma hidden_after_activity_panics_early :
  lastActivityRef activeThenHidden = 0
  /\ lastHiddenRef activeThenHidden = Some 60000
  /\ panic activeThenHidden = false
  /\ panic (afterTicks 30000 9 activeThenHidden) = false
  /\ panic (afterTicks 30000 10 activeThenHidden) = true
  /\ tickTime 30000 9 = 300000
  /\ 300000 < 60000 + IDLE_MS.
Proof. vm_compute. repeat split; reflexivity. Qed.

(** ** Subscriptions *)

Local Abbreviation subsView a :=
  (listeners a, nextListener a, unsubscribeMessages a, unsubscribePresence a,
   unsubscribeRings a).

Lemma handleOf_view a a' k :
  subsView a' = subsView a -> handleOf k a' = handleOf k a.
Proof. intros [= Hl Hn Hm Hp Hr]. by destruct k. Qed.

Lemma handlesTracked_view a a' :
  subsView a' = subsView a -> handlesTracked a -> handlesTracked a'.
Proof.
  intros Hview [Hlive Hissued].
  pose proof Hview as [= Hl Hn _ _ _]. split.
  - intros h l. rewrite Hl, (handleOf_view a a') by done. apply Hlive.
  - intros k h. rewrite Hn, (handleOf_view a a') by done. apply Hissued.
Qed.

(** The shape shared by the three [subscribeTo...] functions. *)
Lemma attach_tracked k l a a' :
  l_kind l = k ->
  listeners a'
  = <[nextListener a := l]>
      (match handleOf k a with
       | Some h0 => delete h0 (listeners a)
       | None => listeners a
       end) ->
  nextListener a' = S (nextListener a) ->
  handleOf k a' = Some (nextListener a) ->
  (forall k', k' <> k -> handleOf k' a' = handleOf k' a) ->
  handlesTracked a ->
  handlesTracked a' /\ supersedes k l a a'.
Proof.
  intros Hk Hl Hn Hh Hother [Hlive Hissued].
  assert (forall h l', listeners a' !! h = Some l' ->
            h = nextListener a /\ l' = l
            \/ listeners a !! h = Some l' /\ handleOf k a <> Some h) as Hcases.
  { intros h l'. rewrite Hl. destruct (decide (h = nextListener a)) as [->|Hne].
    - rewrite lookup_insert_eq. intros [= <-]. by left.
    - rewrite lookup_insert_ne by done. intros Hh'. right.
      destruct (handleOf k a) as [h0|]; [|done].
      destruct (decide (h0 = h)) as [->|Hne'].
      + by rewrite lookup_delete_eq in Hh'.
      + rewrite lookup_delete_ne in Hh' by done. split; congruence. }
  split; [split|split; [|split]].
  - intros h l' Hh'.
    destruct (Hcases h l' Hh') as [[-> ->]|(Hold & Hnot)].
    + by rewrite Hk.
    + pose proof (Hlive h l' Hold) as Hkind.
      rewrite Hother; [done|]. intros Heq. rewrite Heq in Hkind. done.
  - intros k' h. rewrite Hn. destruct (decide (k' = k)) as [->|Hne].
    + rewrite Hh. intros [= <-]. lia.
    + rewrite Hother by done. intros Hk'. apply Hissued in Hk'. lia.
  - rewrite Hl. apply lookup_insert_eq.
  - intros h l' Hh' Hkind.
    destruct (Hcases h l' Hh') as [[-> ->]|(Hold & Hnot)]; [done|].
    pose proof (Hlive h l' Hold) as Hkind'. rewrite Hkind in Hkind'. done.
  - intros h0 Hh0. rewrite Hl, Hh0.
    pose proof (Hissued k h0 Hh0).
    rewrite lookup_insert_ne by lia. apply lookup_delete_eq.
Qed.

Lemma subscribeToMessages_tracked room user a :
  handlesTracked a ->
  handlesTracked (subscribeToMessages room user a)
  /\ supersedes messagesStream (mkListener room user (messagesClosure true)) a
       (subscribeToMessages room user a).
Proof.
  apply attach_tracked; unfold subscribeToMessages, unsubscribeIfAny;
    cbn [handleOf]; try by destruct (unsubscribeMessages a).
  intros [] Hk; try done; by destruct (unsubscribeMessages a).
Qed.

Lemma subscribeToPresence_tracked room user a :
  handlesTracked a ->
  handlesTracked (subscribeToPresence room user a)
  /\ supersedes presenceStream (mkListener room user presenceClosure) a
       (subscribeToPresence room user a).
Proof.
  apply attach_tracked; unfold subscribeToPresence, unsubscribeIfAny;
    cbn [handleOf]; try by destruct (unsubscribePresence a).
  intros [] Hk; try done; by destruct (unsubscribePresence a).
Qed.

Lemma subscribeToRings_tracked room user a :
  handlesTracked a ->
  handlesTracked (subscribeToRings room user a)
  /\ supersedes ringsStream (mkListener room user ringsClosure) a
       (subscribeToRings room user a).
Proof.
  apply attach_tracked; unfold subscribeToRings;
    cbn [handleOf]; try by destruct (unsubscribeRings a).
  intros [] Hk; try done; by destruct (unsubscribeRings a).
Qed.

Lemma applyRingActions_subs acts : forall a,
  subsView (foldl (fun a act => applyRingAction act a) a acts) = subsView a.
Proof.
  induction acts as [|act acts IH]; intros a; [done|].
  cbn [foldl]. rewrite IH. by destruct act.
Qed.

Lemma ringsCallback_subs h env changes a :
  subsView (ringsCallback h env changes a) = subsView a.
Proof.
  unfold ringsCallback. destruct (listeners a !! h) as [l|]; [|done].
  destruct (l_closure l); try done.
  revert a. induction changes as [|[[now type] d] changes IH]; intros a; [done|].
  cbn [foldl]. rewrite IH. apply applyRingActions_subs.
Qed.

Lemma ensureChatFile_subs uuid a : subsView (ensureChatFile uuid a) = subsView a.
Proof.
  unfold ensureChatFile. destruct (Js.truthyOpt (chatFileId a)); [done|].
  destruct (insertIntoTree uuid (files a) false) as [newFiles inserted].
  by destruct (Js.truthy uuid).
Qed.

Lemma joinRoom_tracked room user uuid env a :
  handlesTracked a -> handlesTracked (joinRoom room user uuid env a).
Proof.
  intros Hinv. unfold joinRoom.
  apply (handlesTracked_view _ _ (ensureChatFile_subs uuid a)) in Hinv.
  generalize dependent (ensureChatFile uuid a). intros a1 Hinv.
  apply (subscribeToMessages_tracked room user) in Hinv as [Hinv _].
  generalize dependent (subscribeToMessages room user a1). intros a2 Hinv.
  apply (subscribeToPresence_tracked room user) in Hinv as [Hinv _].
  generalize dependent (subscribeToPresence room user a2). intros a3 Hinv.
  apply (subscribeToRings_tracked room user) in Hinv as [Hinv _].
  generalize dependent (subscribeToRings room user a3). intros a4 Hinv.
  apply (handlesTracked_view a4); [|done].
  unfold requestPermissionIfNeeded. by destruct (_ && _).
Qed.

Lemma unsubscribe_tracked h0 a : handlesTracked a -> handlesTracked (unsubscribe h0 a).
Proof.
  intros [Hlive Hissued]. split; [|exact Hissued].
  intros h l. unfold unsubscribe. cbn.
  destruct (decide (h0 = h)) as [->|Hne].
  - by rewrite lookup_delete_eq.
  - rewrite lookup_delete_ne by done. apply Hlive.
Qed.

Lemma messagesCallback_tracked h snapshot a :
  handlesTracked a -> handlesTracked (messagesCallback h snapshot a).
Proof.
  intros [Hlive Hissued]. unfold messagesCallback.
  destruct (listeners a !! h) as [l|] eqn:Hl; [|done].
  destruct (l_closure l) as [first| |] eqn:Hc; try done.
  split; [|exact Hissued]. intros h' l'. cbn.
  destruct (decide (h = h')) as [->|Hne].
  - rewrite lookup_insert_eq. intros [= <-].
    pose proof (Hlive h' l Hl) as Hk. unfold l_kind in *. by rewrite Hc in Hk.
  - rewrite lookup_insert_ne by done. apply Hlive.
Qed.

Lemma handlesTracked_step ev a : handlesTracked a -> handlesTracked (step ev a).
Proof.
  intros Hinv. unfold step.
  eapply handlesTracked_view.
  { destruct (panicFocusEffect_frame (handle ev a))
      as (_ & -> & _ & _ & _ & _ & _ & _ & _ & -> & -> & -> & ->). reflexivity. }
  destruct ev; cbn [handle].
  - unfold cmd_login. destruct (loggedIn (login a)); [done|].
    destruct rest0 as [room|]; [|done]. destruct (Js.truthy room); [|done].
    by apply joinRoom_tracked.
  - unfold autoLogin. repeat break_match; try done. by apply joinRoom_tracked.
  - unfold cmd_logout.
    eapply handlesTracked_view; [reflexivity|]. cbn.
    unfold unsubscribeIfAny.
    assert (forall a0, subsView a0 = subsView a -> handlesTracked a0) as Hview.
    { intros a0 Ha0. by apply (handlesTracked_view a). }
    repeat break_match;
      repeat (apply unsubscribe_tracked); apply Hview; reflexivity.
  - unfold cmd_ncp_run. repeat break_match; done.
  - done.
  - unfold cmd_clear_local. repeat break_match; done.
  - unfold cmd_send. repeat break_match; done.
  - unfold cmd_ring. repeat break_match; done.
  - done.
  - unfold visHandler. repeat break_match; done.
  - done.
  - unfold idlePoll. repeat break_match; done.
  - by apply messagesCallback_tracked.
  - by apply (handlesTracked_view _ _ (ringsCallback_subs _ _ _ _)).
  - unfold handleSelectFile. repeat break_match; done.
  - unfold closeTab. repeat break_match; done.
  - done.
Qed.

Lemma reachable_handlesTracked a : reachable a -> handlesTracked a.
Proof.
  induction 1 as [initialFiles storage now|ev a _ IH].
  - split.
    + intros h l H. cbn in H. by rewrite lookup_empty in H.
    + intros [] h H; discriminate H.
  - by apply handlesTracked_step.
Qed.

(** A delivery addressed to a listener that the store no longer holds
    leaves the component as it is. *)
Lemma dead_listener_inert h snapshot env changes a :
  listeners a !! h = None ->
  messagesCallback h snapshot a = a /\ ringsCallback h env changes a = a.
Proof. intros Hdead. unfold messagesCallback, ringsCallback. by rewrite Hdead. Qed.

(** C8. In every state the component can reach, the store holds at most one
    listener per stream kind. Attaching with [subscribeToMessages],
    [subscribeToPresence] or [subscribeToRings] first drops the listener
    that [App] held for that kind, so that afterwards the new listener is the
    only live one of its kind and the superseded one is gone; and what is
    delivered to a listener that is gone changes nothing. *)
Theorem one_live_subscription_per_stream (a : App) (room user : string) :
  reachable a ->
  (forall h1 h2 l1 l2,
     listeners a !! h1 = Some l1 -> listeners a !! h2 = Some l2 ->
     l_kind l1 = l_kind l2 -> h1 = h2)
  /\ supersedes messagesStream (mkListener room user (messagesClosure true)) a
       (subscribeToMessages room user a)
  /\ supersedes presenceStream (mkListener room user presenceClosure) a
       (subscribeToPresence room user a)
  /\ supersedes ringsStream (mkListener room user ringsClosure) a
       (subscribeToRings room user a)
  /\ (forall (b : App) h snapshot env changes,
        listeners b !! h = None ->
        messagesCallback h snapshot b = b /\ ringsCallback h env changes b = b).
Proof.
  intros Hreach. pose proof (reachable_handlesTracked a Hreach) as Hinv.
  split; [|split; [|split; [|split]]].
  - intros h1 h2 l1 l2 H1 H2 Hk. destruct Hinv as [Hlive _].
    apply Hlive in H1, H2. rewrite Hk in H1. congruence.
  - by apply subscribeToMessages_tracked.
  - by apply subscribeToPresence_tracked.
  - by apply subscribeToRings_tracked.
  - intros b h snapshot env changes. apply dead_listener_inert.
Qed.

Lemma one_live_subscription_per_stream_witness :
  listeners (subscribeToMessages "room" "bob" aliceApp) !! 0%nat = None
  /\ listeners (subscribeToMessages "room" "bob" aliceApp) !! 3%nat
     = Some (mkListener "room" "bob" (messagesClosure true)).
Proof.
  assert (reachable aliceApp) as Hr by (apply reachable_step, reachable_initial).
  destruct (proj1 (proj2 (one_live_subscription_per_stream aliceApp "room" "bob" Hr)))
    as (Hnew & _ & Hold).
  split.
  - apply Hold. reflexivity.
  - exact Hnew.
Defined.

(** * Further properties *)

(** ** Trimming *)

Local Arguments Js.isWhiteSpace : simpl never.
Local Arguments Js.truthy : simpl never.

Lemma rev_app_list s1 s2 :
  String.list_ascii_of_string (String.rev_app s1 s2)
  = rev_append (String.list_ascii_of_string s1) (String.list_ascii_of_string s2).
Proof. revert s2. induction s1 as [|c r IH]; intros s2; cbn; [done|]. by rewrite IH. Qed.

Lemma rev_list s :
  String.list_ascii_of_string (String.rev s) = rev (String.list_ascii_of_string s).
Proof. unfold String.rev. rewrite rev_app_list. cbn. by rewrite rev_append_rev, app_nil_r. Qed.

Lemma rev_involutive_string s : String.rev (String.rev s) = s.
Proof.
  rewrite <- (String.string_of_list_ascii_of_string (String.rev (String.rev s))).
  rewrite !rev_list, rev_involutive. apply String.string_of_list_ascii_of_string.
Qed.

Lemma app_list a b :
  String.list_ascii_of_string (a +:+ b)
  = String.list_ascii_of_string a ++ String.list_ascii_of_string b.
Proof. induction a as [|x a IH]; simpl; [done|]. by rewrite IH. Qed.

Lemma rev_cons_string c r :
  String.rev (String c r) = String.rev r +:+ String c EmptyString.
Proof.
  rewrite <- (String.string_of_list_ascii_of_string (String.rev (String c r))).
  rewrite <- (String.string_of_list_ascii_of_string (String.rev r +:+ String c EmptyString)).
  f_equal. by rewrite app_list, !rev_list.
Qed.

Lemma rev_snoc_string s c :
  String.rev (s +:+ String c EmptyString) = String c (String.rev s).
Proof.
  rewrite <- (rev_involutive_string (String c (String.rev s))).
  by rewrite rev_cons_string, rev_involutive_string.
Qed.

Lemma trimStart_snoc s c :
  Js.isWhiteSpace c = false ->
  Js.trimStart (s +:+ String c EmptyString) = Js.trimStart s +:+ String c EmptyString.
Proof.
  intros Hc. induction s as [|x s IH]; simpl; [by rewrite Hc|].
  by destruct (Js.isWhiteSpace x).
Qed.

Lemma trimStart_snoc_space s c :
  Js.isWhiteSpace c = true ->
  Js.trimStart (s +:+ String c EmptyString)
  = if Js.truthy (Js.trimStart s) then Js.trimStart s +:+ String c EmptyString
    else EmptyString.
Proof.
  intros Hc. induction s as [|x s IH]; simpl; [by rewrite Hc|].
  destruct (Js.isWhiteSpace x); [done|]. reflexivity.
Qed.

(** [trimEnd], read from the front of the string. *)
Lemma rev_truthy s : Js.truthy (String.rev s) = Js.truthy s.
Proof.
  destruct s as [|c r]; [done|]. rewrite rev_cons_string.
  by destruct (String.rev r).
Qed.

Lemma trimEnd_cons c r :
  Js.trimEnd (String c r)
  = if Js.isWhiteSpace c && negb (Js.truthy (Js.trimEnd r)) then EmptyString
    else String c (Js.trimEnd r).
Proof.
  unfold Js.trimEnd. rewrite rev_cons_string, rev_truthy.
  destruct (Js.isWhiteSpace c) eqn:Hc.
  - rewrite trimStart_snoc_space by done.
    destruct (Js.truthy (Js.trimStart (String.rev r))); cbn [negb andb]; [|done].
    by rewrite rev_snoc_string.
  - cbn [andb]. rewrite trimStart_snoc by done. by rewrite rev_snoc_string.
Qed.

Lemma trimEnd_empty : Js.trimEnd EmptyString = EmptyString.
Proof. reflexivity. Qed.

Lemma trimEnd_idem s : Js.trimEnd (Js.trimEnd s) = Js.trimEnd s.
Proof.
  induction s as [|c r IH]; [done|]. rewrite trimEnd_cons.
  destruct (Js.isWhiteSpace c && negb (Js.truthy (Js.trimEnd r))) eqn:E; [done|].
  by rewrite trimEnd_cons, IH, E.
Qed.

Lemma trimStart_shape s :
  match Js.trimStart s with
  | EmptyString => True
  | String c _ => Js.isWhiteSpace c = false
  end.
Proof.
  induction s as [|c r IH]; cbn; [done|].
  destruct (Js.isWhiteSpace c) eqn:E; [done|]. done.
Qed.

Lemma trimStart_idem s : Js.trimStart (Js.trimStart s) = Js.trimStart s.
Proof.
  pose proof (trimStart_shape s) as H.
  destruct (Js.trimStart s) as [|c r]; cbn; [done|]. by rewrite H.
Qed.

Lemma trim_shape s :
  match Js.trim s with
  | EmptyString => True
  | String c _ => Js.isWhiteSpace c = false
  end.
Proof.
  unfold Js.trim. pose proof (trimStart_shape s) as H.
  destruct (Js.trimStart s) as [|c r]; [done|].
  rewrite trimEnd_cons, H. cbn [andb]. done.
Qed.

Lemma trimStart_trimEnd s : Js.trimStart (Js.trimEnd (Js.trimStart s)) = Js.trimEnd (Js.trimStart s).
Proof.
  pose proof (trim_shape s) as H. unfold Js.trim in H.
  destruct (Js.trimEnd (Js.trimStart s)) as [|c r]; cbn; [done|]. by rewrite H.
Qed.

Lemma trim_idem s : Js.trim (Js.trim s) = Js.trim s.
Proof. unfold Js.trim. by rewrite trimStart_trimEnd, trimEnd_idem. Qed.

(** ** Watermarks in local storage *)

Lemma snapshotDocs_none snapshot : snapshotDocs None snapshot = convertDoc <$> snapshot.
Proof. induction snapshot as [|d rest IH]; cbn; [done|]. by rewrite IH. Qed.

Lemma snapshotDocs_filter hb snapshot :
  snapshotDocs hb snapshot
  = convertDoc <$> filter (fun d => hiddenByWatermark hb (toJsDate (raw_createdAt d)) = false)
                     snapshot.
Proof.
  induction snapshot as [|d rest IH]; [done|]. cbn [snapshotDocs].
  destruct (hiddenByWatermark hb (toJsDate (raw_createdAt d))) eqn:E.
  - by rewrite filter_cons_False by congruence.
  - rewrite filter_cons_True by done. cbn. by rewrite IH.
Qed.

Lemma cmd_clear_local_session a room user now :
  activeSession (login a) room user ->
  cmd_clear_local now a
  = appendTerminalLine "local chat history cleared (server copy still exists)" c_green
      (set_messages (clearLocalFilter now (messages a))
         (set_localStorage
            (orIgnore (localStorage a)
               (setItem (localStorage a) (hideBeforeKey room user)
                  (Js.numToString now))) a)).
Proof.
  intros (Hl & Hr & Hu & Hr' & Hu'). unfold cmd_clear_local.
  rewrite Hl, Hr, Hu. apply truthy_true in Hr', Hu'. by rewrite Hr', Hu'.
Qed.

(** X1. With an active session and a working local storage, the watermark
    that [clear_local] stores at [now] is read back by the snapshot callback
    of the same room and user as exactly [now], and the local view is
    filtered at [now]. *)
Theorem clear_local_watermark_round_trip (a : App) (room user : string) (now : Z) :
  activeSession (login a) room user ->
  throws (localStorage a) = false ->
  readHideBefore (localStorage (cmd_clear_local now a)) room user = Some now
  /\ messages (cmd_clear_local now a) = clearLocalFilter now (messages a).
Proof.
  intros Hs Hst. rewrite (cmd_clear_local_session a room user) by done. cbn.
  split; [|done]. by apply readHideBefore_after_setItem.
Qed.

Lemma clear_local_watermark_round_trip_witness :
  readHideBefore (localStorage (cmd_clear_local 1700000000000 aliceApp)) "room" "alice"
  = Some 1700000000000
  /\ messages (cmd_clear_local 1700000000000 aliceApp)
     = clearLocalFilter 1700000000000 (messages aliceApp).
Proof.
  apply (clear_local_watermark_round_trip aliceApp "room" "alice" 1700000000000).
  - unfold activeSession. cbn. repeat split; discriminate.
  - reflexivity.
Defined.

(** X2. When no watermark can be read (the storage throws, the key is
    absent, or its value does not start with a number, the empty string
    included), the snapshot callback shows every document of the snapshot,
    in the snapshot's order. *)
Theorem snapshot_without_watermark
    (st : Storage) (room user : string) (first : bool) (snapshot : list MessageDoc) :
  throws st = true
  \/ items st !! hideBeforeKey room user = None
  \/ (exists v, items st !! hideBeforeKey room user = Some v
                /\ Js.parseInt10 v = None) ->
  (onMessagesSnapshot st room user first snapshot).2 = convertDoc <$> snapshot.
Proof.
  intros H. unfold onMessagesSnapshot. cbn [snd].
  assert (readHideBefore st room user = None) as ->; [|apply snapshotDocs_none].
  unfold readHideBefore, getItem.
  destruct H as [->|[H|(v & Hv & Hp)]]; [done| |].
  - destruct (throws st); [done|]. by rewrite H.
  - destruct (throws st); [done|]. rewrite Hv, Hp. by destruct (Js.truthy v).
Qed.

Lemma snapshot_without_watermark_witness :
  (onMessagesSnapshot (mkStorage {[ hideBeforeKey "room" "alice" := "soon"%string ]} false)
     "room" "alice" true [docAt "m0" "bob" (VTimestamp 5)]).2
  = convertDoc <$> [docAt "m0" "bob" (VTimestamp 5)].
Proof.
  apply snapshot_without_watermark. right. right. exists "soon"%string.
  split; reflexivity.
Defined.

(** X3. Whatever the storage holds, the view built from a snapshot is an
    order-preserving selection of it: the ids shown are a subsequence of the
    ids of the snapshot, so nothing is reordered, repeated or invented. *)
Theorem snapshot_view_is_subsequence
    (st : Storage) (room user : string) (first : bool) (snapshot : list MessageDoc) :
  msg_id <$> (onMessagesSnapshot st room user first snapshot).2
  `sublist_of` doc_id <$> snapshot.
Proof.
  unfold onMessagesSnapshot. cbn [snd]. rewrite snapshotDocs_filter.
  rewrite <- list_fmap_compose.
  change (msg_id ∘ convertDoc) with doc_id.
  apply fmap_sublist, sublist_filter.
Qed.

(** X4. Clearing the local view at [n1] and then at [n2] leaves what one
    clearing at the later of the two times leaves. *)
Theorem clear_local_twice (n1 n2 : Z) (prev : list ChatMessage) :
  clearLocalFilter n2 (clearLocalFilter n1 prev) = clearLocalFilter (Z.max n1 n2) prev.
Proof.
  unfold clearLocalFilter. rewrite list_filter_filter. apply list_filter_iff.
  intros m. unfold keptByClearLocal. destruct (createdAt m) as [c|]; [|done].
  rewrite !Z.leb_le. lia.
Qed.

(** ** Keys of the watermarks *)

Lemma hideBeforeKey_inj_aux r1 : forall r2 u1 u2,
  noUnderscore r1 = true -> noUnderscore r2 = true ->
  r1 +:+ "_" +:+ u1 = r2 +:+ "_" +:+ u2 -> r1 = r2 /\ u1 = u2.
Proof.
  induction r1 as [|c r1 IH]; intros [|d r2] u1 u2 H1 H2 Heq; simpl in *.
  - by injection Heq.
  - injection Heq as <- _. apply andb_true_iff in H2 as [H2 _]. done.
  - injection Heq as -> _. apply andb_true_iff in H1 as [H1 _]. done.
  - injection Heq as -> Heq. apply andb_true_iff in H1 as [_ H1].
    apply andb_true_iff in H2 as [_ H2].
    destruct (IH r2 u1 u2 H1 H2 Heq) as [-> ->]. done.
Qed.

Lemma hideBeforeKey_not_identity room user : hideBeforeKey room user <> IDENTITY_KEY.
Proof. unfold hideBeforeKey, IDENTITY_KEY. simpl. discriminate. Qed.

Lemma readHideBefore_other_key st key value room user :
  key <> hideBeforeKey room user ->
  readHideBefore (orIgnore st (setItem st key value)) room user
  = readHideBefore st room user
  /\ readHideBefore (orIgnore st (removeItem st key)) room user
     = readHideBefore st room user.
Proof.
  intros Hne. unfold readHideBefore, getItem, setItem, removeItem.
  destruct (throws st) eqn:Hst; cbn; rewrite ?Hst; [done|]. cbn.
  by rewrite lookup_insert_ne, lookup_delete_ne.
Qed.

(** X5. The watermarks of two identities live under different keys, and
    are therefore independent, whenever the two room ids hold no underscore;
    [clear_local] for one identity leaves the watermark of every identity
    with another key as it was. Room ids with underscores can share a key:
    room [a_b] with user [c] and room [a] with user [b_c] do. *)
Theorem watermarks_independent
    (a : App) (room user room' user' : string) (now : Z) :
  activeSession (login a) room user ->
  (hideBeforeKey room user <> hideBeforeKey room' user' ->
   readHideBefore (localStorage (cmd_clear_local now a)) room' user'
   = readHideBefore (localStorage a) room' user')
  /\ (noUnderscore room = true -> noUnderscore room' = true ->
      (room, user) <> (room', user') ->
      hideBeforeKey room user <> hideBeforeKey room' user')
  /\ hideBeforeKey "a_b" "c" = hideBeforeKey "a" "b_c".
Proof.
  intros Hs. split; [|split; [|reflexivity]].
  - intros Hne. rewrite (cmd_clear_local_session a room user) by done. cbn.
    by apply readHideBefore_other_key.
  - intros H1 H2 Hne Heq. apply Hne. unfold hideBeforeKey in Heq.
    apply String.app_inj in Heq.
    destruct (hideBeforeKey_inj_aux room room' user user' H1 H2 Heq) as [-> ->].
    done.
Qed.

Lemma watermarks_independent_witness :
  readHideBefore (localStorage (cmd_clear_local 5 aliceApp)) "room" "bob"
  = readHideBefore (localStorage aliceApp) "room" "bob".
Proof.
  assert (activeSession (login aliceApp) "room" "alice") as Hs.
  { unfold activeSession. cbn. repeat split; discriminate. }
  destruct (watermarks_independent aliceApp "room" "alice" "room" "bob" 5 Hs)
    as (Hkeep & Hkeys & _).
  apply Hkeep, Hkeys; [reflexivity | reflexivity | discriminate].
Defined.

Lemma applyRingActions_storage acts : forall a,
  localStorage (foldl (fun a act => applyRingAction act a) a acts) = localStorage a.
Proof.
  induction acts as [|act acts IH]; intros a; [done|].
  cbn [foldl]. rewrite IH. by destruct act.
Qed.

Lemma ringsCallback_storage h env changes a :
  localStorage (ringsCallback h env changes a) = localStorage a.
Proof.
  unfold ringsCallback. destruct (listeners a !! h) as [l|]; [|done].
  destruct (l_closure l); try done.
  revert a. induction changes as [|[[now type] d] changes IH]; intros a; [done|].
  cbn [foldl]. rewrite IH. apply applyRingActions_storage.
Qed.

Lemma messagesCallback_storage h snapshot a :
  localStorage (messagesCallback h snapshot a) = localStorage a.
Proof.
  unfold messagesCallback. destruct (listeners a !! h) as [l|]; [|done].
  by destruct (l_closure l).
Qed.

Lemma joinRoom_storage room user uuid env a :
  localStorage (joinRoom room user uuid env a) = localStorage a.
Proof.
  unfold joinRoom, requestPermissionIfNeeded.
  assert (forall b, localStorage (ensureChatFile uuid b) = localStorage b) as He.
  { intros b. unfold ensureChatFile. destruct (Js.truthyOpt (chatFileId b)); [done|].
    destruct (insertIntoTree uuid (files b) false) as [newFiles inserted].
    by destruct (Js.truthy uuid). }
  assert (forall b, localStorage (subscribeToMessages room user b) = localStorage b) as Hm.
  { intros b. unfold subscribeToMessages, unsubscribeIfAny.
    by destruct (unsubscribeMessages b). }
  assert (forall b, localStorage (subscribeToPresence room user b) = localStorage b) as Hp.
  { intros b. unfold subscribeToPresence, unsubscribeIfAny.
    by destruct (unsubscribePresence b). }
  assert (forall b, localStorage (subscribeToRings room user b) = localStorage b) as Hr.
  { intros b. unfold subscribeToRings. by destruct (unsubscribeRings b). }
  transitivity
    (localStorage
       (subscribeToRings room user
          (subscribeToPresence room user
             (subscribeToMessages room user (ensureChatFile uuid a))))).
  - generalize (subscribeToRings room user
                  (subscribeToPresence room user
                     (subscribeToMessages room user (ensureChatFile uuid a)))).
    intros b. by destruct (_ && _).
  - by rewrite Hr, Hp, Hm, He.
Qed.

(** X6. No event but [clear_local] changes a watermark: logging in or out,
    which write and remove the stored identity, and every other command,
    browser event and delivery leave the watermark of every room and user
    as it was, so a watermark outlives the session that set it. *)
Theorem watermark_changed_only_by_clear_local
    (ev : Event) (a : App) (room user : string) :
  (forall nowMs, ev <> ClearLocal nowMs) ->
  readHideBefore (localStorage (step ev a)) room user
  = readHideBefore (localStorage a) room user.
Proof.
  intros Hev. unfold step.
  destruct (panicFocusEffect_frame (handle ev a)) as (_ & _ & -> & _).
  pose proof (hideBeforeKey_not_identity room user) as Hkey.
  assert (IDENTITY_KEY <> hideBeforeKey room user) as Hkey' by congruence.
  destruct ev; cbn [handle].
  - unfold cmd_login. destruct (loggedIn (login a)); [done|].
    destruct rest0 as [r|]; [|done]. destruct (Js.truthy r); [|done].
    rewrite joinRoom_storage. cbn.
    by apply readHideBefore_other_key.
  - unfold autoLogin. repeat break_match; try done. by rewrite joinRoom_storage.
  - unfold cmd_logout, unsubscribeIfAny.
    assert (forall b, localStorage b = localStorage a ->
              readHideBefore
                (localStorage
                   (appendTerminalLine "logged out. chat file hidden" c_green
                      (set_localStorage
                         (orIgnore (localStorage b) (removeItem (localStorage b) IDENTITY_KEY))
                         b))) room user
              = readHideBefore (localStorage a) room user) as Hfin.
    { intros b Hb. cbn. rewrite Hb. by apply readHideBefore_other_key. }
    repeat break_match; apply Hfin; reflexivity.
  - unfold cmd_ncp_run. by repeat break_match.
  - done.
  - by destruct (Hev nowMs).
  - unfold cmd_send. by repeat break_match.
  - unfold cmd_ring. by repeat break_match.
  - done.
  - unfold visHandler. by repeat break_match.
  - done.
  - unfold idlePoll. by repeat break_match.
  - by rewrite messagesCallback_storage.
  - by rewrite ringsCallback_storage.
  - unfold handleSelectFile. by repeat break_match.
  - unfold closeTab. by repeat break_match.
  - done.
Qed.

Lemma watermark_changed_only_by_clear_local_witness :
  readHideBefore (localStorage (step Logout (step (ClearLocal 7) aliceApp))) "room" "alice"
  = readHideBefore (localStorage (step (ClearLocal 7) aliceApp)) "room" "alice".
Proof.
  apply (watermark_changed_only_by_clear_local Logout). intros nowMs. discriminate.
Defined.

(** ** A message on its way: sent, stored, shown *)

(** X7. A message that [sendMessage] has written and the store has stamped
    comes back, through the snapshot conversion, as read for its author and
    unread for every other user, and with the single marker [#] for both:
    nobody but the author has seen it yet. *)
Theorem sent_message_first_view
    (lg : LoginState) (room user text : string) (settled : option Rejection)
    (docId : string) (serverTime : Z) (viewer : string) :
  activeSession lg room user ->
  Js.trim text <> EmptyString ->
  viewer <> EmptyString -> viewer <> user ->
  exists fields,
    send_write (sendMessage lg text settled) = Some (room, fields)
    /\ let m := convertDoc (storedMessage docId serverTime fields) in
       content m = Js.trim text
       /\ isUnread user m = false
       /\ buildMarker (Some user) m = "#"%string
       /\ isUnread viewer m = true
       /\ buildMarker (Some viewer) m = "#"%string.
Proof.
  intros Hs Htext Hv Hne. rewrite (sendMessage_session lg room user) by done.
  apply truthy_true in Htext. rewrite Htext. cbn [negb send_write].
  eexists. split; [reflexivity|].
  destruct Hs as (_ & _ & _ & _ & Hu). apply truthy_true in Hu, Hv.
  unfold isUnread, buildMarker, isOwn. cbn.
  rewrite Hu, Hv, String.eqb_refl. cbn.
  rewrite bool_decide_eq_true_2 by done.
  assert (String.eqb user viewer = false) as Huv by (apply String.eqb_neq; congruence).
  rewrite Huv. cbn.
  rewrite (bool_decide_eq_false_2 (Some user = Some viewer)) by congruence.
  rewrite (bool_decide_eq_false_2 (viewer ∈ [user])).
  - done.
  - intros Hin. apply list_elem_of_singleton in Hin. done.
Qed.

Lemma sent_message_first_view_witness :
  exists fields,
    send_write (sendMessage aliceSession " hello " None) = Some ("room"%string, fields)
    /\ let m := convertDoc (storedMessage "m1" 42 fields) in
       content m = Js.trim " hello "
       /\ isUnread "alice" m = false
       /\ buildMarker (Some "alice"%string) m = "#"%string
       /\ isUnread "bob" m = true
       /\ buildMarker (Some "bob"%string) m = "#"%string.
Proof.
  apply (sent_message_first_view aliceSession "room" "alice" " hello " None "m1" 42 "bob").
  - unfold activeSession. cbn. repeat split; discriminate.
  - vm_compute. discriminate.
  - discriminate.
  - discriminate.
Defined.

(** ** Seen receipts and the title badge *)

Lemma markSeenEffect_session a room user chat :
  activeSession (login a) room user ->
  chatFileId a = Some chat -> chat <> EmptyString ->
  markSeenEffect a
  = if negb (panic a) && tabVisible a && bool_decide (activeFileId a = chatFileId a)
    then (fun m => mkSeenWrite room (msg_id m) user)
           <$> filter (fun m => isUnread user m = true) (messages a)
    else [].
Proof.
  intros (Hl & Hr & Hu & Hr' & Hu') Hc Hc'. unfold markSeenEffect.
  rewrite Hl, Hr, Hu, Hc. apply truthy_true in Hr', Hu', Hc'.
  rewrite Hr', Hu', Hc'. cbn [andb]. by rewrite <- Hc.
Qed.

(** X8. For a logged-in user with a chat file and at least one unread
    message, the window title carries the badge with the unread count
    exactly when the seen-receipt effect dispatches nothing; when receipts
    are dispatched there is one for each unread message. So an unread
    message is either announced in the title or being marked as seen. *)
Theorem badge_or_receipts (a : App) (room user : string) :
  activeSession (login a) room user ->
  Js.truthyOpt (chatFileId a) = true ->
  0 < unreadCount user (messages a) ->
  (documentTitle a
   = "(" +:+ Js.numToString (unreadCount user (messages a)) +:+ ") " +:+ baseTitle
   <-> markSeenEffect a = [])
  /\ (documentTitle a = baseTitle
      <-> Z.of_nat (length (markSeenEffect a)) = unreadCount user (messages a)).
Proof.
  intros Hs Hc Hn.
  destruct (chatFileId a) as [chat|] eqn:Hchat; [|done].
  cbn in Hc. apply truthy_true in Hc.
  rewrite (markSeenEffect_session a room user chat) by done.
  destruct Hs as (Hl & Hr & Hu & Hr' & Hu').
  unfold documentTitle. rewrite Hl, Hu. apply truthy_true in Hu'. rewrite Hu'.
  rewrite (proj2 (Z.ltb_lt _ _) Hn). cbn [andb].
  rewrite Hchat.
  assert ((fun m => mkSeenWrite room (msg_id m) user)
            <$> filter (fun m => isUnread user m = true) (messages a) <> []) as Hne.
  { intros H. apply fmap_nil_inv in H. unfold unreadCount in Hn.
    rewrite H in Hn. cbn in Hn. lia. }
  assert (Z.of_nat (length ((fun m => mkSeenWrite room (msg_id m) user)
            <$> filter (fun m => isUnread user m = true) (messages a)))
          = unreadCount user (messages a)) as Hlen.
  { by rewrite length_fmap. }
  destruct (panic a), (tabVisible a),
    (bool_decide (activeFileId a = Some chat)); cbn [negb orb andb];
    (split; [split|split]); try done; try (intros H; cbn in H; lia).
Qed.

Lemma badge_or_receipts_witness :
  let a := step (MessagesDelivery 0 [docAt "m0" "bob" (VTimestamp 5)]) aliceApp in
  documentTitle a = "(1) Visual Studio Code"%string /\ markSeenEffect a = [].
Proof.
  intros a.
  assert (activeSession (login a) "room" "alice") as Hs.
  { unfold activeSession. cbn. repeat split; discriminate. }
  destruct (badge_or_receipts a "room" "alice" Hs eq_refl eq_refl) as [Hbadge _].
  split; [|apply Hbadge]; reflexivity.
Defined.

(** X9. The seen-receipt effect writes only while panic is off, the tab is
    visible and the chat file is focused, and only for messages of the
    current view that another user sent and the current user has not seen
    yet; it never marks an own message or a message already seen. *)
Theorem receipts_only_for_visible_unread (a : App) (w : SeenWrite) :
  w ∈ markSeenEffect a ->
  panic a = false /\ tabVisible a = true /\ activeFileId a = chatFileId a
  /\ userName (login a) = Some (sw_user w)
  /\ roomId (login a) = Some (sw_room w)
  /\ exists m, m ∈ messages a /\ sw_message w = msg_id m
               /\ sender m <> sw_user w /\ sw_user w ∉ seenBy m.
Proof.
  unfold markSeenEffect. intros Hin.
  destruct (loggedIn (login a)); [|by apply elem_of_nil in Hin].
  destruct (roomId (login a)) as [room|]; [|by apply elem_of_nil in Hin].
  destruct (userName (login a)) as [user|]; [|by apply elem_of_nil in Hin].
  destruct (chatFileId a) as [chat|]; [|by apply elem_of_nil in Hin].
  destruct (Js.truthy room && Js.truthy user && Js.truthy chat); cbn [andb] in Hin;
    [|by apply elem_of_nil in Hin].
  destruct (panic a); cbn [negb andb] in Hin; [by apply elem_of_nil in Hin|].
  destruct (tabVisible a); cbn [andb] in Hin; [|by apply elem_of_nil in Hin].
  destruct (bool_decide (activeFileId a = Some chat)) eqn:Hfocus;
    [|by apply elem_of_nil in Hin].
  apply bool_decide_eq_true in Hfocus.
  apply list_elem_of_fmap in Hin as (m & -> & Hm).
  apply list_elem_of_filter in Hm as [Hunread Hm].
  apply isUnread_spec in Hunread as [? ?]. cbn.
  repeat split; try done. by exists m.
Qed.

Lemma receipts_only_for_visible_unread_witness :
  let a := step (SelectFile (Some "chat-1"%string))
             (step (MessagesDelivery 0 [docAt "m0" "bob" (VTimestamp 5)]) aliceApp) in
  markSeenEffect a = [mkSeenWrite "room" "m0" "alice"] /\ panic a = false.
Proof.
  intros a. split; [reflexivity|].
  apply (receipts_only_for_visible_unread a (mkSeenWrite "room" "m0" "alice")).
  vm_compute. by left.
Defined.

(** ** Rings *)

(** X10. Whatever its sender, its age and the notification facility, a
    newly added ring that is observed is deleted exactly once, as the last
    thing done for it, after at most two other actions; a modified or
    removed ring causes nothing at all. *)
Theorem observed_ring_deleted_once
    (room currentUser : string) (env : NotificationEnv) (now : Z)
    (type : ChangeType) (d : RingDoc) :
  (type = added ->
   exists pre,
     onRingChange room currentUser env now type d
     = pre ++ [Dispatch (DeleteRing room (ring_id d))]
     /\ (length pre <= 2)%nat
     /\ forall r i, Dispatch (DeleteRing r i) ∉ pre)
  /\ (type <> added -> onRingChange room currentUser env now type d = []).
Proof.
  split; [intros ->|by destruct type].
  unfold onRingChange.
  destruct (ring_sender d) as [s|];
    [|exists []; repeat split; [cbn; lia|intros r i H; by apply elem_of_nil in H]].
  destruct (negb (Js.truthy s) || String.eqb s currentUser);
    [exists []; repeat split; [cbn; lia|intros r i H; by apply elem_of_nil in H]|].
  destruct (match toJsDate (ring_createdAt d) with
            | Some c => 5000 <? now - c
            | None => false
            end);
    [exists []; repeat split; [cbn; lia|intros r i H; by apply elem_of_nil in H]|].
  destruct (notificationDefined env && permissionGranted env);
    [destruct (constructorThrows env)|]; cbn [app];
    eexists [_; _]; (split; [reflexivity|]); (split; [cbn; lia|]);
    intros r i H; apply elem_of_cons in H as [H|H]; try discriminate H;
    apply list_elem_of_singleton in H; discriminate H.
Qed.

Lemma observed_ring_deleted_once_witness :
  exists pre,
    onRingChange "room" "alice" grantedEnv 2000 added
      (mkRingDoc "r1" (Some "bob"%string) (VTimestamp 1000))
    = pre ++ [Dispatch (DeleteRing "room" "r1")]
    /\ (length pre <= 2)%nat
    /\ forall r i, Dispatch (DeleteRing r i) ∉ pre.
Proof.
  apply (proj1 (observed_ring_deleted_once "room" "alice" grantedEnv 2000 added
                  (mkRingDoc "r1" (Some "bob"%string) (VTimestamp 1000)))).
  reflexivity.
Defined.

(** ** Panic *)

(** X11. Once panic is on, no command, browser event, tick or delivery
    switches it off, except the [ncp run] command. *)
Theorem panic_cleared_only_by_ncp_run (ev : Event) (a : App) :
  ev <> NcpRun -> panic a = true -> panic (step ev a) = true.
Proof.
  intros Hev Hp. unfold step.
  destruct (panicFocusEffect_frame (handle ev a)) as (_ & _ & _ & _ & -> & _).
  destruct ev; cbn [handle]; try done.
  - unfold cmd_login. repeat break_match; try done.
    by rewrite (proj2 (joinRoom_session _ _ _ _ _)).
  - unfold autoLogin. repeat break_match; try done.
    by rewrite (proj2 (joinRoom_session _ _ _ _ _)).
  - unfold cmd_logout, unsubscribeIfAny. by repeat break_match.
  - unfold cmd_clear_local. by repeat break_match.
  - unfold cmd_send. by repeat break_match.
  - unfold cmd_ring. by repeat break_match.
  - unfold visHandler. by repeat break_match.
  - unfold idlePoll. by repeat break_match.
  - by pose proof (messagesCallback_session handle0 snapshot a) as [= _ -> _].
  - by pose proof (ringsCallback_session handle0 env changes a) as [= _ -> _].
  - unfold handleSelectFile. by repeat break_match.
  - unfold closeTab. by repeat break_match.
Qed.

Lemma panic_cleared_only_by_ncp_run_witness :
  panic (step (Login (Some "room2"%string) None "chat-9" grantedEnv)
           (step Logout aliceApp)) = true.
Proof.
  apply panic_cleared_only_by_ncp_run; [discriminate|reflexivity].
Defined.

(** X13. A terminal command arrives with the Enter keydown that the
    window's [keydown] listener records as activity. So [ncp run] typed at
    [now], with the tab visible, switches panic off, focuses the chat file
    and restarts the idle clock: with nothing else happening, panic comes
    back with the first tick at or after [now + 5 min] and with none
    before, however old the last activity was when the command came. *)
Theorem terminal_resume_restarts_idle_clock (a : App) (now t0 : Z) (n : nat) :
  loggedIn (login a) = true ->
  Js.truthyOpt (chatFileId a) = true ->
  lastHiddenRef a = None ->
  let resumed := step (Activity now) (step NcpRun a) in
  panic resumed = false
  /\ activeFileId resumed = chatFileId a
  /\ lastActivityRef resumed = now
  /\ (panic (afterTicks t0 n resumed) = true
      <-> exists k, (k < n)%nat /\ now + IDLE_MS <= tickTime t0 k).
Proof.
  intros Hl Hc Hvisible resumed.
  assert (panic resumed = false /\ activeFileId resumed = chatFileId a
          /\ lastActivityRef resumed = now /\ lastHiddenRef resumed = None
          /\ login resumed = login a /\ chatFileId resumed = chatFileId a) as Hres.
  { unfold resumed, step. cbn [handle]. unfold cmd_ncp_run. rewrite Hl. cbn [negb].
    destruct (chatFileId a) as [chat|] eqn:Hchat; [|done]. cbn in Hc. rewrite Hc.
    unfold panicFocusEffect. cbn. done. }
  destruct Hres as (Hp & Hf & Ha & Hh & Hlg & Hch).
  split; [done|]. split; [done|]. split; [done|].
  rewrite afterTicks_panic by (by rewrite ?Hlg, ?Hch).
  rewrite Ha, Hh. split.
  - intros (k & Hk & [Ht|(hidden & Hhidden & _)]); [by exists k|done].
  - intros (k & Hk & Ht). exists k. split; [done|by left].
Qed.

Lemma terminal_resume_restarts_idle_clock_witness :
  let resumed := step (Activity 400000) (step NcpRun (step HideChat aliceApp)) in
  panic (afterTicks 420000 10 resumed) = false
  /\ panic (afterTicks 420000 11 resumed) = true.
Proof.
  intros resumed.
  destruct (terminal_resume_restarts_idle_clock (step HideChat aliceApp)
              400000 420000 10 eq_refl eq_refl eq_refl) as (_ & _ & _ & H10).
  destruct (terminal_resume_restarts_idle_clock (step HideChat aliceApp)
              400000 420000 11 eq_refl eq_refl eq_refl) as (_ & _ & _ & H11).
  split.
  - apply not_true_is_false. intros Hpanic. apply H10 in Hpanic as (k & Hk & Ht).
    unfold tickTime, IDLE_MS, CHECK_MS in Ht. lia.
  - apply H11. exists 10%nat. split; [lia|]. vm_compute. discriminate.
Defined.

(** ** Subscriptions across logout and login *)

Local Abbreviation handlesView a :=
  (nextListener a, unsubscribeMessages a, unsubscribePresence a, unsubscribeRings a).

Lemma handleOf_handlesView a a' k :
  handlesView a' = handlesView a -> handleOf k a' = handleOf k a.
Proof. intros [= Hn Hm Hp Hr]. by destruct k. Qed.

Lemma messagesCallback_handles h snapshot a :
  handlesView (messagesCallback h snapshot a) = handlesView a.
Proof.
  unfold messagesCallback. destruct (listeners a !! h) as [l|]; [|done].
  by destruct (l_closure l).
Qed.

Lemma ensureChatFile_handles uuid a : handlesView (ensureChatFile uuid a) = handlesView a.
Proof. by pose proof (ensureChatFile_subs uuid a) as [= _ -> -> -> ->]. Qed.

Lemma distinct_view a b :
  handlesView b = handlesView a ->
  (forall k1 k2 h, handleOf k1 a = Some h -> handleOf k2 a = Some h -> k1 = k2) ->
  forall k1 k2 h, handleOf k1 b = Some h -> handleOf k2 b = Some h -> k1 = k2.
Proof.
  intros Hv Hdist k1 k2 h.
  rewrite (handleOf_handlesView a b k1), (handleOf_handlesView a b k2) by done.
  apply Hdist.
Qed.

(** No two stream kinds share a handle. *)
Lemma attach_distinct k a a' :
  handlesTracked a ->
  handleOf k a' = Some (nextListener a) ->
  (forall k', k' <> k -> handleOf k' a' = handleOf k' a) ->
  (forall k1 k2 h, handleOf k1 a = Some h -> handleOf k2 a = Some h -> k1 = k2) ->
  forall k1 k2 h, handleOf k1 a' = Some h -> handleOf k2 a' = Some h -> k1 = k2.
Proof.
  intros [_ Hissued] Hnew Hother Hdist k1 k2 h H1 H2.
  destruct (decide (k1 = k)) as [->|Hn1], (decide (k2 = k)) as [->|Hn2]; [done| | |].
  - rewrite Hnew in H1. injection H1 as <-. rewrite Hother in H2 by done.
    apply Hissued in H2. lia.
  - rewrite Hnew in H2. injection H2 as <-. rewrite Hother in H1 by done.
    apply Hissued in H1. lia.
  - rewrite Hother in H1, H2 by done. by apply (Hdist k1 k2 h).
Qed.

Lemma joinRoom_distinct room user uuid env a :
  handlesTracked a ->
  (forall k1 k2 h, handleOf k1 a = Some h -> handleOf k2 a = Some h -> k1 = k2) ->
  forall k1 k2 h,
    handleOf k1 (joinRoom room user uuid env a) = Some h ->
    handleOf k2 (joinRoom room user uuid env a) = Some h -> k1 = k2.
Proof.
  intros Hinv Hdist. unfold joinRoom.
  apply (handlesTracked_view _ _ (ensureChatFile_subs uuid a)) in Hinv.
  assert (forall k1 k2 h, handleOf k1 (ensureChatFile uuid a) = Some h ->
                          handleOf k2 (ensureChatFile uuid a) = Some h -> k1 = k2) as Hd1.
  { apply (distinct_view a); [apply ensureChatFile_handles|done]. }
  clear Hdist. generalize dependent (ensureChatFile uuid a). intros a1 Hinv Hd1.
  assert (forall k1 k2 h, handleOf k1 (subscribeToMessages room user a1) = Some h ->
                          handleOf k2 (subscribeToMessages room user a1) = Some h -> k1 = k2)
    as Hd2.
  { apply (attach_distinct messagesStream a1); try done.
    - unfold subscribeToMessages, unsubscribeIfAny. by destruct (unsubscribeMessages a1).
    - intros [] Hk; try done; unfold subscribeToMessages, unsubscribeIfAny;
        by destruct (unsubscribeMessages a1). }
  apply (subscribeToMessages_tracked room user) in Hinv as [Hinv _]. clear Hd1.
  generalize dependent (subscribeToMessages room user a1). intros a2 Hinv Hd2.
  assert (forall k1 k2 h, handleOf k1 (subscribeToPresence room user a2) = Some h ->
                          handleOf k2 (subscribeToPresence room user a2) = Some h -> k1 = k2)
    as Hd3.
  { apply (attach_distinct presenceStream a2); try done.
    - unfold subscribeToPresence, unsubscribeIfAny. by destruct (unsubscribePresence a2).
    - intros [] Hk; try done; unfold subscribeToPresence, unsubscribeIfAny;
        by destruct (unsubscribePresence a2). }
  apply (subscribeToPresence_tracked room user) in Hinv as [Hinv _]. clear Hd2.
  generalize dependent (subscribeToPresence room user a2). intros a3 Hinv Hd3.
  assert (forall k1 k2 h, handleOf k1 (subscribeToRings room user a3) = Some h ->
                          handleOf k2 (subscribeToRings room user a3) = Some h -> k1 = k2)
    as Hd4.
  { apply (attach_distinct ringsStream a3); try done.
    - unfold subscribeToRings. by destruct (unsubscribeRings a3).
    - intros [] Hk; try done; unfold subscribeToRings; by destruct (unsubscribeRings a3). }
  clear Hd3 Hinv. generalize dependent (subscribeToRings room user a3). intros a4 Hd4.
  apply (distinct_view a4); [|done].
  unfold requestPermissionIfNeeded. by destruct (_ && _).
Qed.

Lemma reachable_handles_distinct a :
  reachable a ->
  forall k1 k2 h, handleOf k1 a = Some h -> handleOf k2 a = Some h -> k1 = k2.
Proof.
  induction 1 as [initialFiles storage now|ev a Hreach IH].
  - intros [] k2 h H; discriminate H.
  - pose proof (reachable_handlesTracked a Hreach) as Hinv.
    assert (forall b, handlesView b = handlesView a ->
              forall k1 k2 h, handleOf k1 (panicFocusEffect b) = Some h ->
                              handleOf k2 (panicFocusEffect b) = Some h -> k1 = k2) as Hsame.
    { intros b Hb. apply (distinct_view a); [|done].
      destruct (panicFocusEffect_frame b)
        as (_ & _ & _ & _ & _ & _ & _ & _ & _ & -> & -> & -> & ->). exact Hb. }
    assert (forall room user uuid env b,
              handlesView b = handlesView a -> listeners b = listeners a ->
              forall k1 k2 h,
                handleOf k1 (panicFocusEffect (joinRoom room user uuid env b)) = Some h ->
                handleOf k2 (panicFocusEffect (joinRoom room user uuid env b)) = Some h ->
                k1 = k2) as Hjoin.
    { intros room user uuid env b Hb Hlb.
      apply (distinct_view (joinRoom room user uuid env b)).
      { by destruct (panicFocusEffect_frame (joinRoom room user uuid env b))
          as (_ & _ & _ & _ & _ & _ & _ & _ & _ & -> & -> & -> & ->). }
      apply joinRoom_distinct.
      - apply (handlesTracked_view a); [|done].
        injection Hb as Hn Hm Hp Hr. by rewrite Hlb, Hn, Hm, Hp, Hr.
      - by apply (distinct_view a). }
    unfold step. destruct ev; cbn [handle].
    + unfold cmd_login. repeat break_match; try (by apply Hsame). by apply Hjoin.
    + unfold autoLogin. repeat break_match; try (by apply Hsame). by apply Hjoin.
    + apply Hsame. unfold cmd_logout, unsubscribeIfAny. by repeat break_match.
    + apply Hsame. unfold cmd_ncp_run. by repeat break_match.
    + by apply Hsame.
    + apply Hsame. unfold cmd_clear_local. by repeat break_match.
    + apply Hsame. unfold cmd_send. by repeat break_match.
    + apply Hsame. unfold cmd_ring. by repeat break_match.
    + by apply Hsame.
    + apply Hsame. unfold visHandler. by repeat break_match.
    + by apply Hsame.
    + apply Hsame. unfold idlePoll. by repeat break_match.
    + apply Hsame. apply messagesCallback_handles.
    + apply Hsame. by pose proof (ringsCallback_subs handle0 env changes a) as [= _ -> -> -> ->].
    + apply Hsame. unfold handleSelectFile. by repeat break_match.
    + apply Hsame. unfold closeTab. by repeat break_match.
    + by apply Hsame.
Qed.

(** X14. After [logout], in a state the component can reach, nobody is
    logged in, panic is on, and the store holds no message or presence
    listener any more; the ring listener is not detached: if one was live it
    stays live, bound to the room and user that logged out. *)
Theorem logout_keeps_ring_listener (a : App) :
  reachable a ->
  let a' := step Logout a in
  loggedIn (login a') = false /\ panic a' = true
  /\ (forall h l, listeners a' !! h = Some l ->
                  l_kind l = ringsStream /\ listeners a !! h = Some l)
  /\ (forall h l, listeners a !! h = Some l -> l_kind l = ringsStream ->
                  listeners a' !! h = Some l).
Proof.
  intros Hreach a'. destruct (reachable_handlesTracked a Hreach) as [Hlive _].
  pose proof (reachable_handles_distinct a Hreach) as Hdist.
  assert (loggedIn (login a') = false /\ panic a' = true
          /\ listeners a'
             = match unsubscribePresence a with
               | Some hp =>
                   delete hp (match unsubscribeMessages a with
                              | Some hm => delete hm (listeners a)
                              | None => listeners a
                              end)
               | None => match unsubscribeMessages a with
                         | Some hm => delete hm (listeners a)
                         | None => listeners a
                         end
               end) as (Hl & Hp & Hlist).
  { unfold a', step. cbn [handle].
    destruct (panicFocusEffect_frame (cmd_logout a))
      as (_ & -> & _ & _ & -> & -> & _).
    unfold cmd_logout, unsubscribeIfAny.
    repeat break_match; cbn in *; repeat split; congruence. }
  split; [done|]. split; [done|]. rewrite Hlist. split.
  - intros h l Hh.
    assert (listeners a !! h = Some l
            /\ unsubscribeMessages a <> Some h /\ unsubscribePresence a <> Some h)
      as (Hold & Hm & Hpr).
    { destruct (unsubscribePresence a) as [hp|], (unsubscribeMessages a) as [hm|];
        repeat match goal with
               | H : delete ?x _ !! h = Some _ |- _ =>
                   destruct (decide (x = h)) as [->|?];
                   [by rewrite lookup_delete_eq in H
                   |rewrite lookup_delete_ne in H by done]
               end; repeat split; congruence. }
    split; [|done]. pose proof (Hlive h l Hold) as Hk.
    destruct (l_kind l); cbn in Hk; congruence.
  - intros h l Hold Hkind. pose proof (Hlive h l Hold) as Hk.
    rewrite Hkind in Hk.
    assert (unsubscribeMessages a <> Some h) as Hm.
    { intros H. by pose proof (Hdist ringsStream messagesStream h Hk H). }
    assert (unsubscribePresence a <> Some h) as Hpr.
    { intros H. by pose proof (Hdist ringsStream presenceStream h Hk H). }
    destruct (unsubscribePresence a) as [hp|], (unsubscribeMessages a) as [hm|];
      rewrite ?lookup_delete_ne by congruence; done.
Qed.

Lemma logout_keeps_ring_listener_witness :
  listeners (step Logout aliceApp) !! 2%nat
  = Some (mkListener "room" "alice" ringsClosure)
  /\ listeners (step Logout aliceApp) !! 0%nat = None.
Proof.
  assert (reachable aliceApp) as Hr by (apply reachable_step, reachable_initial).
  destruct (logout_keeps_ring_listener aliceApp Hr) as (_ & _ & Honly & Hkept).
  split.
  - apply Hkept; reflexivity.
  - destruct (listeners (step Logout aliceApp) !! 0%nat) as [l|] eqn:E; [|done].
    destruct (Honly 0%nat l E) as [Hk Hold]. vm_compute in Hold.
    injection Hold as <-. discriminate Hk.
Defined.

Lemma three_subscribes room user b :
  handlesTracked b ->
  let c := subscribeToRings room user
             (subscribeToPresence room user (subscribeToMessages room user b)) in
  let n := nextListener b in
  handlesView c = (S (S (S n)), Some n, Some (S n), Some (S (S n)))
  /\ listeners c !! n = Some (mkListener room user (messagesClosure true))
  /\ listeners c !! S n = Some (mkListener room user presenceClosure)
  /\ listeners c !! S (S n) = Some (mkListener room user ringsClosure).
Proof.
  intros [_ Hissued] c n.
  pose proof (Hissued messagesStream) as Hm.
  pose proof (Hissued presenceStream) as Hp.
  pose proof (Hissued ringsStream) as Hr.
  cbn [handleOf] in Hm, Hp, Hr. fold n in Hm, Hp, Hr.
  unfold c, subscribeToRings, subscribeToPresence, subscribeToMessages,
    unsubscribeIfAny, onSnapshot, unsubscribe.
  destruct (unsubscribeMessages b) as [hm|]; cbn;
    destruct (unsubscribePresence b) as [hp|]; cbn;
    destruct (unsubscribeRings b) as [hr|]; cbn; fold n;
    try (specialize (Hm hm eq_refl)); try (specialize (Hp hp eq_refl));
    try (specialize (Hr hr eq_refl));
    repeat split;
    repeat first [ rewrite lookup_insert_eq
                 | rewrite lookup_insert_ne by lia
                 | rewrite lookup_delete_ne by lia ];
    reflexivity.
Qed.

Lemma joinRoom_listeners room user uuid env a :
  handlesTracked a ->
  let a' := joinRoom room user uuid env a in
  let n := nextListener a in
  handlesView a' = (S (S (S n)), Some n, Some (S n), Some (S (S n)))
  /\ listeners a' !! n = Some (mkListener room user (messagesClosure true))
  /\ listeners a' !! S n = Some (mkListener room user presenceClosure)
  /\ listeners a' !! S (S n) = Some (mkListener room user ringsClosure).
Proof.
  intros Hinv a' n.
  pose proof (ensureChatFile_subs uuid a) as Hsubs.
  pose proof Hsubs as [= _ Hn _ _ _].
  apply (handlesTracked_view _ _ Hsubs) in Hinv.
  unfold a', joinRoom, n. rewrite <- Hn. clear Hsubs Hn.
  generalize dependent (ensureChatFile uuid a). intros b Hinv.
  pose proof (three_subscribes room user b Hinv) as H. cbv zeta in H.
  generalize dependent
    (subscribeToRings room user
       (subscribeToPresence room user (subscribeToMessages room user b))).
  intros c H.
  set (d := dispatch (SetPresence room user "online")
              (requestPermissionIfNeeded env c)).
  assert (listeners d = listeners c /\ handlesView d = handlesView c) as [Hdl Hdv].
  { unfold d, requestPermissionIfNeeded. by destruct (_ && _). }
  by rewrite Hdl, Hdv.
Qed.

Lemma joinRoom_login room user uuid env a :
  login (joinRoom room user uuid env a) = login a.
Proof.
  unfold joinRoom, requestPermissionIfNeeded.
  assert (forall b, login (ensureChatFile uuid b) = login b) as He.
  { intros b. unfold ensureChatFile. destruct (Js.truthyOpt (chatFileId b)); [done|].
    destruct (insertIntoTree uuid (files b) false) as [newFiles inserted].
    by destruct (Js.truthy uuid). }
  assert (forall b, login (subscribeToMessages room user b) = login b) as Hm.
  { intros b. unfold subscribeToMessages, unsubscribeIfAny.
    by destruct (unsubscribeMessages b). }
  assert (forall b, login (subscribeToPresence room user b) = login b) as Hp.
  { intros b. unfold subscribeToPresence, unsubscribeIfAny.
    by destruct (unsubscribePresence b). }
  assert (forall b, login (subscribeToRings room user b) = login b) as Hr.
  { intros b. unfold subscribeToRings. by destruct (unsubscribeRings b). }
  transitivity
    (login
       (subscribeToRings room user
          (subscribeToPresence room user
             (subscribeToMessages room user (ensureChatFile uuid a))))).
  - generalize (subscribeToRings room user
                  (subscribeToPresence room user
                     (subscribeToMessages room user (ensureChatFile uuid a)))).
    intros b. by destruct (_ && _).
  - by rewrite Hr, Hp, Hm, He.
Qed.

(** X15. A [login] that succeeds (nobody logged in, a room given), from a
    state the component can reach, leaves the store with exactly three
    listeners, one for messages, one for presence and one for rings, each
    bound to the new room and user; whatever was subscribed before is gone,
    the ring listener that [logout] had left included. *)
Theorem login_attaches_three_listeners
    (a : App) (room : string) (rest1 : option string) (uuid : string)
    (env : NotificationEnv) :
  reachable a ->
  loggedIn (login a) = false ->
  room <> EmptyString ->
  let user := default "dev"%string rest1 in
  let a' := step (Login (Some room) rest1 uuid env) a in
  let n := nextListener a in
  login a' = mkLoginState true (Some room) (Some user)
  /\ listeners a' !! n = Some (mkListener room user (messagesClosure true))
  /\ listeners a' !! S n = Some (mkListener room user presenceClosure)
  /\ listeners a' !! S (S n) = Some (mkListener room user ringsClosure)
  /\ forall h l, listeners a' !! h = Some l -> h = n \/ h = S n \/ h = S (S n).
Proof.
  intros Hreach Hl Hroom user a' n.
  pose proof (reachable_handlesTracked a' (reachable_step _ a Hreach)) as [Hlive' _].
  pose proof (reachable_handlesTracked a Hreach) as Hinv.
  apply truthy_true in Hroom.
  set (b := set_localStorage
              (orIgnore (localStorage a)
                 (setItem (localStorage a) IDENTITY_KEY (identityJson room user)))
              (appendTerminalLine ("logged into room " +:+ room +:+ " as " +:+ user)
                 c_green
                 (set_login (mkLoginState true (Some room) (Some user)) a))).
  assert (a' = panicFocusEffect (joinRoom room user uuid env b)) as Ha'.
  { unfold a', step. cbn [handle]. unfold cmd_login. by rewrite Hl, Hroom. }
  assert (handlesTracked b) as Hb by (by apply (handlesTracked_view a)).
  destruct (joinRoom_listeners room user uuid env b Hb) as (Hv & H0 & H1 & H2).
  change (nextListener b) with n in Hv, H0, H1, H2.
  destruct (panicFocusEffect_frame (joinRoom room user uuid env b))
    as (_ & Hfl & _ & _ & _ & Hflog & _ & _ & _ & Hfn & Hfm & Hfp & Hfr).
  rewrite <- Ha' in Hfl, Hflog, Hfn, Hfm, Hfp, Hfr.
  assert (unsubscribeMessages (joinRoom room user uuid env b) = Some n
          /\ unsubscribePresence (joinRoom room user uuid env b) = Some (S n)
          /\ unsubscribeRings (joinRoom room user uuid env b) = Some (S (S n)))
    as (Hvm & Hvp & Hvr).
  { revert Hv. generalize (joinRoom room user uuid env b). by intros c [= _ -> -> ->]. }
  rewrite Hfl. repeat split; try done.
  - rewrite Hflog. by rewrite joinRoom_login.
  - intros h l Hh. rewrite <- Hfl in Hh. apply Hlive' in Hh.
    destruct (l_kind l); cbn [handleOf] in Hh;
      rewrite ?Hfm, ?Hfp, ?Hfr, ?Hvm, ?Hvp, ?Hvr in Hh;
      injection Hh as <-; auto.
Qed.

Lemma login_attaches_three_listeners_witness :
  let a' := step (Login (Some "room2"%string) None "chat-2" grantedEnv)
              (step Logout aliceApp) in
  login a' = mkLoginState true (Some "room2"%string) (Some "dev"%string)
  /\ listeners a' !! 3%nat
     = Some (mkListener "room2" "dev" (messagesClosure true))
  /\ listeners a' !! 2%nat = None.
Proof.
  intros a'.
  assert (reachable (step Logout aliceApp)) as Hr
    by (do 2 apply reachable_step; apply reachable_initial).
  assert (loggedIn (login (step Logout aliceApp)) = false) as Hl
    by (vm_compute; reflexivity).
  assert ("room2"%string <> EmptyString) as Hroom by discriminate.
  destruct (login_attaches_three_listeners (step Logout aliceApp) "room2" None
              "chat-2" grantedEnv Hr Hl Hroom) as (Hlog & Hm & _ & _ & Honly).
  split; [exact Hlog|]. split; [exact Hm|].
  destruct (listeners a' !! 2%nat) as [l|] eqn:E; [|done].
  apply Honly in E. vm_compute in E. lia.
Defined.

(** ** The terminal *)

Lemma trimStart_blank s : Js.truthy (Js.trimStart s) = negb (blank s).
Proof.
  induction s as [|c r IH]; cbn; [done|].
  destruct (Js.isWhiteSpace c); cbn; [exact IH|done].
Qed.

Lemma trim_blank s : Js.truthy (Js.trim s) = negb (blank s).
Proof.
  rewrite <- trimStart_blank. unfold Js.trim.
  pose proof (trimStart_shape s) as H.
  destruct (Js.trimStart s) as [|c r]; [done|].
  rewrite trimEnd_cons, H. done.
Qed.

Lemma joinRoom_terminal room user uuid env a :
  terminalLines (joinRoom room user uuid env a) = terminalLines a.
Proof.
  unfold joinRoom, requestPermissionIfNeeded.
  assert (forall b, terminalLines (ensureChatFile uuid b) = terminalLines b) as He.
  { intros b. unfold ensureChatFile. destruct (Js.truthyOpt (chatFileId b)); [done|].
    destruct (insertIntoTree uuid (files b) false) as [newFiles inserted].
    by destruct (Js.truthy uuid). }
  assert (forall b, terminalLines (subscribeToMessages room user b) = terminalLines b)
    as Hm.
  { intros b. unfold subscribeToMessages, unsubscribeIfAny.
    by destruct (unsubscribeMessages b). }
  assert (forall b, terminalLines (subscribeToPresence room user b) = terminalLines b)
    as Hp.
  { intros b. unfold subscribeToPresence, unsubscribeIfAny.
    by destruct (unsubscribePresence b). }
  assert (forall b, terminalLines (subscribeToRings room user b) = terminalLines b)
    as Hr.
  { intros b. unfold subscribeToRings. by destruct (unsubscribeRings b). }
  transitivity
    (terminalLines
       (subscribeToRings room user
          (subscribeToPresence room user
             (subscribeToMessages room user (ensureChatFile uuid a))))).
  - generalize (subscribeToRings room user
                  (subscribeToPresence room user
                     (subscribeToMessages room user (ensureChatFile uuid a)))).
    intros b. by destruct (_ && _).
  - by rewrite Hr, Hp, Hm, He.
Qed.

Lemma cmd_login_grows rest0 rest1 uuid env a :
  terminalLines a `prefix_of` terminalLines (cmd_login rest0 rest1 uuid env a).
Proof.
  unfold cmd_login. destruct (loggedIn (login a)); [by eexists|].
  destruct rest0 as [room|]; [|by eexists].
  destruct (Js.truthy room); [|by eexists].
  rewrite joinRoom_terminal. by eexists.
Qed.

Lemma cmd_ncp_run_grows a :
  terminalLines a `prefix_of` terminalLines (cmd_ncp_run a).
Proof.
  unfold cmd_ncp_run. destruct (loggedIn (login a)); cbn; [|by eexists].
  destruct (chatFileId a) as [chat|]; [|by eexists].
  destruct (Js.truthy chat); by eexists.
Qed.

Lemma cmd_hide_chat_grows a :
  terminalLines a `prefix_of` terminalLines (cmd_hide_chat a).
Proof. by eexists. Qed.

Lemma cmd_logout_grows a :
  terminalLines a `prefix_of` terminalLines (cmd_logout a).
Proof.
  unfold cmd_logout, unsubscribeIfAny.
  repeat break_match; cbn; by eexists.
Qed.

Lemma cmd_clear_local_grows nowMs a :
  terminalLines a `prefix_of` terminalLines (cmd_clear_local nowMs a).
Proof. unfold cmd_clear_local. repeat break_match; by eexists. Qed.

Lemma cmd_send_grows msgText settled a :
  terminalLines a `prefix_of` terminalLines (cmd_send msgText settled a).
Proof.
  unfold cmd_send. destruct (negb (Js.truthy msgText)); [by eexists|].
  destruct (handleSendChat (login a) msgText settled) as [lines [[room fields]|]];
    by eexists.
Qed.

Lemma cmd_ring_grows accepted a :
  terminalLines a `prefix_of` terminalLines (cmd_ring accepted a).
Proof. unfold cmd_ring. repeat break_match; by eexists. Qed.

(** X16. [handleCommand] ignores an input of white space only. Any other
    input is echoed after [> ] as the next terminal line, trimmed, before
    whatever the command prints; no command removes or rewrites a line that
    the terminal already shows. *)
Theorem command_echoed_terminal_grows (raw : string) (env : CommandEnv) (a : App) :
  if blank raw then handleCommand raw env a = a
  else exists more,
      terminalLines (handleCommand raw env a)
      = terminalLines a ++ mkLine ("> " +:+ Js.trim raw) c_default :: more.
Proof.
  unfold handleCommand. rewrite trim_blank, negb_involutive.
  destruct (blank raw); [done|].
  set (b := appendTerminalLine ("> " +:+ Js.trim raw) c_default a).
  assert (forall c, terminalLines b `prefix_of` terminalLines c ->
            exists more, terminalLines c
              = terminalLines a ++ mkLine ("> " +:+ Js.trim raw) c_default :: more)
    as Hgrow.
  { intros c [more Hc]. exists more. rewrite Hc. unfold b, appendTerminalLine.
    cbn. by rewrite <- app_assoc. }
  clearbody b.
  destruct (splitSpace (Js.trim raw)) as [|cmd rest];
    [apply Hgrow; by eexists|].
  repeat match goal with
         | |- context [if ?c then _ else _] => destruct c
         end;
    apply Hgrow;
    first [ apply cmd_login_grows | apply cmd_ncp_run_grows
          | apply cmd_hide_chat_grows | apply cmd_logout_grows
          | apply cmd_clear_local_grows | apply cmd_send_grows
          | apply cmd_ring_grows | by eexists ].
Qed.

Lemma string_app_assoc (a b c : string) : (a +:+ b) +:+ c = a +:+ (b +:+ c).
Proof. induction a as [|x a IH]; [done|]. change (String x ((a +:+ b) +:+ c) = String x (a +:+ (b +:+ c))). by f_equal. Qed.

Lemma string_app_nil_r (s : string) : s +:+ EmptyString = s.
Proof. induction s as [|x s IH]; [done|]. change (String x (s +:+ EmptyString) = String x s). by f_equal. Qed.

Lemma splitSpaceFrom_nonempty s cur : splitSpaceFrom s cur <> [].
Proof.
  revert cur. induction s as [|c r IH]; intros cur; cbn; [done|].
  destruct (Ascii.eqb c " "); [done|apply IH].
Qed.

(** [split] and [join] at single spaces undo each other. *)
Lemma joinSpace_splitSpaceFrom s cur :
  joinSpace (splitSpaceFrom s cur) = String.rev cur +:+ s.
Proof.
  revert cur. induction s as [|c r IH]; intros cur.
  - cbn. by rewrite string_app_nil_r.
  - cbn [splitSpaceFrom]. destruct (Ascii.eqb c " ") eqn:E.
    + apply Ascii.eqb_eq in E as ->.
      pose proof (splitSpaceFrom_nonempty r EmptyString) as Hne.
      specialize (IH EmptyString).
      destruct (splitSpaceFrom r EmptyString) as [|p rest]; [done|].
      change (joinSpace (String.rev cur :: p :: rest))
        with (String.rev cur +:+ " " +:+ joinSpace (p :: rest)).
      rewrite IH. reflexivity.
    + rewrite IH, rev_cons_string, string_app_assoc. reflexivity.
Qed.

Lemma joinSpace_splitSpace s : joinSpace (splitSpace s) = s.
Proof. apply joinSpace_splitSpaceFrom. Qed.

Lemma trim_fixed_trimEnd m : Js.trim m = m -> Js.trimEnd m = m.
Proof. intros H. rewrite <- H at 1. unfold Js.trim. by rewrite trimEnd_idem. Qed.

Lemma trim_send m :
  Js.trim m = m -> m <> EmptyString ->
  Js.trim ("send " +:+ m) = ("send " +:+ m)%string.
Proof.
  intros Hm Hne. unfold Js.trim.
  change (Js.trimStart ("send " +:+ m)) with ("send " +:+ m)%string.
  change ("send " +:+ m)%string
    with (String "s" (String "e" (String "n" (String "d" (String " " m))))).
  rewrite !trimEnd_cons.
  rewrite (trim_fixed_trimEnd m Hm).
  apply truthy_true in Hne. rewrite Hne. reflexivity.
Qed.

(** X17. The terminal's [send] hands the rest of the line to the store as
    it was typed: with a session active, [send m] for a text [m] that does
    not begin or end with white space dispatches one message write whose
    content is [m], inner spacing included, and whose sender is the user. *)
Theorem terminal_send_verbatim
    (m : string) (env : CommandEnv) (a : App) (room user : string) :
  activeSession (login a) room user ->
  Js.trim m = m -> m <> EmptyString ->
  dispatched (handleCommand ("send " +:+ m) env a)
  = dispatched a ++
      [AddMessage room
         {| f_sender := user;
            f_content := m;
            f_createdAt := serverTimestamp;
            f_seenBy := [user];
            f_seenAt := {[ user := serverTimestamp ]} |}].
Proof.
  intros Hs Hm Hne. unfold handleCommand.
  rewrite (trim_send m Hm Hne).
  assert (Js.truthy ("send " +:+ m) = true) as -> by done.
  cbn [negb].
  set (b := appendTerminalLine ("> " +:+ "send " +:+ m) c_default a).
  assert (login b = login a /\ dispatched b = dispatched a) as [Hl Hd] by done.
  clearbody b.
  assert (splitSpace ("send " +:+ m) = "send"%string :: splitSpace m) as -> by done.
  assert (String.eqb "send" "help" || String.eqb "send" "h" && bool_decide (splitSpace m = [])
          = false) as -> by done.
  cbn -[splitSpace cmd_send appendTerminalLine joinSpace].
  rewrite joinSpace_splitSpace.
  unfold cmd_send, handleSendChat.
  pose proof Hne as Ht. apply truthy_true in Ht. rewrite Ht. cbn [negb].
  rewrite Hl, (sendMessage_session (login a) room user) by done.
  rewrite Hm, Ht. cbn [negb send_lines send_write send_thrown].
  destruct (env_settled env) as [[code|description]|]; cbn; by rewrite Hd.
Qed.

Lemma terminal_send_verbatim_witness :
  dispatched (handleCommand "send see  you at 5" (mkCommandEnv 0 "u" grantedEnv None true)
                aliceApp)
  = dispatched aliceApp ++
      [AddMessage "room"
         {| f_sender := "alice";
            f_content := "see  you at 5";
            f_createdAt := serverTimestamp;
            f_seenBy := ["alice"%string];
            f_seenAt := {[ "alice"%string := serverTimestamp ]} |}].
Proof.
  apply (terminal_send_verbatim "see  you at 5" _ aliceApp "room" "alice").
  - unfold activeSession. vm_compute. repeat split; discriminate.
  - vm_compute. reflexivity.
  - discriminate.
Defined.

(** X18. A first word that [handleCommand] does not know changes nothing
    but the terminal, which gains the echo of the input and the line
    [unknown command: <first word>] in red. *)
Theorem unknown_command_only_reported
    (raw : string) (env : CommandEnv) (a : App) (cmd : string) (rest : list string) :
  blank raw = false ->
  splitSpace (Js.trim raw) = cmd :: rest ->
  cmd ∉ knownCommands ->
  handleCommand raw env a
  = set_terminalLines
      (terminalLines a ++
         [mkLine ("> " +:+ Js.trim raw) c_default;
          mkLine ("unknown command: " +:+ cmd) c_red]) a.
Proof.
  intros Hb Hsplit Hcmd. unfold handleCommand.
  rewrite trim_blank, Hb, Hsplit. cbn [negb].
  assert (forall k, k ∈ knownCommands -> String.eqb cmd k = false) as Hk.
  { intros k Hin. apply String.eqb_neq. intros ->. done. }
  rewrite !Hk by (unfold knownCommands; set_solver).
  cbn [orb andb]. unfold appendTerminalLine. cbn.
  by rewrite <- app_assoc.
Qed.

Lemma unknown_command_only_reported_witness :
  handleCommand "  sudo ls " (mkCommandEnv 0 "u" grantedEnv None true) aliceApp
  = set_terminalLines
      (terminalLines aliceApp ++
         [mkLine "> sudo ls" c_default;
          mkLine "unknown command: sudo" c_red]) aliceApp.
Proof.
  apply (unknown_command_only_reported "  sudo ls " _ aliceApp "sudo" ["ls"%string]).
  - reflexivity.
  - vm_compute. reflexivity.
  - apply (bool_decide_unpack _). vm_compute. exact I.
Defined.

(** ** Tabs *)

Lemma addTab_NoDup (i : string) (tabs : list string) :
  NoDup tabs -> NoDup (if bool_decide (i ∈ tabs) then tabs else tabs ++ [i]).
Proof.
  intros Hnd. destruct (bool_decide (i ∈ tabs)) eqn:E; [done|].
  apply bool_decide_eq_false in E. apply NoDup_app. split; [done|].
  split; [|apply NoDup_singleton].
  intros x Hx Hin. apply list_elem_of_singleton in Hin as ->. done.
Qed.

Lemma joinRoom_openTabs room user uuid env a :
  openTabs (joinRoom room user uuid env a) = openTabs a.
Proof.
  unfold joinRoom, requestPermissionIfNeeded.
  assert (forall b, openTabs (ensureChatFile uuid b) = openTabs b) as He.
  { intros b. unfold ensureChatFile. destruct (Js.truthyOpt (chatFileId b)); [done|].
    destruct (insertIntoTree uuid (files b) false) as [newFiles inserted].
    by destruct (Js.truthy uuid). }
  assert (forall b, openTabs (subscribeToMessages room user b) = openTabs b) as Hm.
  { intros b. unfold subscribeToMessages, unsubscribeIfAny.
    by destruct (unsubscribeMessages b). }
  assert (forall b, openTabs (subscribeToPresence room user b) = openTabs b) as Hp.
  { intros b. unfold subscribeToPresence, unsubscribeIfAny.
    by destruct (unsubscribePresence b). }
  assert (forall b, openTabs (subscribeToRings room user b) = openTabs b) as Hr.
  { intros b. unfold subscribeToRings. by destruct (unsubscribeRings b). }
  transitivity
    (openTabs
       (subscribeToRings room user
          (subscribeToPresence room user
             (subscribeToMessages room user (ensureChatFile uuid a))))).
  - generalize (subscribeToRings room user
                  (subscribeToPresence room user
                     (subscribeToMessages room user (ensureChatFile uuid a)))).
    intros b. by destruct (_ && _).
  - by rewrite Hr, Hp, Hm, He.
Qed.

Lemma applyRingActions_openTabs acts : forall a,
  openTabs (foldl (fun a act => applyRingAction act a) a acts) = openTabs a.
Proof.
  induction acts as [|act acts IH]; intros a; [done|].
  cbn [foldl]. rewrite IH. by destruct act.
Qed.

Lemma ringsCallback_openTabs h env changes a :
  openTabs (ringsCallback h env changes a) = openTabs a.
Proof.
  unfold ringsCallback. destruct (listeners a !! h) as [l|]; [|done].
  destruct (l_closure l); try done.
  revert a. induction changes as [|[[now type] d] changes IH]; intros a; [done|].
  cbn [foldl]. rewrite IH. apply applyRingActions_openTabs.
Qed.

Lemma openTabs_step ev a : NoDup (openTabs a) -> NoDup (openTabs (step ev a)).
Proof.
  intros Hnd. unfold step.
  assert (openTabs (panicFocusEffect (handle ev a)) = openTabs (handle ev a)) as ->.
  { unfold panicFocusEffect. by destruct (_ && _). }
  destruct ev; cbn [handle].
  - unfold cmd_login. destruct (loggedIn (login a)); [done|].
    destruct rest0 as [room|]; [|done].
    destruct (Js.truthy room); [|done]. by rewrite joinRoom_openTabs.
  - unfold autoLogin. repeat break_match; try done. by rewrite joinRoom_openTabs.
  - unfold cmd_logout, unsubscribeIfAny. repeat break_match; done.
  - unfold cmd_ncp_run. destruct (negb (loggedIn (login a))); [done|].
    destruct (chatFileId a) as [chat|]; [|done].
    destruct (Js.truthy chat); [|done]. cbn. by apply addTab_NoDup.
  - done.
  - unfold cmd_clear_local. repeat break_match; done.
  - unfold cmd_send. repeat break_match; done.
  - unfold cmd_ring. repeat break_match; done.
  - done.
  - unfold visHandler. repeat break_match; done.
  - done.
  - unfold idlePoll. repeat break_match; done.
  - unfold messagesCallback. repeat break_match; done.
  - by rewrite ringsCallback_openTabs.
  - unfold handleSelectFile. destruct id as [i|]; [|done].
    destruct (Js.truthy i); [|done]. cbn. by apply addTab_NoDup.
  - unfold closeTab.
    assert (NoDup (filter (fun id => id ≠ fileId) (openTabs a))) as Hf
      by (by apply NoDup_filter).
    repeat break_match; done.
  - done.
Qed.

(** X19. The tab bar never shows a file twice: in every state the
    component can reach, the open tabs are pairwise different. *)
Theorem open_tabs_never_repeat (a : App) : reachable a -> NoDup (openTabs a).
Proof.
  induction 1 as [initialFiles storage now|ev a _ IH].
  - apply NoDup_nil_2.
  - by apply openTabs_step.
Qed.

Lemma open_tabs_never_repeat_witness :
  NoDup (openTabs
           (run [SelectFile (Some "a.ts"%string); SelectFile (Some "b.ts"%string);
                 SelectFile (Some "a.ts"%string)]
              aliceApp)).
Proof.
  apply open_tabs_never_repeat. cbn [run foldl].
  do 4 apply reachable_step. apply reachable_initial.
Defined.

Lemma indexOf_middle (fileId : string) (pre post : list string) :
  fileId ∉ pre -> indexOf fileId (pre ++ fileId :: post) = Some (length pre).
Proof.
  induction pre as [|p pre IH]; intros Hpre; cbn.
  - by rewrite String.eqb_refl.
  - apply not_elem_of_cons in Hpre as [Hne Hpre].
    assert (String.eqb p fileId = false) as -> by (apply String.eqb_neq; congruence).
    by rewrite IH.
Qed.

Lemma filter_other (fileId : string) (l : list string) :
  fileId ∉ l -> filter (fun id => id ≠ fileId) l = l.
Proof.
  induction l as [|x l IH]; intros Hl; [done|].
  apply not_elem_of_cons in Hl as [Hne Hl].
  rewrite filter_cons_True by congruence. by rewrite IH.
Qed.

(** X20. Closing the focused tab removes it from the bar and moves the
    focus to its left neighbour; when it was the first tab the focus moves
    to the tab that takes its place, and when it was the only one nothing
    is focused. The other tabs keep their order. *)
Theorem closeTab_moves_focus
    (fileId : string) (pre post : list string) (a : App) :
  openTabs a = pre ++ fileId :: post ->
  fileId ∉ pre -> fileId ∉ post ->
  activeFileId a = Some fileId ->
  openTabs (closeTab fileId a) = pre ++ post
  /\ activeFileId (closeTab fileId a)
     = match last pre with
       | Some neighbour => Some neighbour
       | None => head post
       end.
Proof.
  intros Htabs Hpre Hpost Hact. unfold closeTab.
  rewrite Htabs, (indexOf_middle _ _ _ Hpre), Hact.
  rewrite bool_decide_eq_true_2 by done.
  rewrite filter_app, filter_cons_False by (intros H; by apply H).
  rewrite !filter_other by done.
  destruct pre as [|p pre].
  - destruct post as [|q post]; done.
  - split; [done|]. rewrite last_lookup. cbn [length pred].
    destruct (lookup_lt_is_Some_2 (p :: pre) (length pre)) as [t Ht]; [cbn; lia|].
    rewrite Ht. cbn.
    change (p :: pre ++ post) with ((p :: pre) ++ post).
    rewrite lookup_app_l by (cbn; lia). exact Ht.
Qed.

Lemma closeTab_moves_focus_witness :
  let a := run [SelectFile (Some "a.ts"%string); SelectFile (Some "b.ts"%string);
                SelectFile (Some "c.ts"%string); SelectFile (Some "b.ts"%string)]
             aliceApp in
  openTabs (closeTab "b.ts" a) = ["a.ts"; "c.ts"]%string
  /\ activeFileId (closeTab "b.ts" a) = Some "a.ts"%string.
Proof.
  intros a.
  apply (closeTab_moves_focus "b.ts" ["a.ts"%string] ["c.ts"%string] a).
  - vm_compute. reflexivity.
  - apply (bool_decide_unpack _). vm_compute. exact I.
  - apply (bool_decide_unpack _). vm_compute. exact I.
  - vm_compute. reflexivity.
Defined.

(** ** The explorer *)

(** Induction on a node with the statement at hand for all its children. *)
Lemma FileNode_nested_ind (P : FileNode -> Prop) :
  (forall n, children n = None -> P n) ->
  (forall n cs, children n = Some cs -> Forall P cs -> P n) ->
  forall n, P n.
Proof.
  intros Hleaf Hnode. fix IH 1. intros [id nm ty [cs|] chat cont].
  - apply (Hnode _ cs); [done|].
    induction cs as [|c cs IHcs]; constructor; [apply IH|exact IHcs].
  - by apply Hleaf.
Qed.

Local Ltac nested_induction :=
  match goal with
  | |- forall n : FileNode, @?P n => apply (FileNode_nested_ind P); cbv beta
  end.

Lemma nodesOf_eq n :
  nodesOf n = n :: match children n with
                   | Some cs => allNodes cs
                   | None => []
                   end.
Proof. by destruct n. Qed.

Lemma allNodes_cons n nodes : allNodes (n :: nodes) = nodesOf n ++ allNodes nodes.
Proof. done. Qed.

Lemma withChildren_same n cs : children n = Some cs -> withChildren cs n = n.
Proof. destruct n; cbn; by intros ->. Qed.

Lemma deleteInNode_eq id n :
  deleteInNode id n
  = match children n with
    | Some cs => withChildren (deleteNode cs id) n
    | None => n
    end.
Proof.
  destruct n as [i nm ty [cs|] chat cont]; [|done].
  cbn [deleteInNode children]. f_equal.
  induction cs as [|c cs IHcs]; [done|].
  cbn [deleteNode]. by rewrite IHcs.
Qed.

Lemma deleteNode_spec id nodes :
  Forall (fun n => node_id n <> id) (allNodes (deleteNode nodes id))
  /\ (node_id <$> allNodes (deleteNode nodes id))
       `sublist_of` (node_id <$> allNodes nodes).
Proof.
  assert (forall cs,
            Forall (fun n => node_id n <> id ->
                      Forall (fun m => node_id m <> id) (nodesOf (deleteInNode id n))
                      /\ (node_id <$> nodesOf (deleteInNode id n))
                           `sublist_of` (node_id <$> nodesOf n)) cs ->
            Forall (fun n => node_id n <> id) (allNodes (deleteNode cs id))
            /\ (node_id <$> allNodes (deleteNode cs id))
                 `sublist_of` (node_id <$> allNodes cs)) as Hlist.
  { induction 1 as [|c cs Hc _ [IH1 IH2]]; [done|].
    cbn [deleteNode]. rewrite (allNodes_cons c cs), fmap_app.
    destruct (String.eqb (node_id c) id) eqn:E; cbn [negb].
    - split; [done|]. by apply sublist_inserts_l.
    - apply String.eqb_neq in E. destruct (Hc E) as [H1 H2].
      rewrite allNodes_cons, fmap_app. split.
      + by apply Forall_app.
      + by apply sublist_app. }
  apply Hlist. apply Forall_forall. intros n _. revert n.
  nested_induction.
  - intros n Hn Hid. rewrite deleteInNode_eq, Hn. rewrite (nodesOf_eq n), Hn.
    split; [by repeat constructor|done].
  - intros n cs Hn Hcs Hid. rewrite deleteInNode_eq, Hn.
    rewrite (nodesOf_eq (withChildren _ _)), (nodesOf_eq n), Hn. cbn.
    destruct (Hlist cs Hcs) as [H1 H2]. split.
    + by constructor.
    + by apply sublist_skip.
Qed.

(** X21. [deleteNode] removes the nodes with the given id at every depth,
    each with all that is below it: no node of the result has that id, and
    the ids that remain are ids of the input, in their order. *)
Theorem deleteNode_removes_everywhere (nodes : list FileNode) (id : string) :
  Forall (fun n => node_id n <> id) (allNodes (deleteNode nodes id))
  /\ (node_id <$> allNodes (deleteNode nodes id))
       `sublist_of` (node_id <$> allNodes nodes).
Proof. apply deleteNode_spec. Qed.

(** X22. Deleting an id that no node has returns the hierarchy as it was. *)
Theorem deleteNode_absent_id (nodes : list FileNode) (id : string) :
  id ∉ (node_id <$> allNodes nodes) -> deleteNode nodes id = nodes.
Proof.
  assert (forall cs,
            Forall (fun n => id ∉ (node_id <$> nodesOf n) -> deleteInNode id n = n) cs ->
            id ∉ (node_id <$> allNodes cs) -> deleteNode cs id = cs) as Hlist.
  { induction 1 as [|c cs Hc _ IH]; [done|].
    rewrite allNodes_cons, fmap_app, not_elem_of_app. intros [H1 H2].
    cbn [deleteNode].
    assert (String.eqb (node_id c) id = false) as ->.
    { apply String.eqb_neq. intros <-. apply H1.
      rewrite nodesOf_eq. cbn. apply list_elem_of_here. }
    cbn [negb]. by rewrite Hc, IH. }
  apply Hlist. apply Forall_forall. intros n _. revert n.
  nested_induction.
  - intros n Hn _. by rewrite deleteInNode_eq, Hn.
  - intros n cs Hn Hcs Hid. rewrite deleteInNode_eq, Hn.
    rewrite nodesOf_eq, Hn in Hid. cbn in Hid.
    apply not_elem_of_cons in Hid as [_ Hid].
    rewrite (Hlist cs Hcs Hid). by apply withChildren_same.
Qed.

Lemma deleteNode_absent_id_witness :
  deleteNode sampleTree "9" = sampleTree.
Proof.
  apply deleteNode_absent_id.
  apply (bool_decide_unpack _). vm_compute. exact I.
Defined.

Lemma renameInNode_eq id newName n :
  renameInNode id newName n
  = if String.eqb (node_id n) id then withName newName n
    else match children n with
         | Some cs => withChildren (renameNode cs id newName) n
         | None => n
         end.
Proof. by destruct n as [i nm ty [cs|] chat cont]. Qed.

(** X23. With pairwise different ids, [renameNode] gives the new name to
    the node with the given id and changes no other name; ids, types, chat
    flags, contents and the shape of the hierarchy stay as they were. *)
Theorem renameNode_renames_only
    (nodes : list FileNode) (id newName : string) :
  NoDup (node_id <$> allNodes nodes) ->
  nodeLabel <$> allNodes (renameNode nodes id newName)
  = (fun n => nodeLabel (if String.eqb (node_id n) id then withName newName n else n))
      <$> allNodes nodes.
Proof.
  set (g := fun n => nodeLabel (if String.eqb (node_id n) id then withName newName n else n)).
  assert (forall cs,
            Forall (fun n => NoDup (node_id <$> nodesOf n) ->
                      nodeLabel <$> nodesOf (renameInNode id newName n)
                      = g <$> nodesOf n) cs ->
            NoDup (node_id <$> allNodes cs) ->
            nodeLabel <$> allNodes (renameNode cs id newName) = g <$> allNodes cs)
    as Hlist.
  { induction 1 as [|c cs Hc _ IH]; [done|].
    rewrite allNodes_cons, fmap_app. intros (H1 & _ & H2)%NoDup_app.
    change (renameNode (c :: cs) id newName)
      with (renameInNode id newName c :: renameNode cs id newName).
    rewrite allNodes_cons, !fmap_app. rewrite Hc by done. by rewrite IH. }
  apply Hlist. apply Forall_forall. intros n _. revert n.
  nested_induction.
  - intros n Hn _. rewrite renameInNode_eq, Hn. rewrite (nodesOf_eq n), Hn.
    cbn [fmap list_fmap]. unfold g.
    destruct (String.eqb (node_id n) id) eqn:E.
    + rewrite nodesOf_eq. cbn [children withName]. by rewrite Hn.
    + by rewrite nodesOf_eq, Hn.
  - intros n cs Hn Hcs Hnd. rewrite renameInNode_eq, Hn.
    rewrite (nodesOf_eq n), Hn in Hnd. rewrite (nodesOf_eq n), Hn.
    cbn [fmap list_fmap] in Hnd |- *.
    apply NoDup_cons in Hnd as [Hfresh Hnd].
    destruct (String.eqb (node_id n) id) eqn:E.
    + rewrite nodesOf_eq. cbn [children withName]. rewrite Hn.
      cbn [fmap list_fmap]. f_equal; [unfold g; by rewrite E|].
      apply Forall_fmap_ext, Forall_forall. intros d Hd.
      unfold g. apply String.eqb_eq in E as <-.
      assert (String.eqb (node_id d) (node_id n) = false) as ->; [|done].
      apply String.eqb_neq. intros Heq. apply Hfresh. rewrite <- Heq.
      by apply list_elem_of_fmap_2.
    + rewrite nodesOf_eq. cbn [children withChildren].
      cbn [fmap list_fmap]. f_equal; [unfold g; by rewrite E|].
      by apply Hlist.
Qed.

Lemma renameNode_renames_only_witness :
  name <$> allNodes (renameNode sampleTree "3" "lib")
  = ["app"; "main.ts"; "lib"; "b.ts"; "README.md"]%string.
Proof.
  assert (NoDup (node_id <$> allNodes sampleTree)) as Hnd.
  { apply (bool_decide_unpack _). vm_compute. exact I. }
  pose proof (renameNode_renames_only sampleTree "3" "lib" Hnd) as H.
  apply (f_equal (fmap (fun l => l.1.1.1.2))) in H.
  rewrite <- !list_fmap_compose in H. exact H.
Defined.

Lemma findFirstSafeFileNode_eq n :
  findFirstSafeFileNode n
  = if bool_decide (node_type n = file) && negb (isChatFile n)
    then Some (node_id n)
    else match children n with
         | Some cs =>
             if Js.truthyOpt (findFirstSafeFile cs) then findFirstSafeFile cs
             else None
         | None => None
         end.
Proof. by destruct n as [i nm ty [cs|] chat cont]. Qed.

Lemma safeFile_test n :
  bool_decide (node_type n = file) && negb (isChatFile n) = bool_decide (safeFile n).
Proof.
  destruct (bool_decide (safeFile n)) eqn:Hs.
  - apply bool_decide_eq_true in Hs as [H1 H2].
    by rewrite H2, bool_decide_eq_true_2.
  - apply bool_decide_eq_false in Hs.
    destruct (isChatFile n) eqn:E; [by rewrite andb_false_r|].
    rewrite bool_decide_eq_false_2; [done|]. intros H. apply Hs. by split.
Qed.

(** X24. When no id is empty, [findFirstSafeFile] returns the id of the
    first file that is not the chat file, in the order in which the
    explorer lists the hierarchy, and nothing when there is none. *)
Theorem findFirstSafeFile_first (nodes : list FileNode) :
  Forall (fun n => node_id n <> EmptyString) (allNodes nodes) ->
  findFirstSafeFile nodes = head (node_id <$> filter safeFile (allNodes nodes)).
Proof.
  assert (forall cs,
            Forall (fun n => Forall (fun m => node_id m <> EmptyString) (nodesOf n) ->
                      findFirstSafeFileNode n
                      = head (node_id <$> filter safeFile (nodesOf n))) cs ->
            Forall (fun m => node_id m <> EmptyString) (allNodes cs) ->
            findFirstSafeFile cs = head (node_id <$> filter safeFile (allNodes cs)))
    as Hlist.
  { induction 1 as [|c cs Hc _ IH]; [done|].
    rewrite allNodes_cons, filter_app, fmap_app. intros [H1 H2]%Forall_app.
    cbn [findFirstSafeFile]. rewrite Hc, IH by done.
    by destruct (node_id <$> filter safeFile (nodesOf c)). }
  apply Hlist. apply Forall_forall. intros n _. revert n.
  nested_induction.
  - intros n Hn _. rewrite findFirstSafeFileNode_eq, safeFile_test, Hn, nodesOf_eq, Hn.
    destruct (bool_decide (safeFile n)) eqn:E.
    + apply bool_decide_eq_true in E. by rewrite filter_cons_True.
    + apply bool_decide_eq_false in E. by rewrite filter_cons_False.
  - intros n cs Hn Hcs Hne.
    rewrite findFirstSafeFileNode_eq, safeFile_test, Hn, (nodesOf_eq n), Hn.
    rewrite (nodesOf_eq n), Hn in Hne. apply Forall_cons in Hne as [_ Hne].
    destruct (bool_decide (safeFile n)) eqn:E.
    + apply bool_decide_eq_true in E. by rewrite filter_cons_True.
    + apply bool_decide_eq_false in E. rewrite filter_cons_False by done.
      rewrite (Hlist cs Hcs Hne).
      destruct (head (node_id <$> filter safeFile (allNodes cs))) as [i|] eqn:Hh;
        [|done].
      assert (Js.truthy i = true) as Hi; [|cbn; by rewrite Hi].
      apply truthy_true. apply head_Some_elem_of in Hh.
      apply list_elem_of_fmap in Hh as (m & -> & Hm).
      apply list_elem_of_filter in Hm as [_ Hm].
      rewrite Forall_forall in Hne. by apply Hne.
Qed.

Lemma findFirstSafeFile_first_witness :
  findFirstSafeFile sampleTree = Some "2"%string.
Proof.
  rewrite findFirstSafeFile_first; [reflexivity|].
  apply (bool_decide_unpack _). vm_compute. exact I.
Defined.

Lemma findFirstSafeFile_sound nodes i :
  findFirstSafeFile nodes = Some i ->
  exists n, n ∈ allNodes nodes /\ node_id n = i /\ safeFile n.
Proof.
  assert (forall cs,
            Forall (fun n => forall i,
                      findFirstSafeFileNode n = Some i ->
                      exists m, m ∈ nodesOf n /\ node_id m = i /\ safeFile m) cs ->
            forall i, findFirstSafeFile cs = Some i ->
                      exists m, m ∈ allNodes cs /\ node_id m = i /\ safeFile m)
    as Hlist.
  { induction 1 as [|c cs Hc _ IH]; intros j; [done|].
    cbn [findFirstSafeFile]. rewrite allNodes_cons.
    destruct (findFirstSafeFileNode c) as [found|] eqn:Hfound.
    - intros [= <-]. destruct (Hc found eq_refl) as (m & Hm & Hid & Hsafe).
      exists m. split; [|done]. apply elem_of_app. by left.
    - intros Hj. destruct (IH j Hj) as (m & Hm & Hid & Hsafe).
      exists m. split; [|done]. apply elem_of_app. by right. }
  revert i. apply Hlist. apply Forall_forall. intros n _. revert n.
  nested_induction.
  - intros n Hn j. rewrite findFirstSafeFileNode_eq, safeFile_test, Hn.
    destruct (bool_decide (safeFile n)) eqn:E; [|done].
    apply bool_decide_eq_true in E. intros [= <-]. exists n.
    split; [|done]. rewrite nodesOf_eq. apply list_elem_of_here.
  - intros n cs Hn Hcs j. rewrite findFirstSafeFileNode_eq, safeFile_test, Hn.
    destruct (bool_decide (safeFile n)) eqn:E.
    + apply bool_decide_eq_true in E. intros [= <-]. exists n.
      split; [|done]. rewrite nodesOf_eq. apply list_elem_of_here.
    + destruct (Js.truthyOpt (findFirstSafeFile cs)); [|done].
      intros Hj. destruct (Hlist cs Hcs j Hj) as (m & Hm & Hid & Hsafe).
      exists m. split; [|done]. rewrite nodesOf_eq, Hn.
      by apply list_elem_of_further.
Qed.

(** X12. The panic switch itself, before any effect runs, never leaves the
    chat file focused: when every node that has the chat file's id carries
    the chat flag, [hideChatAndSwitch] sets panic and, if the chat file was
    focused, moves the focus to what [findFirstSafeFile] returns, which is
    a file other than the chat file or nothing; any other focus stays. *)
Theorem hideChatAndSwitch_leaves_chat_file (a : App) (chat : string) :
  chatFileId a = Some chat -> chat <> EmptyString ->
  (forall n, n ∈ allNodes (files a) -> node_id n = chat -> isChatFile n = true) ->
  let a' := hideChatAndSwitch a in
  panic a' = true
  /\ activeFileId a' <> Some chat
  /\ (activeFileId a = Some chat -> activeFileId a' = findFirstSafeFile (files a))
  /\ (activeFileId a <> Some chat -> activeFileId a' = activeFileId a).
Proof.
  intros Hchat Hne Hflag a'. unfold a', hideChatAndSwitch. rewrite Hchat.
  apply truthy_true in Hne. rewrite Hne. cbn [negb].
  destruct (bool_decide (activeFileId a = Some chat)) eqn:E; cbn [negb].
  - apply bool_decide_eq_true in E. split_and!; [done| |done|done].
    cbn. intros Hsafe. apply findFirstSafeFile_sound in Hsafe
      as (n & Hin & Hid & _ & Hnochat).
    rewrite (Hflag n Hin Hid) in Hnochat. discriminate.
  - apply bool_decide_eq_false in E. by split_and!.
Qed.

Lemma hideChatAndSwitch_leaves_chat_file_witness :
  let a := set_files (sampleTree ++ files aliceApp) (step NcpRun aliceApp) in
  activeFileId a = Some "chat-1"%string
  /\ activeFileId (hideChatAndSwitch a) = Some "2"%string.
Proof.
  intros a.
  assert (chatFileId a = Some "chat-1"%string) as Hc by reflexivity.
  assert ("chat-1"%string <> EmptyString) as Hne by discriminate.
  assert (forall n, n ∈ allNodes (files a) -> node_id n = "chat-1"%string ->
                    isChatFile n = true) as Hflag.
  { intros n Hin Hid. vm_compute in Hin.
    repeat (apply elem_of_cons in Hin as [->|Hin]; [try done; discriminate Hid|]).
    by apply elem_of_nil in Hin. }
  assert (activeFileId a = Some "chat-1"%string) as Hfocus by reflexivity.
  destruct (hideChatAndSwitch_leaves_chat_file a "chat-1" Hc Hne Hflag)
    as (_ & _ & Hmoved & _).
  split; [exact Hfocus|]. rewrite (Hmoved Hfocus). reflexivity.
Defined.

(** X25. A chat file that the explorer deleted does not come back:
    [handleDelete] leaves [chatFileId] as it is, so [ensureChatFile]
    (which every login runs) still takes the chat file to exist and adds
    nothing; no node of the hierarchy has the chat file's id any more. *)
Theorem deleted_chat_file_not_recreated (chat uuid : string) (a : App) :
  chatFileId a = Some chat -> chat <> EmptyString ->
  let a' := ensureChatFile uuid (handleDelete chat a) in
  chatFileId a' = Some chat
  /\ files a' = deleteNode (files a) chat
  /\ Forall (fun n => node_id n <> chat) (allNodes (files a')).
Proof.
  intros Hchat Hne a'.
  assert (chatFileId (handleDelete chat a) = Some chat
          /\ files (handleDelete chat a) = deleteNode (files a) chat) as [Hc Hf].
  { unfold handleDelete, handleSelectFile. by destruct (bool_decide _). }
  assert (a' = handleDelete chat a) as ->.
  { unfold a', ensureChatFile. rewrite Hc. cbn [Js.truthyOpt].
    apply truthy_true in Hne. by rewrite Hne. }
  rewrite Hf. repeat split; [done|]. apply deleteNode_spec.
Qed.

Lemma deleted_chat_file_not_recreated_witness :
  let a' := ensureChatFile "chat-2" (handleDelete "chat-1" aliceApp) in
  chatFileId a' = Some "chat-1"%string /\ files a' = [].
Proof.
  intros a'.
  assert (chatFileId aliceApp = Some "chat-1"%string) as Hc by (vm_compute; reflexivity).
  assert ("chat-1"%string <> EmptyString) as Hne by discriminate.
  destruct (deleted_chat_file_not_recreated "chat-1" "chat-2" aliceApp Hc Hne)
    as (H1 & H2 & _).
  split; [exact H1|]. unfold a'. rewrite H2. vm_compute. reflexivity.
Defined.

Lemma insertIntoNode_eq chatId n ins :
  insertIntoNode chatId n ins
  = if bool_decide (node_type n = folder)
       && (String.eqb (name n) "src" || String.eqb (name n) "lib")
       && negb ins
    then (withChildren (default [] (children n) ++ [chatFileInFolder chatId]) n, true)
    else match children n with
         | Some cs =>
             let '(cs', ins') := insertIntoTree chatId cs ins in
             (withChildren cs' n, ins')
         | None => (n, ins)
         end.
Proof.
  destruct n as [i nm ty [cs|] chat cont]; [|done].
  cbn [insertIntoNode node_type name children isChatFile node_content node_id].
  destruct (_ && _ && _); [done|].
  match goal with
  | |- context [?w cs ins] =>
      is_fix w; assert (forall l k, w l k = insertIntoTree chatId l k) as ->
  end; [|done].
  induction l as [|x l IHl]; intros k; [done|].
  cbn [insertIntoTree]. destruct (insertIntoNode chatId x k). by rewrite IHl.
Qed.

Lemma allNodes_app l1 l2 : allNodes (l1 ++ l2) = allNodes l1 ++ allNodes l2.
Proof. apply flat_map_app. Qed.

Lemma outlineOf_eq d n :
  outlineOf d n
  = (d, nodeLabel n) :: match children n with
                        | Some cs => outline (S d) cs
                        | None => []
                        end.
Proof. by destruct n. Qed.

Lemma outline_cons d n nodes : outline d (n :: nodes) = outlineOf d n ++ outline d nodes.
Proof. done. Qed.

Lemma outline_app d l1 l2 : outline d (l1 ++ l2) = outline d l1 ++ outline d l2.
Proof. apply flat_map_app. Qed.

Lemma outline_depth nodes : forall d, Forall (fun e => (d <= e.1)%nat) (outline d nodes).
Proof.
  assert (forall cs,
            Forall (fun n => forall d, Forall (fun e => (d <= e.1)%nat) (outlineOf d n)) cs ->
            forall d, Forall (fun e => (d <= e.1)%nat) (outline d cs)) as Hlist.
  { induction 1 as [|c cs Hc _ IH]; intros d; [constructor|].
    rewrite outline_cons. apply Forall_app. split; [apply Hc|apply IH]. }
  apply Hlist. apply Forall_forall. intros n _. revert n.
  nested_induction.
  - intros n Hn d. rewrite outlineOf_eq, Hn. by repeat constructor.
  - intros n cs Hn Hcs d. rewrite outlineOf_eq, Hn. constructor; [done|].
    eapply Forall_impl; [apply (Hlist cs Hcs (S d))|]. intros e He. cbn in *. lia.
Qed.

Lemma outline_deeper d nodes : Forall (fun e => (d < e.1)%nat) (outline (S d) nodes).
Proof. eapply Forall_impl; [apply outline_depth|]. intros e He. cbn in *. lia. Qed.

(** Where the traversal of [insertIntoTree] puts the chat file: nowhere as
    long as it meets no folder named [src] or [lib]; else, once, behind all
    that is below the first such folder, one level deeper than the folder:
    as its last child. [ins] and [ins'] are the flag [inserted] before and
    after; [old] and [new] are the outlines at depth [d]. *)
Local Abbreviation placedIn chatId d old new :=
  (exists pre d' host below rest,
      old = (pre ++ (d', host) :: below ++ rest)%list
      /\ Forall (fun e => hostLabel e.2 = false) pre
      /\ hostLabel host = true
      /\ Forall (fun e => (d' < e.1)%nat) below
      /\ (forall e, head rest = Some e -> (e.1 <= d')%nat)
      /\ (d <= d')%nat
      /\ new = (pre ++ (d', host) :: below
                  ++ (S d', nodeLabel (chatFileInFolder chatId)) :: rest)%list).

Local Abbreviation insertsOnce chatId ins before after ins' d old new :=
  ((ins = true -> after = before /\ ins' = true)
   /\ (ins = false ->
       (after = before /\ ins' = false
        /\ Forall (fun e => hostLabel e.2 = false) old%list)
       \/ (ins' = true /\ placedIn chatId d old%list new%list))).

Local Ltac list_assoc :=
  repeat first [rewrite <- app_assoc | rewrite <- app_comm_cons]; reflexivity.

Lemma insertIntoTree_places chatId nodes : forall d ins,
  insertsOnce chatId ins nodes (insertIntoTree chatId nodes ins).1
    (insertIntoTree chatId nodes ins).2 d
    (outline d nodes) (outline d (insertIntoTree chatId nodes ins).1).
Proof.
  assert (forall cs,
            Forall (fun n => forall d ins,
                      insertsOnce chatId ins n (insertIntoNode chatId n ins).1
                        (insertIntoNode chatId n ins).2 d
                        (outlineOf d n) (outlineOf d (insertIntoNode chatId n ins).1)) cs ->
            forall d ins,
              insertsOnce chatId ins cs (insertIntoTree chatId cs ins).1
                (insertIntoTree chatId cs ins).2 d
                (outline d cs) (outline d (insertIntoTree chatId cs ins).1)) as Hlist.
  { induction 1 as [|c cs Hc _ IH]; intros d i.
    - cbn. split; [done|]. intros ->. left. by repeat split.
    - cbn [insertIntoTree]. specialize (Hc d i).
      destruct (insertIntoNode chatId c i) as [c' i1]. specialize (IH d i1).
      destruct (insertIntoTree chatId cs i1) as [cs' i2].
      cbn [fst snd] in *. destruct Hc as [Hc1 Hc0], IH as [IH1 IH0]. split.
      + intros ->. destruct (Hc1 eq_refl) as [-> ->].
        by destruct (IH1 eq_refl) as [-> ->].
      + intros ->. rewrite !outline_cons.
        destruct (Hc0 eq_refl)
          as [(-> & -> & Hno)
             |[-> (pre & d' & host & below & rest
                   & Hold & Hpre & Hhost & Hbelow & Hrest & Hd & Hnew)]].
        * destruct (IH0 eq_refl)
            as [(-> & -> & Hno')
               |[-> (pre & d' & host & below & rest
                     & Hold & Hpre & Hhost & Hbelow & Hrest & Hd & Hnew)]].
          -- left. split_and!; [done|done|]. by apply Forall_app.
          -- right. split; [done|].
             exists (outlineOf d c ++ pre), d', host, below, rest.
             rewrite Hold, Hnew.
             split_and!; [list_assoc|by apply Forall_app|done|done|done|done
                         |list_assoc].
        * destruct (IH1 eq_refl) as [-> ->]. right. split; [done|].
          exists pre, d', host, below, (rest ++ outline d cs).
          rewrite Hold, Hnew.
          split_and!; [list_assoc|done|done|done| |done|list_assoc].
          intros e He. destruct rest as [|r rest]; [|by apply Hrest].
          destruct cs as [|c0 cs0]; [done|].
          rewrite outline_cons, outlineOf_eq in He.
          injection He as <-. cbn. lia. }
  apply Hlist. apply Forall_forall. intros n _. revert n.
  nested_induction.
  - intros n Hn d i. rewrite insertIntoNode_eq, Hn.
    destruct (_ && _ && negb i) eqn:E; cbn [fst snd].
    + apply andb_true_iff in E as [Hhost Hi]. apply negb_true_iff in Hi as ->.
      split; [done|]. intros _. right. split; [done|].
      exists [], d, (nodeLabel n), [], [].
      rewrite (outlineOf_eq d n), Hn, outlineOf_eq.
      cbn [children withChildren default from_option id app].
      split_and!; [done|done|exact Hhost|done|done|done|].
      by rewrite outline_cons, outlineOf_eq.
    + split; [done|]. intros ->. left. split_and!; [done|done|].
      rewrite outlineOf_eq, Hn. repeat constructor.
      rewrite andb_true_r in E. exact E.
  - intros n cs Hn Hcs d i. rewrite insertIntoNode_eq, Hn.
    destruct (_ && _ && negb i) eqn:E; cbn [fst snd].
    + apply andb_true_iff in E as [Hhost Hi]. apply negb_true_iff in Hi as ->.
      split; [done|]. intros _. right. split; [done|].
      exists [], d, (nodeLabel n), (outline (S d) cs), [].
      rewrite (outlineOf_eq d n), Hn, outlineOf_eq.
      cbn [children withChildren default from_option id app].
      rewrite outline_app, app_nil_r.
      split_and!; [done|done|exact Hhost|apply outline_deeper|done|done|].
      by rewrite outline_cons, outlineOf_eq.
    + destruct (Hlist cs Hcs (S d) i) as [H1 H0].
      destruct (insertIntoTree chatId cs i) as [cs' i']. cbn [fst snd] in *.
      split.
      * intros ->. destruct (H1 eq_refl) as [-> ->].
        by rewrite withChildren_same.
      * intros ->. rewrite andb_true_r in E.
        destruct (H0 eq_refl)
          as [(-> & -> & Hno)
             |[-> (pre & d' & host & below & rest
                   & Hold & Hpre & Hhost & Hbelow & Hrest & Hd & Hnew)]].
        -- left. rewrite withChildren_same by done. split_and!; [done|done|].
           rewrite outlineOf_eq, Hn. by constructor.
        -- right. split; [done|].
           exists ((d, nodeLabel n) :: pre), d', host, below, rest.
           rewrite (outlineOf_eq d n), Hn, outlineOf_eq.
           cbn [children withChildren]. rewrite Hold, Hnew.
           split_and!; [done|by constructor|done|done|done|lia|done].
Qed.

(** X26. When no chat file exists yet, [ensureChatFile] records the id it
    drew and adds exactly one node, the chat file: as the last root when no
    folder of the hierarchy is named [src] or [lib], and else as the last
    child of the first such folder in the order of the explorer's listing.
    Every other node keeps its place, depth, name and content. *)
Theorem ensureChatFile_adds_one_node (uuid : string) (a : App) :
  Js.truthyOpt (chatFileId a) = false -> uuid <> EmptyString ->
  let a' := ensureChatFile uuid a in
  chatFileId a' = Some uuid
  /\ ((Forall (fun e => hostLabel e.2 = false) (outline 0 (files a))
       /\ files a' = files a ++ [chatFileStandalone uuid])
      \/ exists pre d host below rest,
           outline 0 (files a) = pre ++ (d, host) :: below ++ rest
           /\ Forall (fun e => hostLabel e.2 = false) pre
           /\ hostLabel host = true
           /\ Forall (fun e => (d < e.1)%nat) below
           /\ (forall e, head rest = Some e -> (e.1 <= d)%nat)
           /\ outline 0 (files a')
              = pre ++ (d, host) :: below
                  ++ (S d, nodeLabel (chatFileInFolder uuid)) :: rest).
Proof.
  intros Hnone Hne a'. unfold a', ensureChatFile. rewrite Hnone.
  apply truthy_true in Hne. rewrite Hne.
  destruct (insertIntoTree_places uuid (files a) 0%nat false) as [_ H0].
  destruct (insertIntoTree uuid (files a) false) as [newFiles inserted].
  cbn [fst snd] in H0. split; [done|].
  destruct (H0 eq_refl)
    as [(-> & -> & Hno)
       |[-> (pre & d & host & below & rest
             & Hold & Hpre & Hhost & Hbelow & Hrest & _ & Hnew)]].
  - by left.
  - right. exists pre, d, host, below, rest. by repeat split.
Qed.

Lemma ensureChatFile_adds_one_node_witness :
  let a := set_files sampleSources (initialApp [] workingStorage 0) in
  chatFileId (ensureChatFile "chat-1" a) = Some "chat-1"%string
  /\ (fun e => (e.1, e.2.1.1.1.2)) <$> outline 0 (files (ensureChatFile "chat-1" a))
     = [(0, "docs"); (1, "src"); (0, "src"); (1, "main.ts"); (1, "secret_job.dart");
        (0, "lib")]%nat%string.
Proof.
  intros a.
  assert (Js.truthyOpt (chatFileId a) = false) as H1 by reflexivity.
  assert ("chat-1"%string <> EmptyString) as H2 by discriminate.
  destruct (ensureChatFile_adds_one_node "chat-1" a H1 H2) as [Hc _].
  split; [exact Hc|]. vm_compute. reflexivity.
Defined.

(** ** The chat input of the editor *)

Lemma append_truthy_r p b : Js.truthy b = true -> Js.truthy (p +:+ b) = true.
Proof. intros Hb. destruct p; [exact Hb|reflexivity]. Qed.

Lemma trimEnd_append p b :
  Js.truthy (Js.trimEnd b) = true -> Js.trimEnd (p +:+ b) = p +:+ Js.trimEnd b.
Proof.
  intros Hb. induction p as [|c p IH]; [done|].
  change (String c p +:+ b) with (String c (p +:+ b)).
  rewrite trimEnd_cons, IH, append_truthy_r by done.
  by rewrite andb_false_r.
Qed.

Lemma trimEnd_fixed_append p b :
  Js.trimEnd b = b -> Js.truthy b = true ->
  Js.trimEnd (p +:+ b) = (p +:+ b)%string /\ Js.truthy (p +:+ b) = true.
Proof.
  intros Hfix Hb. split; [|by apply append_truthy_r].
  rewrite trimEnd_append; by rewrite Hfix.
Qed.

Lemma trim_truthy_fixed b : Js.truthy (Js.trim b) = true ->
  Js.truthy (Js.trimEnd (Js.trim b)) = true /\ Js.trimEnd (Js.trim b) = Js.trim b.
Proof.
  intros Hb. assert (Js.trimEnd (Js.trim b) = Js.trim b) as ->; [|done].
  unfold Js.trim. by rewrite trimEnd_idem.
Qed.

(** X27. Enter in the chat input sends nothing for an input of white space
    only. Any other input is handed on trimmed, behind the reply prefix
    when a reply target is set, and with a session active the store
    receives exactly that text as the content, from the user as sender. *)
Theorem editor_text_stored_as_composed
    (lg : LoginState) (room user : string) (chatInput : string)
    (replyTarget : option ChatMessage) (settled : option Rejection) :
  activeSession lg room user ->
  match composeChat chatInput replyTarget with
  | None => blank chatInput = true
  | Some text =>
      blank chatInput = false
      /\ exists fields,
          send_write (sendMessage lg text settled) = Some (room, fields)
          /\ f_content fields = text /\ f_sender fields = user
  end.
Proof.
  intros Hs. unfold composeChat. rewrite trim_blank, negb_involutive.
  destruct (blank chatInput) eqn:Hb; [done|]. split; [done|].
  assert (Js.truthy (Js.trim chatInput) = true) as Ht by (by rewrite trim_blank, Hb).
  destruct (trim_truthy_fixed _ Ht) as [Hte Hfix].
  rewrite (sendMessage_session lg room user) by done.
  match goal with
  | |- context [Js.trim ?t] =>
      assert (Js.trim t = t /\ Js.truthy t = true) as [-> ->]
  end.
  { destruct replyTarget as [target|].
    - split; [|done]. unfold Js.trim.
      change (Js.trimStart
                ("replied to { " +:+ dquote +:+ replySnippet target +:+ dquote
                   +:+ " } " +:+ Js.trimEnd (Js.trimStart chatInput)))
        with ("replied to { " +:+ dquote +:+ replySnippet target +:+ dquote
                +:+ " } " +:+ Js.trimEnd (Js.trimStart chatInput))%string.
      pose proof (trimEnd_fixed_append " } " _ Hfix Ht) as [H5 T5].
      pose proof (trimEnd_fixed_append dquote _ H5 T5) as [H4 T4].
      pose proof (trimEnd_fixed_append (replySnippet target) _ H4 T4) as [H3 T3].
      pose proof (trimEnd_fixed_append dquote _ H3 T3) as [H2 T2].
      by pose proof (trimEnd_fixed_append "replied to { " _ H2 T2) as [H1 _].
    - split; [apply trim_idem|done]. }
  cbn [negb send_write]. eexists. split; [reflexivity|]. done.
Qed.

Lemma editor_text_stored_as_composed_witness :
  exists fields,
    send_write
      (sendMessage aliceSession
         ("replied to { " +:+ dquote +:+ "lunch?" +:+ dquote +:+ " } yes")
         None)
    = Some ("room"%string, fields)
    /\ f_content fields
       = ("replied to { " +:+ dquote +:+ "lunch?" +:+ dquote +:+ " } yes")%string.
Proof.
  assert (activeSession aliceSession "room" "alice") as Hs.
  { unfold activeSession. cbn. repeat split; discriminate. }
  pose proof (editor_text_stored_as_composed aliceSession "room" "alice" "  yes "
                (Some (mkChatMessage "m1" "bob" "lunch?" (Some 0) [] ∅)) None Hs) as H.
  destruct H as (_ & fields & Hw & Hc & _).
  exists fields. split; [exact Hw|exact Hc].
Defined.

(** ** Presence *)

Lemma presenceTurn_silent currentUser now prev st d :
  docName d = currentUser
  \/ prevStatusOf prev (docName d) = Some (docStatus d) ->
  presenceLines (presenceTurn currentUser now prev st d) = presenceLines st
  /\ onlineLog (presenceTurn currentUser now prev st d) = onlineLog st.
Proof.
  intros H. unfold presenceTurn.
  assert (negb (String.eqb (docName d) currentUser)
          && negb (bool_decide (Some (docStatus d) = prevStatusOf prev (docName d)))
          = false) as ->.
  { apply andb_false_iff. destruct H as [H|H]; [left|right].
    - apply negb_false_iff, String.eqb_eq, H.
    - apply negb_false_iff, bool_decide_eq_true. by rewrite H. }
  cbn. by rewrite app_nil_r.
Qed.

(** X28. A presence snapshot in which every document is the user's own or
    repeats the status that the map held before gives for its name prints
    nothing and leaves the log of online notices alone. What the map gives
    is what the lookup [prev[name]] finds: a name that the map inherits
    from its prototype has no status there, so a document of that name is
    never a repetition. *)
Theorem presence_snapshot_quiet
    (currentUser : string) (now : Z) (prev : PresenceMap)
    (log : gmap string Z) (docs : list PresenceDoc) :
  Forall (fun d =>
            docName d = currentUser
            \/ prevStatusOf prev (docName d) = Some (docStatus d))
    docs ->
  presenceLines (onPresenceSnapshot currentUser now prev log docs) = []
  /\ onlineLog (onPresenceSnapshot currentUser now prev log docs) = log.
Proof.
  unfold onPresenceSnapshot. intros Hdocs.
  assert (forall st,
            presenceLines (foldl (presenceTurn currentUser now prev) st docs)
            = presenceLines st
            /\ onlineLog (foldl (presenceTurn currentUser now prev) st docs)
               = onlineLog st) as Hst; [|apply Hst].
  induction Hdocs as [|d docs Hd _ IH]; intros st; [done|].
  cbn [foldl]. destruct (IH (presenceTurn currentUser now prev st d)) as [-> ->].
  by apply presenceTurn_silent.
Qed.

Lemma presence_snapshot_quiet_witness :
  presenceLines
    (onPresenceSnapshot "alice" 5000
       (mkPresenceMap {[ "bob"%string := mkPresenceInfo "online" false ]} None) ∅
       [ mkPresenceDoc "alice" None (Some "away"%string) false false;
         mkPresenceDoc "bob" None None true true;
         mkPresenceDoc "carol" None (Some "offline"%string) false false ])
  = [].
Proof.
  apply presence_snapshot_quiet.
  constructor; [by left|]. constructor; [right; vm_compute; reflexivity|].
  constructor; [right; vm_compute; reflexivity|]. constructor.
Defined.

(** A document whose name the map inherits from [Object.prototype] is
    announced although nothing is known to have changed: the lookup finds a
    function, which has no status. *)
Lemma inherited_name_is_announced :
  presenceLines
    (onPresenceSnapshot "alice" 5000 (mkPresenceMap ∅ None) ∅
       [ mkPresenceDoc "constructor" None (Some "offline"%string) false false ])
  = [mkLine "user constructor offline" c_default].
Proof. reflexivity. Qed.

Lemma string_app_inj_r (a b s : string) : a +:+ s = b +:+ s -> a = b.
Proof.
  intros H. apply (f_equal String.list_ascii_of_string) in H.
  rewrite !app_list in H. apply app_inv_tail in H.
  rewrite <- (String.string_of_list_ascii_of_string a),
    <- (String.string_of_list_ascii_of_string b). by rewrite H.
Qed.

Lemma onlineNoticeDue_recent now (log : gmap string Z) who t :
  log !! who = Some t -> now - t <= 2000 -> onlineNoticeDue now log who = false.
Proof.
  intros Hl Hrecent. unfold onlineNoticeDue, Js.member.
  destruct (String.eqb who "__proto__"); [done|].
  rewrite Hl. apply Z.ltb_ge. lia.
Qed.

(** X29. A user whose online notice was printed no more than 2000 ms ago
    is not announced online again, whatever the snapshot holds, and the
    time of that notice stays in the log. *)
Theorem online_notice_rate_limited
    (currentUser : string) (now : Z) (prev : PresenceMap)
    (log : gmap string Z) (docs : list PresenceDoc) (who : string) (t : Z) :
  log !! who = Some t -> now - t <= 2000 ->
  (mkLine ("user " +:+ who +:+ " online") c_green
     ∉ presenceLines (onPresenceSnapshot currentUser now prev log docs))
  /\ onlineLog (onPresenceSnapshot currentUser now prev log docs) !! who = Some t.
Proof.
  intros Hlog Hrecent. unfold onPresenceSnapshot.
  set (target := mkLine ("user " +:+ who +:+ " online") c_green).
  assert (forall st,
            onlineLog st !! who = Some t ->
            target ∉ presenceLines st ->
            (target ∉ presenceLines (foldl (presenceTurn currentUser now prev) st docs))
            /\ onlineLog (foldl (presenceTurn currentUser now prev) st docs) !! who
               = Some t) as Hst.
  { induction docs as [|d docs IH]; intros st Hl Hn; [done|].
    cbn [foldl].
    assert (onlineLog (presenceTurn currentUser now prev st d) !! who = Some t
            /\ target ∉ presenceLines (presenceTurn currentUser now prev st d))
      as [H1 H2]; [|by apply IH].
    unfold presenceTurn.
    match goal with
    | |- context [let '(_, _) := ?r in _] => destruct r as [lg ls] eqn:Er
    end.
    cbn [onlineLog presenceLines]. rewrite not_elem_of_app.
    assert (lg !! who = Some t /\ target ∉ ls) as [Hlg Hls]; [|done].
    revert Er. destruct (_ && _);
      [|intros [= <- <-]; split; [done|apply not_elem_of_nil]].
    destruct (String.eqb (docStatus d) "online").
    - destruct (onlineNoticeDue now (onlineLog st) (docName d)) eqn:E;
        [|intros [= <- <-]; split; [done|apply not_elem_of_nil]].
      intros [= <- <-].
      assert (docName d <> who) as Hother.
      { intros Heq. rewrite Heq in E.
        by rewrite (onlineNoticeDue_recent now _ who t Hl Hrecent) in E. }
      split; [by rewrite lookup_insert_ne|].
      intros Hin%list_elem_of_singleton. unfold target in Hin.
      injection Hin as Hin.
      change (who +:+ " online" = docName d +:+ " online")%string in Hin.
      by apply string_app_inj_r in Hin.
    - destruct (String.eqb (docStatus d) "away");
        [|destruct (String.eqb (docStatus d) "offline")];
        intros [= <- <-]; (split; [done|]);
        first [ apply not_elem_of_nil | by intros Hin%list_elem_of_singleton ]. }
  apply Hst; [done|]. apply not_elem_of_nil.
Qed.

Lemma online_notice_rate_limited_witness :
  mkLine "user bob online" c_green
    ∉ presenceLines
        (onPresenceSnapshot "alice" 6000 (mkPresenceMap ∅ None)
           {[ "bob"%string := 4500 ]}
           [ mkPresenceDoc "bob" None (Some "online"%string) true false ]).
Proof.
  apply (online_notice_rate_limited "alice" 6000 (mkPresenceMap ∅ None)
           {[ "bob"%string := 4500 ]}
           [ mkPresenceDoc "bob" None (Some "online"%string) true false ] "bob" 4500).
  - reflexivity.
  - lia.
Defined.

(** X30. The typing indicator lists exactly the other users whose presence
    entry says they are typing; the user's own entry is never listed. *)
Theorem typingUsers_lists_others
    (me : string) (pmap : gmap string PresenceInfo) (u : string) :
  me <> EmptyString ->
  u ∈ typingUsers (Some me) pmap
  <-> u <> me /\ exists info, pmap !! u = Some info /\ typing info = true.
Proof.
  intros Hme. apply truthy_true in Hme. unfold typingUsers.
  cbn [Js.truthyOpt]. rewrite Hme. cbn [andb].
  destruct (bool_decide (map_to_list pmap = [])) eqn:E; cbn [negb].
  - apply bool_decide_eq_true in E. apply map_to_list_empty_iff in E as ->.
    split; [by intros ?%elem_of_nil|]. intros (_ & info & Hi & _).
    by rewrite lookup_empty in Hi.
  - rewrite list_elem_of_fmap. split.
    + intros ([k info] & -> & Hin). apply list_elem_of_filter in Hin as [[Hne Hty] Hin].
      apply elem_of_map_to_list in Hin. cbn in *. split; [congruence|]. by exists info.
    + intros (Hne & info & Hi & Hty). exists (u, info). split; [done|].
      apply list_elem_of_filter. split; [cbn; split; [congruence|done]|].
      by apply elem_of_map_to_list.
Qed.

Lemma typingUsers_lists_others_witness :
  "bob"%string
    ∈ typingUsers (Some "alice"%string)
        {[ "alice"%string := mkPresenceInfo "online" true;
           "bob"%string := mkPresenceInfo "online" true ]}
  /\ "alice"%string
       ∉ typingUsers (Some "alice"%string)
           {[ "alice"%string := mkPresenceInfo "online" true;
              "bob"%string := mkPresenceInfo "online" true ]}.
Proof.
  assert ("alice"%string <> EmptyString) as Hme by discriminate.
  split.
  - apply (typingUsers_lists_others "alice" _ "bob" Hme). split; [discriminate|].
    exists (mkPresenceInfo "online" true). split; reflexivity.
  - intros H. by apply (typingUsers_lists_others "alice" _ "alice" Hme) in H as [? _].
Defined.
